(** * QrCode_Flet: payload builder and label renderer

    A shallow embedding of the core of [QrCode_Flet.py] (the functions
    [_titlecase], [_normalize_date], [make_payload_*], [make_text_*],
    [_wrap_title_lines], [render_label_pil] and the handler
    [generate_preview]) together with the properties stated about them,
    and of the other handlers of [main]: [save_png] with [_save_result],
    [copy_qr_content], [on_zoom_change] and the theme button.

    Python values are modelled as follows.
    - [str] is a list of Unicode code points ([N]); [len], slicing and
      concatenation are the list operations.
    - The Unicode character database that [str.split], [str.strip],
      [str.isupper], [str.upper], [str.lower] and the regex class [\d]
      consult is an interface ([Unicode]); [UnicodeLaws] records that it
      agrees with the ASCII tables on ASCII text, and [ascii_unicode] is the
      instance that is caseless outside ASCII.
    - [float] is an interface ([PyFloat]) giving the builtin [float()]
      parser, [repr], the arithmetic used by the renderer and its value as a
      rational; [CorrectlyRounded] states that the arithmetic rounds
      monotonically and keeps representable numbers.  [binary64_model]
      rounds to nearest even at 53 bits and is compared with the kernel's
      floats; [exact_float] does not round.
    - The QR encoder, Pillow and the font metrics are an interface
      ([Imaging]); an exception is a value of [exn].
    - Writing a file is an interface ([FileSystem]); the clipboard, the
      save dialog and the files lie beside the page in a [Desk]. *)

From Stdlib Require Import String Ascii DecimalString.
From Stdlib Require Import List NArith ZArith QArith Qabs Qround Qpower.
From Stdlib Require Import Bool Lia Lqa Morphisms.
From Stdlib Require Floats Uint63.
Import ListNotations.

Set Implicit Arguments.
Close Scope Q_scope.

(** ** Strings *)

Definition char := N.
Definition str := list char.

Module Utf8.

(** Decoder used only to write string literals: the source file is UTF-8
    and its literals are sequences of code points. *)
Definition cont (b : N) : N := N.land b 63.

Fixpoint decode (l : list N) : str :=
  match l with
  | [] => []
  | b :: t =>
      if (b <? 128)%N then b :: decode t
      else if (b <? 224)%N then
        match t with
        | c1 :: t1 => (N.shiftl (N.land b 31) 6 + cont c1)%N :: decode t1
        | [] => [65533%N]
        end
      else if (b <? 240)%N then
        match t with
        | c1 :: c2 :: t2 =>
            (N.shiftl (N.land b 15) 12 + N.shiftl (cont c1) 6 + cont c2)%N
              :: decode t2
        | _ => [65533%N]
        end
      else
        match t with
        | c1 :: c2 :: c3 :: t3 =>
            (N.shiftl (N.land b 7) 18 + N.shiftl (cont c1) 12
             + N.shiftl (cont c2) 6 + cont c3)%N :: decode t3
        | _ => [65533%N]
        end
  end.

(** [str.encode("utf-8")], one code point at a time. *)
Definition encode_char (c : char) : list N :=
  if (c <? 128)%N then [c]
  else if (c <? 2048)%N then
    [(192 + N.shiftr c 6)%N; (128 + N.land c 63)%N]
  else if (c <? 65536)%N then
    [(224 + N.shiftr c 12)%N; (128 + N.land (N.shiftr c 6) 63)%N;
     (128 + N.land c 63)%N]
  else
    [(240 + N.shiftr c 18)%N; (128 + N.land (N.shiftr c 12) 63)%N;
     (128 + N.land (N.shiftr c 6) 63)%N; (128 + N.land c 63)%N].

Definition encode (s : str) : list N := flat_map encode_char s.

End Utf8.

(** [py "..."] is the Python string written between the quotes. *)
Definition py (s : string) : str :=
  Utf8.decode (map N_of_ascii (list_ascii_of_string s)).

(** [x or y] on strings: the empty string is falsy. *)
Definition str_or (x y : str) : str :=
  match x with [] => y | _ => x end.

(** [x or y] where [x] may be [None]. *)
Definition opt_or (x : option str) (y : str) : str :=
  match x with
  | None => y
  | Some v => str_or v y
  end.

(** Truth value of a string. *)
Definition truthy (s : str) : bool :=
  match s with [] => false | _ => true end.

Definition str_eqb (a b : str) : bool :=
  if list_eq_dec N.eq_dec a b then true else false.

(** [sep.join(l)] *)
Fixpoint join (sep : str) (l : list str) : str :=
  match l with
  | [] => []
  | [x] => x
  | x :: rest => x ++ sep ++ join sep rest
  end.

(** [s.replace(a, b)] for one-character [a] and [b]. *)
Definition replace (a b : char) (s : str) : str :=
  map (fun c => if (c =? a)%N then b else c) s.

Fixpoint dropwhile (p : char -> bool) (s : str) : str :=
  match s with
  | [] => []
  | c :: t => if p c then dropwhile p t else s
  end.

(** ** The Unicode database *)

Class Unicode := {
  (** [c.isspace()], which [split()] and [strip()] use *)
  ch_isspace : char -> bool;
  (** the regex class [\d] on [str] patterns: decimal digits *)
  ch_isdigit : char -> bool;
  str_upper : str -> str;
  str_lower : str -> str;
  str_isupper : str -> bool
}.

Module Ascii7.

Definition is_ascii (c : char) : bool := (c <? 128)%N.

(** Python counts the separators FS, GS, RS and US as whitespace. *)
Definition isspace (c : char) : bool :=
  ((9 <=? c) && (c <=? 13) || (28 <=? c) && (c <=? 32))%N.

Definition isdigit (c : char) : bool := ((48 <=? c) && (c <=? 57))%N.
Definition isupper_ch (c : char) : bool := ((65 <=? c) && (c <=? 90))%N.
Definition islower_ch (c : char) : bool := ((97 <=? c) && (c <=? 122))%N.

Definition upper_ch (c : char) : char :=
  if islower_ch c then (c - 32)%N else c.
Definition lower_ch (c : char) : char :=
  if isupper_ch c then (c + 32)%N else c.

Definition upper (s : str) : str := map upper_ch s.
Definition lower (s : str) : str := map lower_ch s.

(** [s.isupper()]: no lowercase character and at least one uppercase. *)
Definition isupper (s : str) : bool :=
  forallb (fun c => negb (islower_ch c)) s && existsb isupper_ch s.

End Ascii7.

Definition is_ascii_str (s : str) : bool := forallb Ascii7.is_ascii s.

Class UnicodeLaws (U : Unicode) : Prop := {
  isspace_ascii : forall c, Ascii7.is_ascii c = true ->
                            ch_isspace c = Ascii7.isspace c;
  isdigit_ascii : forall c, Ascii7.is_ascii c = true ->
                            ch_isdigit c = Ascii7.isdigit c;
  digit_not_space : forall c, ch_isdigit c = true -> ch_isspace c = false;
  upper_ascii : forall s, is_ascii_str s = true ->
                          str_upper s = Ascii7.upper s;
  lower_ascii : forall s, is_ascii_str s = true ->
                          str_lower s = Ascii7.lower s;
  isupper_ascii : forall s, is_ascii_str s = true ->
                            str_isupper s = Ascii7.isupper s
}.

#[export] Instance ascii_unicode : Unicode := {|
  ch_isspace := Ascii7.isspace;
  ch_isdigit := Ascii7.isdigit;
  str_upper := Ascii7.upper;
  str_lower := Ascii7.lower;
  str_isupper := Ascii7.isupper
|}.

Section Text.

Context {U : Unicode}.

(** [s.strip()] *)
Definition strip (s : str) : str :=
  rev (dropwhile ch_isspace (rev (dropwhile ch_isspace s))).

(** [s.split()]: the loop of CPython's whitespace split, with the token
    being scanned kept in [cur] (most recent character first). *)
Fixpoint split_from (cur : str) (s : str) : list str :=
  match s with
  | [] => match cur with [] => [] | _ => [rev cur] end
  | c :: t =>
      if ch_isspace c then
        match cur with
        | [] => split_from [] t
        | _ => rev cur :: split_from [] t
        end
      else split_from (c :: cur) t
  end.

Definition split (s : str) : list str := split_from [] s.

(** *** [_titlecase] (lines 60-70) *)

Definition _titlecase (s : str) : str :=
  if negb (truthy s) then s
  else
    let parts := split s in
    let out :=
      fold_left
        (fun out p =>
           if (length p <=? 3)%nat && str_isupper p
           then out ++ [p]
           else out ++ [str_upper (firstn 1 p) ++ str_lower (skipn 1 p)])
        parts [] in
    join (py " ") out.

(** *** [_normalize_date] (lines 72-86) *)

(** [re.fullmatch(r"\d{4}-\d{2}-\d{2}", s)] *)
Definition fullmatch_ymd (s : str) : bool :=
  match s with
  | [y1; y2; y3; y4; h1; m1; m2; h2; d1; d2] =>
      ch_isdigit y1 && ch_isdigit y2 && ch_isdigit y3 && ch_isdigit y4
      && (h1 =? 45)%N && ch_isdigit m1 && ch_isdigit m2
      && (h2 =? 45)%N && ch_isdigit d1 && ch_isdigit d2
  | _ => false
  end.

(** [re.fullmatch] of [(\d{2})SEP(\d{2})SEP(\d{4})] and its [groups()]. *)
Definition fullmatch_dmy (sep : char) (s : str) : option (str * str * str) :=
  match s with
  | [d1; d2; s1; m1; m2; s2; y1; y2; y3; y4] =>
      if ch_isdigit d1 && ch_isdigit d2 && (s1 =? sep)%N
         && ch_isdigit m1 && ch_isdigit m2 && (s2 =? sep)%N
         && ch_isdigit y1 && ch_isdigit y2 && ch_isdigit y3 && ch_isdigit y4
      then Some ([d1; d2], [m1; m2], [y1; y2; y3; y4])
      else None
  | _ => None
  end.

Definition _normalize_date (s : str) : str :=
  let s := strip (str_or s []) in
  if negb (truthy s) then []
  else if fullmatch_ymd s then s
  else
    match fullmatch_dmy 47%N s with
    | Some (dd, mm, yyyy) => yyyy ++ py "-" ++ mm ++ py "-" ++ dd
    | None =>
        match fullmatch_dmy 45%N s with
        | Some (dd, mm, yyyy) => yyyy ++ py "-" ++ mm ++ py "-" ++ dd
        | None => s
        end
    end.

End Text.


(** ** Title-casing as the specification words it *)

Section TitlecaseWords.

Context {U : Unicode}.

Definition all_space (s : str) : Prop := forallb ch_isspace s = true.
Definition no_space (s : str) : Prop :=
  forallb (fun c => negb (ch_isspace c)) s = true.

(** Nothing, or something that begins with whitespace. *)
Definition starts_blank (s : str) : Prop :=
  match s with
  | [] => True
  | c :: _ => ch_isspace c = true
  end.

(** [Tokens s toks]: [toks] are the whitespace-separated tokens of [s],
    the maximal runs of characters that are not whitespace, in order. *)
Inductive Tokens : str -> list str -> Prop :=
| Tokens_nil : forall ws, all_space ws -> Tokens ws []
| Tokens_cons : forall ws t rest toks,
    all_space ws -> t <> [] -> no_space t -> starts_blank rest ->
    Tokens rest toks -> Tokens (ws ++ t ++ rest) (t :: toks).

(** A token of at most three characters that is entirely uppercase is
    kept; any other gets its first character uppercased and the remainder
    lowercased. *)
Definition render_token (p : str) : str :=
  if (length p <=? 3)%nat && str_isupper p then p
  else str_upper (firstn 1 p) ++ str_lower (skipn 1 p).

Definition titlecase_spec (toks : list str) : str :=
  join [32%N] (map render_token toks).

(** [s] neither begins nor ends with whitespace. *)
Definition trimmed (s : str) : Prop :=
  match s with
  | [] => True
  | c :: _ => ch_isspace c = false
  end
  /\ match rev s with
     | [] => True
     | c :: _ => ch_isspace c = false
     end.

End TitlecaseWords.

(** ** Floats *)

(** The builtin [float] type as the program uses it.  [float_of_str] is the
    constructor [float(s)] ([None] stands for [ValueError]); [float_repr] is
    [repr], which an f-string applies; [float_json] is the [floatstr] of the
    JSON encoder; the remaining operations are the arithmetic of the
    renderer.  [float_val] is the rational a finite float denotes and
    [float_rnd] the rounding of a rational to the format. *)
Class PyFloat := {
  float : Type;
  float_of_str : str -> option float;
  float_zero : float;
  float_one : float;
  float_repr : float -> str;
  float_json : float -> str;
  float_bool : float -> bool;
  float_of_int : Z -> float;
  float_div : float -> float -> float;
  float_mul : float -> float -> float;
  float_lt : float -> float -> bool;
  float_trunc : float -> Z;
  float_finite : float -> bool;
  float_val : float -> Q;
  float_rnd : Q -> Q
}.

(** [int(q)] on a rational: truncation towards zero. *)
Definition Qtrunc (q : Q) : Z := Z.quot (Qnum q) (Zpos (Qden q)).

(** [2^53]: the integers of absolute value up to it are floats. *)
Definition two53 : Z := 9007199254740992.

Definition int_range (n : Z) : Prop := (- two53 <= n <= two53)%Z.

(** The largest float below 1. *)
Definition pred_one : Q := (1 - (1 # 9007199254740992))%Q.

(** What IEEE 754 arithmetic guarantees of the operations above, for
    operands in the range where nothing overflows: an operation returns the
    exact result rounded, rounding is monotone and leaves the numbers of the
    format alone. *)
Class CorrectlyRounded (F : PyFloat) : Prop := {
  rnd_mono : forall x y : Q, (x <= y)%Q -> (float_rnd x <= float_rnd y)%Q;
  rnd_int : forall n, int_range n ->
                      (float_rnd (inject_Z n) == inject_Z n)%Q;
  rnd_pred_one : (float_rnd pred_one == pred_one)%Q;
  one_finite : float_finite float_one = true;
  one_val : (float_val float_one == 1)%Q;
  div_finite : forall a b, int_range a -> int_range b -> b <> 0%Z ->
      float_finite (float_div (float_of_int a) (float_of_int b)) = true;
  div_val : forall a b, int_range a -> int_range b -> b <> 0%Z ->
      (float_val (float_div (float_of_int a) (float_of_int b))
       == float_rnd (inject_Z a / inject_Z b))%Q;
  mul_finite : forall n x, int_range n -> float_finite x = true ->
      (Qabs (float_val x) <= inject_Z two53)%Q ->
      float_finite (float_mul (float_of_int n) x) = true;
  mul_val : forall n x, int_range n -> float_finite x = true ->
      (Qabs (float_val x) <= inject_Z two53)%Q ->
      (float_val (float_mul (float_of_int n) x)
       == float_rnd (inject_Z n * float_val x))%Q;
  lt_val : forall x y, float_finite x = true -> float_finite y = true ->
      (float_lt x y = true <-> (float_val x < float_val y)%Q);
  trunc_val : forall x, float_finite x = true ->
      float_trunc x = Qtrunc (float_val x)
}.

(** Python exceptions that can leave the modelled functions. *)
Inductive exn : Type :=
| DataOverflowError    (* qrcode: the data fits no symbol version *)
| ZeroDivisionError
| ValueError
| ImportError.

(** An expression that may raise. *)
Definition res (A : Type) : Type := (exn + A)%type.

(** The expression returned a value. *)
Definition returned {A} (m : res A) : bool :=
  match m with
  | inl _ => false
  | inr _ => true
  end.

Definition ret {A} (a : A) : res A := inr a.
Definition raise {A} (e : exn) : res A := inl e.
Definition bind {A B} (m : res A) (k : A -> res B) : res B :=
  match m with
  | inl e => inl e
  | inr a => k a
  end.

Declare Scope res_scope.
Delimit Scope res_scope with res.
Notation "x <- m ;; k" := (bind m (fun x => k))
  (at level 61, m at next level, right associativity) : res_scope.
Notation "' p <- m ;; k" := (bind m (fun v => let p := v in k))
  (at level 61, p pattern, m at next level, right associativity) : res_scope.

(** ** JSON *)

Module Json.

Definition hexdigit (n : N) : char :=
  if (n <? 10)%N then (48 + n)%N else (87 + n)%N.

(** [ESCAPE_DCT] of [json.encoder], applied to the characters the pattern
    [ESCAPE] matches: the control characters, the quote and the
    backslash.  Every other character stands for itself. *)
Definition escape_char (c : char) : str :=
  if (c =? 34)%N then [92; 34]%N
  else if (c =? 92)%N then [92; 92]%N
  else if (c =? 8)%N then [92; 98]%N
  else if (c =? 12)%N then [92; 102]%N
  else if (c =? 10)%N then [92; 110]%N
  else if (c =? 13)%N then [92; 114]%N
  else if (c =? 9)%N then [92; 116]%N
  else if (c <? 32)%N then
    [92; 117; 48; 48; hexdigit (c / 16); hexdigit (c mod 16)]%N
  else [c].

(** [encode_basestring], the encoder of strings under
    [ensure_ascii=False]. *)
Definition encode_basestring (s : str) : str :=
  [34%N] ++ flat_map escape_char s ++ [34%N].

Section Values.

Context {F : PyFloat}.

Inductive value : Type :=
| JStr (s : str)
| JFloat (x : float).

Definition encode_value (v : value) : str :=
  match v with
  | JStr s => encode_basestring s
  | JFloat x => float_json x
  end.

Definition encode_item (kv : str * value) : str :=
  encode_basestring (fst kv) ++ py ": " ++ encode_value (snd kv).

(** [json.dumps(d, ensure_ascii=False)] for a dict [d], given as its
    items in insertion order. *)
Definition dumps (d : list (str * value)) : str :=
  py "{" ++ join (py ", ") (map encode_item d) ++ py "}".

End Values.

(** *** Reading a string literal back

    The scanner of [json.decoder] for the text after the opening quote, in
    its default strict mode: the characters up to the closing quote, with
    escapes resolved and surrogate pairs joined, and the text that follows.
    [None] is a [JSONDecodeError]. *)

Definition hexval (c : char) : option N :=
  if ((48 <=? c) && (c <=? 57))%N then Some (c - 48)%N
  else if ((97 <=? c) && (c <=? 102))%N then Some (c - 87)%N
  else if ((65 <=? c) && (c <=? 70))%N then Some (c - 55)%N
  else None.

Definition hex4 (a b c d : char) : option N :=
  match hexval a, hexval b, hexval c, hexval d with
  | Some x, Some y, Some z, Some w => Some (4096 * x + 256 * y + 16 * z + w)%N
  | _, _, _, _ => None
  end.

Definition high_surrogate (n : N) : bool :=
  ((55296 <=? n) && (n <=? 56319))%N.
Definition low_surrogate (n : N) : bool :=
  ((56320 <=? n) && (n <=? 57343))%N.

(** The code point a surrogate pair stands for. *)
Definition combine (hi lo : N) : N :=
  (65536 + N.lor (N.shiftl (hi - 55296) 10) (lo - 56320))%N.

Definition push (c : char) (r : option (str * str)) : option (str * str) :=
  match r with
  | Some (s, rest) => Some (c :: s, rest)
  | None => None
  end.

Fixpoint scan_body (l : str) : option (str * str) :=
  match l with
  | [] => None
  | c :: t =>
      if (c =? 34)%N then Some ([], t)
      else if (c =? 92)%N then
        match t with
        | e :: t1 =>
            if (e =? 34)%N then push 34%N (scan_body t1)
            else if (e =? 92)%N then push 92%N (scan_body t1)
            else if (e =? 47)%N then push 47%N (scan_body t1)
            else if (e =? 98)%N then push 8%N (scan_body t1)
            else if (e =? 102)%N then push 12%N (scan_body t1)
            else if (e =? 110)%N then push 10%N (scan_body t1)
            else if (e =? 114)%N then push 13%N (scan_body t1)
            else if (e =? 116)%N then push 9%N (scan_body t1)
            else if (e =? 117)%N then
              match t1 with
              | a :: b :: c' :: d :: t2 =>
                  match hex4 a b c' d with
                  | Some uni =>
                      if high_surrogate uni then
                        match t2 with
                        | 92%N :: 117%N :: t3 =>
                            match t3 with
                            | a2 :: b2 :: c2 :: d2 :: t4 =>
                                match hex4 a2 b2 c2 d2 with
                                | Some uni2 =>
                                    if low_surrogate uni2
                                    then push (combine uni uni2)
                                           (scan_body t4)
                                    else push uni (scan_body t2)
                                | None => None
                                end
                            | _ => None
                            end
                        | _ => push uni (scan_body t2)
                        end
                      else push uni (scan_body t2)
                  | None => None
                  end
              | _ => None
              end
            else None
        | [] => None
        end
      else if (c <? 32)%N then None
      else push c (scan_body t)
  end.

Definition scanstring (l : str) : option (str * str) :=
  match l with
  | c :: t => if (c =? 34)%N then scan_body t else None
  | [] => None
  end.

End Json.

(** ** Payload builder *)

Definition SCHEMA : str := py "arrakis.lab.qrlabel.v2".

Section Payload.

Context {U : Unicode} {F : PyFloat}.

(** *** STRUCTURED format (lines 88-111) *)

Definition make_payload_biochar
    (sample_name producer biomass reactor_type : str)
    (pyro_temp_c residence_time_min : float)
    (production_date notes : option str) : str :=
  Json.dumps [
    (py "kind", Json.JStr (py "biochar"));
    (py "schema", Json.JStr SCHEMA);
    (py "sample_name", Json.JStr sample_name);
    (py "producer", Json.JStr producer);
    (py "biomass", Json.JStr biomass);
    (py "reactor_type", Json.JStr reactor_type);
    (py "pyro_temp_C", Json.JFloat pyro_temp_c);
    (py "residence_time_min", Json.JFloat residence_time_min);
    (py "production_date",
      Json.JStr (_normalize_date (opt_or production_date [])));
    (py "notes", Json.JStr (opt_or notes []))
  ].

Definition make_payload_biomass
    (biomass_name origin : str) (collection_date notes : option str) : str :=
  Json.dumps [
    (py "kind", Json.JStr (py "biomass"));
    (py "schema", Json.JStr SCHEMA);
    (py "biomass_name", Json.JStr biomass_name);
    (py "origin", Json.JStr origin);
    (py "collection_date",
      Json.JStr (_normalize_date (opt_or collection_date [])));
    (py "notes", Json.JStr (opt_or notes []))
  ].

(** *** READABLE format (lines 115-142) *)

(** Truth value of an optional string ([if notes:]). *)
Definition opt_truthy (x : option str) : bool :=
  match x with
  | None => false
  | Some v => truthy v
  end.

(** The value an f-string inserts for [notes]; the branch is only taken
    for a non-empty string. *)
Definition opt_text (x : option str) : str :=
  match x with
  | None => py "None"
  | Some v => v
  end.

(** The list [lines] at the [return] of [make_text_biochar]. *)
Definition lines_biochar
    (sample_name producer biomass reactor_type : str)
    (pyro_temp_c residence_time_min : float)
    (production_date notes : option str) : list str :=
  let production_date := _normalize_date (opt_or production_date []) in
  let lines := [
    py "Nome da amostra: " ++ sample_name;
    py "Biomassa: " ++ biomass;
    py "Quem produziu: " ++ producer;
    py "Tipo de reator: " ++ reactor_type;
    py "Temperatura de pirólise (°C): " ++ float_repr pyro_temp_c;
    py "Tempo de residência (min): " ++ float_repr residence_time_min
  ] in
  let lines :=
    if truthy production_date
    then lines ++ [py "Data de produção: " ++ production_date]
    else lines in
  let lines :=
    if opt_truthy notes
    then lines ++ [py "Notas: " ++ opt_text notes]
    else lines in
  lines.

Definition make_text_biochar
    (sample_name producer biomass reactor_type : str)
    (pyro_temp_c residence_time_min : float)
    (production_date notes : option str) : str :=
  join [10%N]
    (lines_biochar sample_name producer biomass reactor_type
       pyro_temp_c residence_time_min production_date notes).

(** The list [lines] at the [return] of [make_text_biomass]. *)
Definition lines_biomass
    (biomass_name origin : str) (collection_date notes : option str)
    : list str :=
  let collection_date := _normalize_date (opt_or collection_date []) in
  let lines := [
    py "Nome da biomassa: " ++ biomass_name;
    py "Origem: " ++ origin
  ] in
  let lines :=
    if truthy collection_date
    then lines ++ [py "Data de coleta: " ++ collection_date]
    else lines in
  let lines :=
    if opt_truthy notes
    then lines ++ [py "Notas: " ++ opt_text notes]
    else lines in
  lines.

Definition make_text_biomass
    (biomass_name origin : str) (collection_date notes : option str) : str :=
  join [10%N] (lines_biomass biomass_name origin collection_date notes).

End Payload.

(** ** Label renderer *)

(** Resampling filter handed to [Image.resize]. *)
Inductive resample : Type :=
| NEAREST
| DEFAULT_FILTER.

(** The libraries under the renderer: the QR encoder ([qrcode]), Pillow's
    images and the metrics of the title font. *)
Class Imaging := {
  QrImage : Type;
  qr_width : QrImage -> Z;
  qr_height : QrImage -> Z;
  (** [QRCode(version=None, error_correction=ERROR_CORRECT_M, box_size,
      border)], [add_data], [make(fit=True)], [make_image] and [convert]:
      the bitmap of the smallest symbol that holds the data, or
      [DataOverflowError] when no version does. *)
  qr_make_image : str -> Z -> Z -> res QrImage;
  (** [from PIL.Image import Resampling] succeeds *)
  has_resampling : bool;
  img_resize : QrImage -> Z -> Z -> resample -> res QrImage;
  (** [Image.new("RGB", (w, h), "white")] *)
  image_new : Z -> Z -> res unit;
  (** [draw.textbbox((0, 0), text, font=_load_font(size=44))] *)
  textbbox : str -> Z * Z * Z * Z;
  (** [textwrap.fill(text, width=n).splitlines()] *)
  textwrap_lines : str -> Z -> list str
}.

Section Renderer.

Context {F : PyFloat} {I : Imaging}.
Local Open Scope Z_scope.
Local Open Scope res_scope.

(** The raster [render_label_pil] returns, as what was drawn on the white
    canvas: the title lines with the position of each, and the QR image
    with the position it was pasted at. *)
Record Label : Type := {
  label_width : Z;
  label_height : Z;
  label_text : list (Z * Z * str);
  label_qr : QrImage;
  label_qr_size : Z * Z;
  label_qr_pos : Z * Z
}.

(** [a / b] on integers. *)
Definition truediv (a b : Z) : res float :=
  if b =? 0 then raise ZeroDivisionError
  else ret (float_div (float_of_int a) (float_of_int b)).

(** [min(x, y)] returns [y] only when [y < x]. *)
Definition float_min (x y : float) : float :=
  if float_lt y x then y else x.

Definition bbox_x1 (b : Z * Z * Z * Z) : Z :=
  let '(_, _, x1, _) := b in x1.
Definition bbox_w (b : Z * Z * Z * Z) : Z :=
  let '(x0, _, x1, _) := b in x1 - x0.
Definition bbox_h (b : Z * Z * Z * Z) : Z :=
  let '(_, y0, _, y1) := b in y1 - y0.

Definition sum (l : list Z) : Z := fold_left Z.add l 0.

(** *** [_wrap_title_lines] (lines 144-161) *)
Definition _wrap_title_lines (title_text : str)
    (label_width_px padding line_gap : Z) : res (list str * Z) :=
  _ <- image_new label_width_px 100 ;;
  let text_w := bbox_x1 (textbbox title_text) in
  title_lines <-
    (if label_width_px - 2 * padding <? text_w then
       q <- truediv (Z.of_nat (length title_text)
                     * (label_width_px - 2 * padding)) text_w ;;
       let est_chars := Z.max 18 (float_trunc q) in
       ret (textwrap_lines title_text est_chars)
     else ret [title_text]) ;;
  _ <- image_new label_width_px 200 ;;
  let heights := map (fun line => bbox_h (textbbox line)) title_lines in
  let title_h := sum heights + line_gap * (Z.of_nat (length heights) - 1) in
  ret (title_lines, title_h).

(** *** Geometry of the QR image (lines 184-186, 208) *)

Definition qr_scale (label_width_px padding width : Z) : res float :=
  q <- truediv (label_width_px - 2 * padding) width ;;
  ret (float_min q float_one).

(** [int(size * qr_scale)] *)
Definition scaled (size : Z) (scale : float) : Z :=
  float_trunc (float_mul (float_of_int size) scale).

Definition qr_x (label_width_px new_w : Z) : Z :=
  (label_width_px - new_w) / 2.

(** The title loop (lines 198-205): the lines drawn so far, most recent
    first, and the running [y]. *)
Fixpoint draw_title (label_width_px line_gap : Z) (n : nat)
    (lines : list (nat * str)) (y : Z) (drawn : list (Z * Z * str))
    : list (Z * Z * str) * Z :=
  match lines with
  | [] => (rev drawn, y)
  | (i, line) :: rest =>
      let bbox := textbbox line in
      let lw := bbox_w bbox in
      let lh := bbox_h bbox in
      let x := (label_width_px - lw) / 2 in
      let y' := y + lh + (if Z.of_nat i <? Z.of_nat n - 1
                          then line_gap else 0) in
      draw_title label_width_px line_gap n rest y' ((x, y, line) :: drawn)
  end.

(** [enumerate(l)] *)
Definition enumerate {A} (l : list A) : list (nat * A) :=
  combine (seq 0 (length l)) l.

(** *** [render_label_pil] (lines 163-212) *)
Definition render_label_pil (title_left title_right qr_payload : str)
    (label_width_px qr_box_size border : Z) : res Label :=
  qr_img <- qr_make_image qr_payload qr_box_size border ;;
  let padding := 30 in
  let line_gap := 8 in
  let title_text :=
    if truthy title_right
    then title_left ++ py " | " ++ title_right
    else title_left in
  '(title_lines, title_h) <-
    _wrap_title_lines title_text label_width_px padding line_gap ;;
  qr_scale <- qr_scale label_width_px padding (qr_width qr_img) ;;
  let new_w := scaled (qr_width qr_img) qr_scale in
  let new_h := scaled (qr_height qr_img) qr_scale in
  qr_img_resized <-
    match (if has_resampling
           then img_resize qr_img new_w new_h NEAREST
           else raise ImportError) with
    | inr r => ret r
    | inl _ => img_resize qr_img new_w new_h DEFAULT_FILTER
    end ;;
  let total_h := padding + title_h + padding + new_h + padding in
  _ <- image_new label_width_px total_h ;;
  let '(drawn, y) :=
    draw_title label_width_px line_gap (length title_lines)
      (enumerate title_lines) padding [] in
  let qr_x := qr_x label_width_px new_w in
  let qr_y := y + padding in
  ret {| label_width := label_width_px;
         label_height := total_h;
         label_text := drawn;
         label_qr := qr_img_resized;
         label_qr_size := (new_w, new_h);
         label_qr_pos := (qr_x, qr_y) |}.

End Renderer.

(** ** The form and its handler *)

Inductive color : Type := GREEN | AMBER | RED.

Section App.

Context {U : Unicode} {F : PyFloat} {I : Imaging}.
Local Open Scope Z_scope.

(** The values of the form's controls. *)
Record Form : Type := {
  tab_selected_index : Z;
  dd_format : option str;
  tf_sample_name : option str;
  tf_biomass : option str;
  tf_producer : option str;
  tf_reactor : option str;
  tf_prod_date : option str;
  tf_pyroC : option str;
  tf_res_min : option str;
  tf_notes_bc : option str;
  tf_bm_name : option str;
  tf_origin : option str;
  tf_coll_date : option str;
  tf_notes_bm : option str;
  zoom_slider : option float
}.

(** What the handler produces.  A PNG buffer is lossless, so it is
    represented by the image it encodes, and so is its base64 text. *)
Record Output : Type := {
  current_png_bytes : option Label;
  current_png_name : str;
  img_preview_src : option Label;
  img_preview_size : Z * Z;
  qr_content_out : option str;
  snack_bar : option (str * color)
}.

Record Page : Type := {
  form : Form;
  output : Output
}.

(** [_titlecase_all_biochar] (lines 384-388) *)
Definition _titlecase_all_biochar (f : Form) : Form :=
  {| tab_selected_index := tab_selected_index f;
     dd_format := dd_format f;
     tf_sample_name := Some (_titlecase (opt_or (tf_sample_name f) []));
     tf_biomass := Some (_titlecase (opt_or (tf_biomass f) []));
     tf_producer := Some (_titlecase (opt_or (tf_producer f) []));
     tf_reactor := Some (_titlecase (opt_or (tf_reactor f) []));
     tf_prod_date := tf_prod_date f;
     tf_pyroC := tf_pyroC f;
     tf_res_min := tf_res_min f;
     tf_notes_bc := tf_notes_bc f;
     tf_bm_name := tf_bm_name f;
     tf_origin := tf_origin f;
     tf_coll_date := tf_coll_date f;
     tf_notes_bm := tf_notes_bm f;
     zoom_slider := zoom_slider f |}.

(** [_titlecase_all_biomass] (lines 390-392) *)
Definition _titlecase_all_biomass (f : Form) : Form :=
  {| tab_selected_index := tab_selected_index f;
     dd_format := dd_format f;
     tf_sample_name := tf_sample_name f;
     tf_biomass := tf_biomass f;
     tf_producer := tf_producer f;
     tf_reactor := tf_reactor f;
     tf_prod_date := tf_prod_date f;
     tf_pyroC := tf_pyroC f;
     tf_res_min := tf_res_min f;
     tf_notes_bc := tf_notes_bc f;
     tf_bm_name := Some (_titlecase (opt_or (tf_bm_name f) []));
     tf_origin := Some (_titlecase (opt_or (tf_origin f) []));
     tf_coll_date := tf_coll_date f;
     tf_notes_bm := tf_notes_bm f;
     zoom_slider := zoom_slider f |}.

(** [snack(msg)] (lines 394-398), with the default red. *)
Definition snack (msg : str) (o : Output) : Output :=
  {| current_png_bytes := current_png_bytes o;
     current_png_name := current_png_name o;
     img_preview_src := img_preview_src o;
     img_preview_size := img_preview_size o;
     qr_content_out := qr_content_out o;
     snack_bar := Some (msg, RED) |}.

Definition set_png_name (name : str) (o : Output) : Output :=
  {| current_png_bytes := current_png_bytes o;
     current_png_name := name;
     img_preview_src := img_preview_src o;
     img_preview_size := img_preview_size o;
     qr_content_out := qr_content_out o;
     snack_bar := snack_bar o |}.

(** [zoom_slider.value or 1.0] *)
Definition zoom_factor (f : Form) : float :=
  match zoom_slider f with
  | Some z => if float_bool z then z else float_one
  | None => float_one
  end.

(** The tail of [generate_preview] (lines 463-466) with [set_preview]
    (lines 400-404) inlined. *)
Definition show_label (f : Form) (img : Label) (payload : str)
    (o : Output) : Output :=
  let factor := zoom_factor f in
  let side := float_trunc (float_mul (float_of_int 420) factor) in
  {| current_png_bytes := Some img;
     current_png_name := current_png_name o;
     img_preview_src := Some img;
     img_preview_size := (side, side);
     qr_content_out := Some payload;
     snack_bar := snack_bar o |}.

(** The numeric fields (lines 423-430):
    [try: float((v or "0").replace(",", ".")) except ValueError: 0.0] *)
Definition parse_number (v : option str) : float :=
  match float_of_str (replace 44%N 46%N (opt_or v (py "0"))) with
  | Some x => x
  | None => float_zero
  end.

(** What the first part of the handler hands to the renderer. *)
Record Job : Type := {
  job_payload : str;
  job_title_left : str;
  job_title_right : str
}.

Definition png_name (title_left : str) : str :=
  replace 32%N 95%N title_left ++ py "_label.png".

(** Lines 409-460 of [generate_preview]: the page after them, and the job
    for the renderer, or [None] when the handler returned after a
    notice. *)
Definition build_payload (p : Page) : Page * option Job :=
  let use_text :=
    str_eqb (opt_or (dd_format (form p)) (py "Informações"))
            (py "Informações") in
  if tab_selected_index (form p) =? 0 then
    let f := _titlecase_all_biochar (form p) in
    let sn := strip (opt_or (tf_sample_name f) []) in
    let bm := strip (opt_or (tf_biomass f) []) in
    if negb (truthy sn) then
      ({| form := f;
          output := snack (py "Nome da amostra é obrigatório para Biochar.")
                          (output p) |}, None)
    else
      let producer := strip (opt_or (tf_producer f) []) in
      let reactor_type := strip (opt_or (tf_reactor f) []) in
      let prod_date := _normalize_date (opt_or (tf_prod_date f) []) in
      let pyroC := parse_number (tf_pyroC f) in
      let res_min := parse_number (tf_res_min f) in
      let notes := opt_or (tf_notes_bc f) [] in
      let payload :=
        if use_text
        then make_text_biochar sn producer bm reactor_type pyroC res_min
               (Some prod_date) (Some notes)
        else make_payload_biochar sn producer bm reactor_type pyroC res_min
               (Some prod_date) (Some notes) in
      let title_left := _titlecase sn in
      let title_right := _titlecase bm in
      ({| form := f;
          output := set_png_name (png_name title_left) (output p) |},
       Some {| job_payload := payload;
               job_title_left := title_left;
               job_title_right := title_right |})
  else
    let f := _titlecase_all_biomass (form p) in
    let bn := strip (opt_or (tf_bm_name f) []) in
    let og := strip (opt_or (tf_origin f) []) in
    if negb (truthy bn) || negb (truthy og) then
      ({| form := f;
          output :=
            snack (py "Nome da biomassa e Origem são obrigatórios para Biomassa.")
                  (output p) |}, None)
    else
      let coll_date := _normalize_date (opt_or (tf_coll_date f) []) in
      let notes := opt_or (tf_notes_bm f) [] in
      let payload :=
        if use_text
        then make_text_biomass bn og (Some coll_date) (Some notes)
        else make_payload_biomass bn og (Some coll_date) (Some notes) in
      let title_left := _titlecase bn in
      let title_right := _titlecase og in
      ({| form := f;
          output := set_png_name (png_name title_left) (output p) |},
       Some {| job_payload := payload;
               job_title_left := title_left;
               job_title_right := title_right |}).

(** How a call of the handler ends. *)
Inductive outcome : Type :=
| Shown                 (* ran to the end: the label is on the page *)
| Returned              (* early [return] after a notice *)
| Raised (e : exn).     (* an exception left the handler *)

(** *** [generate_preview] (lines 406-467) *)
Definition generate_preview (p : Page) : Page * outcome :=
  match build_payload p with
  | (p1, None) => (p1, Returned)
  | (p1, Some job) =>
      match render_label_pil (job_title_left job) (job_title_right job)
              (job_payload job) 800 10 4 with
      | inl e => (p1, Raised e)
      | inr pil_img =>
          ({| form := form p1;
              output := show_label (form p1) pil_img (job_payload job)
                          (output p1) |}, Shown)
      end
  end.

End App.

(** ** Instances to run the model on *)

(** Arithmetic without rounding: a float is the rational it denotes.  The
    parser reads an optional sign and decimal digits with an optional
    point. *)
Module Exact.

Fixpoint digits_val (acc : Z) (s : str) : option Z :=
  match s with
  | [] => Some acc
  | c :: t =>
      if Ascii7.isdigit c
      then digits_val (10 * acc + Z.of_N (c - 48)) t
      else None
  end.

Fixpoint takewhile (p : char -> bool) (s : str) : str :=
  match s with
  | [] => []
  | c :: t => if p c then c :: takewhile p t else []
  end.

Definition not_point (c : char) : bool := negb (c =? 46)%N.

Definition parse_unsigned (s : str) : option Q :=
  let ip := takewhile not_point s in
  let fp := tl (dropwhile not_point s) in
  match ip ++ fp with
  | [] => None
  | ds =>
      match digits_val 0 ds with
      | Some n => Some (Qmake n (Z.to_pos (10 ^ Z.of_nat (length fp))))
      | None => None
      end
  end.

Definition parse (s : str) : option Q :=
  match s with
  | 45%N :: t => option_map Qopp (parse_unsigned t)
  | 43%N :: t => parse_unsigned t
  | _ => parse_unsigned s
  end.

Definition show_Z (z : Z) : str :=
  py (NilEmpty.string_of_int (Z.to_int z)).

Definition show (q : Q) : str :=
  show_Z (Qnum q) ++ py "/" ++ show_Z (Zpos (Qden q)).

Definition ltb (x y : Q) : bool := negb (Qle_bool y x).

End Exact.

#[export] Instance exact_float : PyFloat := {|
  float := Q;
  float_of_str := Exact.parse;
  float_zero := 0%Q;
  float_one := 1%Q;
  float_repr := Exact.show;
  float_json := Exact.show;
  float_bool := fun q => negb (Qeq_bool q 0);
  float_of_int := inject_Z;
  float_div := Qdiv;
  float_mul := Qmult;
  float_lt := Exact.ltb;
  float_trunc := Qtrunc;
  float_finite := fun _ => true;
  float_val := fun q => q;
  float_rnd := fun q => q
|}.

(** Round to nearest, ties to even, at 53 bits of precision: the rounding
    of IEEE 754 binary64 on the range of its normal numbers. *)
Module Nearest.

Definition pow2 (k : Z) : Q := (2 ^ k)%Q.

(** [ilog2 q] is the exponent [e] with [2^e <= q < 2^(e+1)], for [q > 0]. *)
Definition ilog2 (q : Q) : Z :=
  let e := (Z.log2 (Qnum q) - Z.log2 (Zpos (Qden q)))%Z in
  if Qle_bool (pow2 e) q then e else (e - 1)%Z.

(** The integer nearest to [x], the even one of two at the same distance. *)
Definition rne (x : Q) : Z :=
  let f := Qfloor x in
  match (x - inject_Z f ?= 1 # 2)%Q with
  | Lt => f
  | Gt => (f + 1)%Z
  | Eq => if Z.even f then f else (f + 1)%Z
  end.

(** A positive [q] rounded to 53 significant bits. *)
Definition round_pos (q : Q) : Q :=
  let e := ilog2 q in
  (inject_Z (rne (q * pow2 (52 - e))) * pow2 (e - 52))%Q.

Definition round (q : Q) : Q :=
  match (q ?= 0)%Q with
  | Eq => 0%Q
  | Gt => round_pos q
  | Lt => (- round_pos (- q))%Q
  end.

End Nearest.

#[export] Instance binary64_model : PyFloat | 10 := {|
  float := Q;
  float_of_str := fun s => option_map Nearest.round (Exact.parse s);
  float_zero := 0%Q;
  float_one := 1%Q;
  float_repr := Exact.show;
  float_json := Exact.show;
  float_bool := fun q => negb (Qeq_bool q 0);
  float_of_int := fun n => Nearest.round (inject_Z n);
  float_div := fun x y => Nearest.round (x / y);
  float_mul := fun x y => Nearest.round (x * y);
  float_lt := Exact.ltb;
  float_trunc := Qtrunc;
  float_finite := fun _ => true;
  float_val := fun q => q;
  float_rnd := Nearest.round
|}.
(** A stand-in for the libraries under the renderer: an encoder that stores
    the UTF-8 bytes of the payload in byte mode at error-correction level M,
    images that are their size, and a fixed-pitch font. *)
Module Reference.

Local Open Scope Z_scope.

(** Byte-mode capacity of versions 1 to 40 at level M. *)
Definition capacity_M : list Z :=
  [14; 26; 42; 62; 84; 106; 122; 152; 180; 213;
   251; 287; 331; 362; 412; 450; 504; 560; 624; 666;
   711; 779; 857; 911; 997; 1059; 1125; 1190; 1264; 1370;
   1452; 1538; 1628; 1722; 1809; 1911; 1989; 2099; 2213; 2331].

Fixpoint best_fit (n : Z) (version : Z) (caps : list Z) : option Z :=
  match caps with
  | [] => None
  | c :: rest => if n <=? c then Some version
                 else best_fit n (version + 1) rest
  end.

Record image : Type := { width : Z; height : Z }.

Definition make_image (data : str) (box_size border : Z) : res image :=
  match best_fit (Z.of_nat (length (Utf8.encode data))) 1 capacity_M with
  | None => raise DataOverflowError
  | Some v =>
      let side := (4 * v + 17 + 2 * border) * box_size in
      ret {| width := side; height := side |}
  end.

Definition resize (im : image) (w h : Z) (r : resample) : res image :=
  if (w <? 1) || (h <? 1) then raise ValueError
  else ret {| width := w; height := h |}.

Definition new (w h : Z) : res unit :=
  if (w <? 0) || (h <? 0) then raise ValueError else ret tt.

Definition bbox (s : str) : Z * Z * Z * Z :=
  (0, 0, 26 * Z.of_nat (length s), 40).

Fixpoint chunks (fuel : nat) (n : nat) (s : str) : list str :=
  match fuel with
  | O => []
  | S fuel' =>
      match s with
      | [] => []
      | _ => firstn n s :: chunks fuel' n (skipn n s)
      end
  end.

Definition wrap (s : str) (n : Z) : list str :=
  chunks (length s) (Z.to_nat n) s.

End Reference.

#[export] Instance reference_imaging : Imaging := {|
  QrImage := Reference.image;
  qr_width := Reference.width;
  qr_height := Reference.height;
  qr_make_image := Reference.make_image;
  has_resampling := true;
  img_resize := Reference.resize;
  image_new := Reference.new;
  textbbox := Reference.bbox;
  textwrap_lines := Reference.wrap
|}.

(** The steps of the renderer that use floats, on the kernel's binary64
    numbers, to compare the model above with. *)
Module Hardware.

Definition of_int (z : Z) : PrimFloat.float :=
  if (z <? 0)%Z
  then PrimFloat.opp (PrimFloat.of_uint63 (Uint63.of_Z (- z)))
  else PrimFloat.of_uint63 (Uint63.of_Z z).

(** [int(x)] *)
Definition trunc (x : PrimFloat.float) : Z :=
  match FloatOps.Prim2SF x with
  | SpecFloat.S754_finite sign m e =>
      let v := if (0 <=? e)%Z then Z.shiftl (Zpos m) e
               else Z.shiftr (Zpos m) (- e) in
      if sign then (- v)%Z else v
  | _ => 0%Z
  end.

Definition qr_scale (label_width_px padding width : Z) : PrimFloat.float :=
  let q := PrimFloat.div (of_int (label_width_px - 2 * padding))
                         (of_int width) in
  if PrimFloat.ltb PrimFloat.one q then PrimFloat.one else q.

Definition scaled (size : Z) (scale : PrimFloat.float) : Z :=
  trunc (PrimFloat.mul (of_int size) scale).

End Hardware.

(** The resized side for a natural side [w] on a canvas of width [W], in the
    model and on the kernel's floats. *)
Definition model_side (W w : Z) : option Z :=
  match qr_scale (F:=binary64_model) W 30 w with
  | inr s => Some (scaled (F:=binary64_model) w s)
  | inl _ => None
  end.

Definition hardware_side (W w : Z) : option Z :=
  Some (Hardware.scaled w (Hardware.qr_scale W 30 w)).

Definition option_Z_eqb (a b : option Z) : bool :=
  match a, b with
  | Some x, Some y => (x =? y)%Z
  | None, None => true
  | _, _ => false
  end.

(** The natural side of the symbol of version [v] as the handler asks for
    it: box size 10 and a border of 4 modules. *)
Definition natural_side (v : nat) : Z := ((4 * Z.of_nat v + 17 + 2 * 4) * 10)%Z.

(** A page with the biochar tab open and the fields as given. *)
Definition biochar_form {F : PyFloat} (fmt name biomass temp time notes : str)
    : Form :=
  {| tab_selected_index := 0;
     dd_format := Some fmt;
     tf_sample_name := Some name;
     tf_biomass := Some biomass;
     tf_producer := Some (py "ana");
     tf_reactor := Some (py "forno");
     tf_prod_date := Some [];
     tf_pyroC := Some temp;
     tf_res_min := Some time;
     tf_notes_bc := Some notes;
     tf_bm_name := None;
     tf_origin := None;
     tf_coll_date := None;
     tf_notes_bm := None;
     zoom_slider := Some float_one |}.

(** A page with the biomass tab open. *)
Definition biomass_form {F : PyFloat} (fmt name origin date notes : str)
    : Form :=
  {| tab_selected_index := 1;
     dd_format := Some fmt;
     tf_sample_name := None;
     tf_biomass := None;
     tf_producer := None;
     tf_reactor := None;
     tf_prod_date := None;
     tf_pyroC := None;
     tf_res_min := None;
     tf_notes_bc := None;
     tf_bm_name := Some name;
     tf_origin := Some origin;
     tf_coll_date := Some date;
     tf_notes_bm := Some notes;
     zoom_slider := Some float_one |}.

(** The output controls when the application starts (lines 354-378). *)
Definition initial_output {F : PyFloat} {I : Imaging} : Output :=
  {| current_png_bytes := None;
     current_png_name := py "label.png";
     img_preview_src := None;
     img_preview_size := (420, 420)%Z;
     qr_content_out := None;
     snack_bar := None |}.

Definition page_of {F : PyFloat} {I : Imaging} (f : Form) : Page :=
  {| form := f; output := initial_output |}.

(** Pages used to run the handler. *)
Definition blank_name_page : Page :=
  page_of (biochar_form (py "json") (py "  ") (py "pinus") (py "500")
             (py "30") []).

Definition blank_origin_page : Page :=
  page_of (biomass_form (py "json") (py "casca") (py " ") [] []).

Definition bad_number_page : Page :=
  page_of (biochar_form (py "Informações") (py "lote 7") (py "pinus")
             (py "quente") (py "30") []).

Definition eucalyptus_page : Page :=
  page_of (biomass_form (py "json") (py "eucalyptus bark") (py "farm A")
             (py "01/02/2023") []).

Definition overflow_page : Page :=
  page_of (biochar_form (py "json") (py "lote 7") (py "pinus") (py "500")
             (py "30") (repeat 97%N 3000)).

(** ** Further definitions *)

(** A token: not empty, no whitespace in it. *)
Definition token {U : Unicode} (t : str) : Prop := t <> [] /\ no_space t.

(** A character that is not a control character: the payload is handed to
    the QR encoder as one line of such characters. *)
Definition printable (c : char) : Prop := (32 <= c)%N.

(** *** Reading a flat object back

    The object scanner of [json.decoder] for objects whose values are
    strings or bare tokens: whitespace is skipped where JSON allows it, a key
    and a string value are read by [Json.scanstring], and any other value is
    handed on as the text up to the next delimiter (what the decoder gives
    to its number scanner).  Nested values are not read. *)
Module JsonRead.

Inductive member_value : Type :=
| Text (s : str)
| Raw (s : str).

Definition is_ws (c : char) : bool :=
  ((c =? 32) || (c =? 9) || (c =? 10) || (c =? 13))%N.

Definition is_delim (c : char) : bool :=
  (is_ws c || (c =? 44) || (c =? 125))%N.

Definition skip_ws (s : str) : str := dropwhile is_ws s.

Fixpoint take_raw (s : str) : str * str :=
  match s with
  | [] => ([], [])
  | c :: t =>
      if is_delim c then ([], s)
      else let (a, b) := take_raw t in (c :: a, b)
  end.

Definition read_value (s : str) : option (member_value * str) :=
  match s with
  | [] => None
  | c :: _ =>
      if (c =? 34)%N then
        match Json.scanstring s with
        | Some (v, rest) => Some (Text v, rest)
        | None => None
        end
      else
        match take_raw s with
        | ([], _) => None
        | (a, rest) => Some (Raw a, rest)
        end
  end.

(** One [key: value] pair and the text after it. *)
Definition read_member (s : str) : option ((str * member_value) * str) :=
  match Json.scanstring (skip_ws s) with
  | Some (k, r1) =>
      match skip_ws r1 with
      | 58%N :: r2 =>
          match read_value (skip_ws r2) with
          | Some (v, r3) => Some ((k, v), skip_ws r3)
          | None => None
          end
      | _ => None
      end
  | None => None
  end.

(** The pairs up to the closing brace; [fuel] bounds their number. *)
Fixpoint read_members (fuel : nat) (s : str)
    : option (list (str * member_value)) :=
  match fuel with
  | O => None
  | S fuel' =>
      match read_member s with
      | Some (m, c :: rest) =>
          if (c =? 125)%N then
            match skip_ws rest with
            | [] => Some [m]
            | _ => None
            end
          else if (c =? 44)%N then
            match read_members fuel' rest with
            | Some ms => Some (m :: ms)
            | None => None
            end
          else None
      | _ => None
      end
  end.

(** [json.loads(s, object_pairs_hook=list)] for such an object. *)
Definition loads_object (s : str) : option (list (str * member_value)) :=
  match skip_ws s with
  | c :: rest =>
      if (c =? 123)%N then
        match skip_ws rest with
        | 125%N :: r =>
            match skip_ws r with
            | [] => Some []
            | _ => None
            end
        | _ => read_members (length s) rest
        end
      else None
  | [] => None
  end.

(** A bare token: not empty, no delimiter in it, not opening a string. *)
Definition bare (x : str) : Prop :=
  x <> [] /\ forallb (fun c => negb (is_delim c)) x = true
  /\ hd 0%N x <> 34%N.

End JsonRead.

(** *** Lines stacked on the canvas

    Where lines of text lie when each is centred on a canvas of the given
    width and put [gap] pixels under the one before it, the first at [y]. *)
Section Stacked.

Context {I : Imaging}.
Local Open Scope Z_scope.

Fixpoint stacked (width gap y : Z) (lines : list str) : list (Z * Z * str) :=
  match lines with
  | [] => []
  | line :: rest =>
      ((width - bbox_w (textbbox line)) / 2, y, line)
      :: stacked width gap (y + bbox_h (textbbox line) + gap) rest
  end.

End Stacked.

(** ** The other handlers of [main] *)

(** [Path(path).write_bytes(data)] on the files of the machine: the files
    after the write, or the text of the exception it raised (an [OSError],
    or the [TypeError] for data that is [None]). *)
Class FileSystem {F : PyFloat} {I : Imaging} := {
  files : Type;
  write_bytes : str -> option Label -> files -> str + files
}.

Section Handlers.

Context {U : Unicode} {F : PyFloat} {I : Imaging} {S : FileSystem}.
Local Open Scope Z_scope.

(** [snack(msg, ok, warn)] (lines 394-398) with its keyword arguments. *)
Definition snack_color (ok warn : bool) : color :=
  if ok then GREEN else if warn then AMBER else RED.

Definition snack_as (msg : str) (ok warn : bool) (o : Output) : Output :=
  {| current_png_bytes := current_png_bytes o;
     current_png_name := current_png_name o;
     img_preview_src := img_preview_src o;
     img_preview_size := img_preview_size o;
     qr_content_out := qr_content_out o;
     snack_bar := Some (msg, snack_color ok warn) |}.

(** *** [on_zoom_change] (lines 496-502)

    [img_preview.src_base64] is the transparent placeholder of line 357 or
    the PNG of a label, a text that is not empty in both cases, so the
    early [return] is never taken. *)
Definition on_zoom_change (p : Page) : Page :=
  let factor := zoom_factor (form p) in
  let side := float_trunc (float_mul (float_of_int 420) factor) in
  {| form := form p;
     output :=
       {| current_png_bytes := current_png_bytes (output p);
          current_png_name := current_png_name (output p);
          img_preview_src := img_preview_src (output p);
          img_preview_size := (side, side);
          qr_content_out := qr_content_out (output p);
          snack_bar := snack_bar (output p) |} |}.

(** The page with what lies around it: the clipboard, the save dialog
    ([None] while it has not been opened, else the file name it offers),
    whether [_save_result] has been installed as the dialog's [on_result],
    and the files. *)
Record Desk : Type := {
  desk_page : Page;
  clipboard : option str;
  save_dialog : option str;
  on_result_set : bool;
  disk : files
}.

(** How a call of one of these handlers ends. *)
Inductive ending : Type :=
| Completed             (* ran to its last statement *)
| Stopped               (* early [return] *)
| Failed (e : exn).     (* an exception left the handler *)

Definition with_page (d : Desk) (p : Page) : Desk :=
  {| desk_page := p;
     clipboard := clipboard d;
     save_dialog := save_dialog d;
     on_result_set := on_result_set d;
     disk := disk d |}.

(** Lines 485-486: [file_save.on_result = _save_result] and
    [file_save.save_file(file_name=current_png_name, ...)]. *)
Definition open_save_dialog (d : Desk) : Desk :=
  {| desk_page := desk_page d;
     clipboard := clipboard d;
     save_dialog := Some (current_png_name (output (desk_page d)));
     on_result_set := true;
     disk := disk d |}.

Definition has_png (p : Page) : bool :=
  match current_png_bytes (output p) with
  | Some _ => true
  | None => false
  end.

(** *** [save_png] (lines 469-486) *)
Definition save_png (d : Desk) : Desk * ending :=
  if has_png (desk_page d) then (open_save_dialog d, Completed)
  else
    match generate_preview (desk_page d) with
    | (p1, Raised e) => (with_page d p1, Failed e)
    | (p1, _) =>
        if has_png p1 then (open_save_dialog (with_page d p1), Completed)
        else (with_page d p1, Stopped)
    end.

(** *** [_save_result] (lines 476-483), called with [res.path]

    The closure reads [current_png_bytes] when it runs. *)
Definition _save_result (path : option str) (d : Desk) : Desk * ending :=
  if negb (opt_truthy path) then (d, Stopped)
  else
    let path := opt_or path [] in
    match write_bytes path (current_png_bytes (output (desk_page d)))
            (disk d) with
    | inr fs =>
        ({| desk_page :=
              {| form := form (desk_page d);
                 output := snack_as (py "Salvo em: " ++ path) true false
                             (output (desk_page d)) |};
            clipboard := clipboard d;
            save_dialog := save_dialog d;
            on_result_set := on_result_set d;
            disk := fs |}, Completed)
    | inl ex =>
        ({| desk_page :=
              {| form := form (desk_page d);
                 output := snack_as (py "Erro ao salvar: " ++ ex) false false
                             (output (desk_page d)) |};
            clipboard := clipboard d;
            save_dialog := save_dialog d;
            on_result_set := on_result_set d;
            disk := disk d |}, Completed)
    end.

(** The dialog reporting a path: the picker calls its [on_result], which is
    [lambda e: None] (line 381) until [save_png] has replaced it. *)
Definition file_save_result (path : option str) (d : Desk) : Desk * ending :=
  if on_result_set d then _save_result path d else (d, Completed).

(** Lines 493-494: [page.set_clipboard(qr_content_out.value)] and the amber
    notice. *)
Definition copy_out (d : Desk) : Desk :=
  {| desk_page :=
       {| form := form (desk_page d);
          output := snack_as (py "Conteúdo copiado.") false true
                      (output (desk_page d)) |};
     clipboard := qr_content_out (output (desk_page d));
     save_dialog := save_dialog d;
     on_result_set := on_result_set d;
     disk := disk d |}.

Definition has_content (p : Page) : bool :=
  opt_truthy (qr_content_out (output p)).

(** *** [copy_qr_content] (lines 488-494) *)
Definition copy_qr_content (d : Desk) : Desk * ending :=
  if has_content (desk_page d) then (copy_out d, Completed)
  else
    match generate_preview (desk_page d) with
    | (p1, Raised e) => (with_page d p1, Failed e)
    | (p1, _) =>
        if has_content p1 then (copy_out (with_page d p1), Completed)
        else (with_page d p1, Stopped)
    end.

End Handlers.

(** *** The theme button (lines 235-263) *)

Inductive theme_mode : Type := LIGHT | DARK.
Inductive circle_color : Type := AMBER_400 | CYAN_400.
Inductive theme_icon : Type := NIGHTLIGHT_ROUND | WB_SUNNY.

Record Theme : Type := {
  is_dark : bool;
  page_theme_mode : theme_mode;
  circle_bg : circle_color;
  icon : theme_icon
}.

(** [update_theme_button] (lines 244-256) *)
Definition update_theme_button (t : Theme) : Theme :=
  {| is_dark := is_dark t;
     page_theme_mode := page_theme_mode t;
     circle_bg := if negb (is_dark t) then AMBER_400 else CYAN_400;
     icon := if is_dark t then NIGHTLIGHT_ROUND else WB_SUNNY |}.

(** [toggle_theme] (lines 258-263) *)
Definition toggle_theme (t : Theme) : Theme :=
  let is_dark' := negb (is_dark t) in
  update_theme_button
    {| is_dark := is_dark';
       page_theme_mode := if is_dark' then DARK else LIGHT;
       circle_bg := circle_bg t;
       icon := icon t |}.

(** The theme when [main] has run (lines 230, 235, 268): light, and the
    button styled once; before that the button has no style. *)
Definition initial_theme (bg : circle_color) (ic : theme_icon) : Theme :=
  update_theme_button
    {| is_dark := false;
       page_theme_mode := LIGHT;
       circle_bg := bg;
       icon := ic |}.

(** The theme after [n] clicks on the button. *)
Fixpoint clicks (n : nat) (t : Theme) : Theme :=
  match n with
  | O => t
  | S n' => toggle_theme (clicks n' t)
  end.

(** Files as a list of paths with their contents; a path under [/ro/]
    cannot be written. *)
Module ReferenceFiles.

Definition read_only (path : str) : bool :=
  match path with
  | 47%N :: 114%N :: 111%N :: 47%N :: _ => true
  | _ => false
  end.

Definition write {A} (path : str) (data : option A)
    (fs : list (str * A)) : str + list (str * A) :=
  match data with
  | None => inl (py "a bytes-like object is required, not 'NoneType'")
  | Some b =>
      if read_only path
      then inl (py "[Errno 30] Read-only file system: '" ++ path ++ py "'")
      else inr ((path, b) :: fs)
  end.

End ReferenceFiles.

#[export] Instance reference_files {F : PyFloat} {I : Imaging}
    : FileSystem := {|
  files := list (str * Label);
  write_bytes := ReferenceFiles.write (A:=Label)
|}.

(** *** The handler run twice *)
Section Again.

Context {U : Unicode} {F : PyFloat} {I : Imaging}.
Local Open Scope Z_scope.

(** The fields the handler title-cases on the open tab hold ASCII text. *)
Definition ascii_names (f : Form) : bool :=
  if tab_selected_index f =? 0
  then is_ascii_str (opt_or (tf_sample_name f) [])
       && is_ascii_str (opt_or (tf_biomass f) [])
       && is_ascii_str (opt_or (tf_producer f) [])
       && is_ascii_str (opt_or (tf_reactor f) [])
  else is_ascii_str (opt_or (tf_bm_name f) [])
       && is_ascii_str (opt_or (tf_origin f) []).

Definition titlecase_all (f : Form) : Form :=
  if tab_selected_index f =? 0
  then _titlecase_all_biochar f
  else _titlecase_all_biomass f.

(** What the first part of the handler did to the output. *)
Definition after (r : option Job) (msg : str) (o : Output) : Output :=
  match r with
  | None => snack msg o
  | Some job => set_png_name (png_name (job_title_left job)) o
  end.

End Again.

(** A desk holding the label of an earlier record while the form holds a
    record too long for any symbol. *)
Definition old_label : Label :=
  {| label_width := 800;
     label_height := 590;
     label_text := [(335, 30, py "Casca")]%Z;
     label_qr := {| Reference.width := 410; Reference.height := 410 |};
     label_qr_size := (410, 410)%Z;
     label_qr_pos := (195, 100)%Z |}.

Definition stale_desk : Desk :=
  {| desk_page :=
       {| form := form overflow_page;
          output :=
            {| current_png_bytes := Some old_label;
               current_png_name := py "Casca_label.png";
               img_preview_src := Some old_label;
               img_preview_size := (420, 420)%Z;
               qr_content_out := Some (py "Nome da biomassa: Casca");
               snack_bar := None |} |};
     clipboard := None;
     save_dialog := None;
     on_result_set := false;
     disk := [] |}.

(** * Properties *)

Unset Implicit Arguments.

(** ** Tokens *)

Section TitlecaseSpec.

Context {U : Unicode}.

Lemma Tokens_space_cons c s toks :
  ch_isspace c = true -> Tokens s toks -> Tokens (c :: s) toks.
Proof.
  intros Hc H. destruct H as [ws Hws | ws t rest toks Hws Ht Hn Hr Hrest].
  - apply Tokens_nil. unfold all_space in *. simpl. now rewrite Hc.
  - change (c :: ws ++ t ++ rest) with ((c :: ws) ++ t ++ rest).
    apply Tokens_cons; auto. unfold all_space in *. simpl. now rewrite Hc.
Qed.

Lemma no_space_app a b : no_space a -> no_space b -> no_space (a ++ b).
Proof.
  unfold no_space. intros Ha Hb. rewrite forallb_app. now rewrite Ha, Hb.
Qed.

(** The scan either is between tokens, or has a token open in [cur]. *)
Lemma split_from_spec s :
  Tokens s (split_from [] s)
  /\ forall cur, cur <> [] ->
       exists t rest,
         s = t ++ rest /\ no_space t /\ starts_blank rest
         /\ split_from cur s = (rev cur ++ t) :: split_from [] rest
         /\ Tokens rest (split_from [] rest).
Proof.
  induction s as [|c s [IH1 IH2]].
  - split.
    + apply Tokens_nil. reflexivity.
    + intros cur Hcur. exists [], []. simpl.
      repeat split; try reflexivity.
      * destruct cur; [congruence|]. now rewrite app_nil_r.
      * apply Tokens_nil. reflexivity.
  - assert (Hfirst : Tokens (c :: s) (split_from [] (c :: s))).
    { simpl. destruct (ch_isspace c) eqn:Hc.
      - now apply Tokens_space_cons.
      - destruct (IH2 [c]) as (t & rest & -> & Hn & Hb & Heq & Hrest);
          [congruence|].
        rewrite Heq. simpl.
        apply (Tokens_cons (ws:=[]) (t:=c :: t)); auto.
        + reflexivity.
        + congruence.
        + unfold no_space in *. simpl. now rewrite Hc. }
    split; [exact Hfirst|].
    intros cur Hcur. simpl. destruct (ch_isspace c) eqn:Hc.
    + exists [], (c :: s). simpl. repeat split; auto.
      * destruct cur; [congruence|]. rewrite app_nil_r.
        simpl in Hfirst |- *. now rewrite Hc.
    + destruct (IH2 (c :: cur)) as (t & rest & -> & Hn & Hb & Heq & Hrest);
        [congruence|].
      exists (c :: t), rest. repeat split; auto.
      * unfold no_space in *. simpl. now rewrite Hc.
      * rewrite Heq. simpl. now rewrite <- app_assoc.
Qed.

Lemma split_Tokens s : Tokens s (split s).
Proof. apply split_from_spec. Qed.

(** The loop of [_titlecase] appends one rendered token per part. *)
Lemma titlecase_loop (parts : list str) (acc : list str) :
  fold_left
    (fun out p =>
       if (length p <=? 3)%nat && str_isupper p
       then out ++ [p]
       else out ++ [str_upper (firstn 1 p) ++ str_lower (skipn 1 p)])
    parts acc
  = acc ++ map render_token parts.
Proof.
  revert acc. induction parts as [|p parts IH]; intros acc; simpl.
  - now rewrite app_nil_r.
  - rewrite IH. unfold render_token.
    destruct ((length p <=? 3)%nat && str_isupper p);
      now rewrite <- app_assoc.
Qed.

Lemma titlecase_unfold s :
  _titlecase s = titlecase_spec (split s).
Proof.
  unfold _titlecase, titlecase_spec. destruct s as [|c s]; [reflexivity|].
  cbn [truthy negb]. now rewrite titlecase_loop.
Qed.

End TitlecaseSpec.

(** ** Whitespace *)

Section Whitespace.

Context {U : Unicode}.

Lemma dropwhile_nil_iff p s : dropwhile p s = [] <-> forallb p s = true.
Proof.
  induction s as [|c s IH]; simpl; [tauto|].
  destruct (p c); simpl; [exact IH|]. split; congruence.
Qed.

Lemma dropwhile_all p s :
  forallb p (dropwhile p s) = true -> forallb p s = true.
Proof.
  induction s as [|c s IH]; simpl; [tauto|].
  destruct (p c) eqn:E; simpl; [exact IH|]. now rewrite E.
Qed.

Lemma forallb_rev (p : char -> bool) s : forallb p (rev s) = forallb p s.
Proof.
  induction s as [|c s IH]; simpl; [reflexivity|].
  rewrite forallb_app, IH. simpl. rewrite andb_true_r. apply andb_comm.
Qed.

Lemma strip_nil_all_space s : strip s = [] -> all_space s.
Proof.
  unfold strip, all_space. intros H.
  apply (f_equal (@rev char)) in H. rewrite rev_involutive in H. simpl in H.
  apply dropwhile_nil_iff in H. rewrite forallb_rev in H.
  now apply dropwhile_all.
Qed.

Lemma all_space_strip s : all_space s -> strip s = [].
Proof.
  unfold strip, all_space. intros H.
  apply dropwhile_nil_iff in H. now rewrite H.
Qed.

Lemma split_all_space s : all_space s -> split s = [].
Proof.
  unfold split, all_space. induction s as [|c s IH]; simpl; [reflexivity|].
  destruct (ch_isspace c); simpl; [exact IH|discriminate].
Qed.

(** A blank field is still blank after title-casing. *)
Lemma strip_titlecase_blank s : strip s = [] -> strip (_titlecase s) = [].
Proof.
  intros H. rewrite titlecase_unfold.
  rewrite (split_all_space s (strip_nil_all_space s H)). reflexivity.
Qed.

Lemma dropwhile_head p s :
  match s with [] => True | c :: _ => p c = false end ->
  dropwhile p s = s.
Proof. destruct s as [|c s]; simpl; [reflexivity|]. now intros ->. Qed.

Lemma strip_trimmed s : trimmed s -> strip s = s.
Proof.
  intros [Hh Hl]. unfold strip.
  rewrite (dropwhile_head ch_isspace s Hh).
  rewrite (dropwhile_head ch_isspace (rev s) Hl).
  apply rev_involutive.
Qed.

(** The scanner finds the tokens of a tokenised string. *)
Lemma split_from_skip ws s :
  all_space ws -> split_from [] (ws ++ s) = split_from [] s.
Proof.
  unfold all_space. induction ws as [|c ws IH]; simpl; [reflexivity|].
  destruct (ch_isspace c); simpl; [exact IH|discriminate].
Qed.

Lemma split_from_token t rest cur :
  cur <> [] -> no_space t -> starts_blank rest ->
  split_from cur (t ++ rest) = (rev cur ++ t) :: split_from [] rest.
Proof.
  revert cur. unfold no_space.
  induction t as [|c t IH]; intros cur Hcur Ht Hr; simpl.
  - rewrite app_nil_r. destruct rest as [|c r]; simpl.
    + destruct cur; [congruence|reflexivity].
    + simpl in Hr. rewrite Hr. destruct cur; [congruence|reflexivity].
  - simpl in Ht. apply andb_true_iff in Ht as [Hc Ht].
    apply negb_true_iff in Hc. rewrite Hc.
    rewrite IH; auto; [|congruence]. simpl. now rewrite <- app_assoc.
Qed.

Lemma Tokens_split s toks : Tokens s toks -> toks = split s.
Proof.
  unfold split. induction 1 as [ws Hws | ws t rest toks Hws Ht Hn Hr _ IH].
  - symmetry. now apply split_all_space.
  - rewrite split_from_skip by assumption.
    destruct t as [|c t]; [congruence|].
    unfold no_space in Hn. simpl in Hn.
    apply andb_true_iff in Hn as [Hc Hn]. apply negb_true_iff in Hc.
    simpl. rewrite Hc.
    rewrite split_from_token; auto; [|congruence]. simpl. now rewrite IH.
Qed.

End Whitespace.

(** ** Agreement with the ASCII tables *)

Ltac bool_lia :=
  repeat match goal with
         | H : _ && _ = true |- _ => apply andb_true_iff in H as [? ?]
         | H : _ || _ = true |- _ => apply orb_true_iff in H as [?|?]
         | H : (_ <=? _)%N = true |- _ => apply N.leb_le in H
         | H : (_ <? _)%N = true |- _ => apply N.ltb_lt in H
         | H : (_ =? _)%N = true |- _ => apply N.eqb_eq in H
         | H : (_ <=? _)%N = false |- _ => apply N.leb_gt in H
         | H : (_ <? _)%N = false |- _ => apply N.ltb_ge in H
         | H : (_ =? _)%N = false |- _ => apply N.eqb_neq in H
         end;
  try lia.

#[export] Instance ascii_unicode_laws : UnicodeLaws ascii_unicode.
Proof.
  split; try reflexivity.
  intros c H. simpl in *. unfold Ascii7.isdigit, Ascii7.isspace in *.
  bool_lia.
  destruct (9 <=? c)%N eqn:E1, (c <=? 13)%N eqn:E2, (28 <=? c)%N eqn:E3,
           (c <=? 32)%N eqn:E4; simpl; try reflexivity; bool_lia.
Qed.

Section AsciiText.

Context {U : Unicode} {L : UnicodeLaws U}.

Lemma is_ascii_str_app a b :
  is_ascii_str (a ++ b) = is_ascii_str a && is_ascii_str b.
Proof. apply forallb_app. Qed.

Lemma is_ascii_str_rev a : is_ascii_str (rev a) = is_ascii_str a.
Proof. apply forallb_rev. Qed.

Lemma dropwhile_ascii s :
  is_ascii_str s = true ->
  dropwhile ch_isspace s = dropwhile Ascii7.isspace s
  /\ is_ascii_str (dropwhile Ascii7.isspace s) = true.
Proof.
  induction s as [|c s IH]; simpl; [auto|]. intros H.
  apply andb_true_iff in H as [Hc Hs].
  rewrite (isspace_ascii c Hc).
  destruct (Ascii7.isspace c); [auto|].
  split; [reflexivity|]. simpl. now rewrite Hc, Hs.
Qed.

Lemma strip_ascii s :
  is_ascii_str s = true ->
  strip s = strip (U:=ascii_unicode) s
  /\ is_ascii_str (strip (U:=ascii_unicode) s) = true.
Proof.
  intros H. unfold strip. simpl.
  destruct (dropwhile_ascii s H) as [E1 A1]. rewrite E1.
  rewrite <- is_ascii_str_rev in A1.
  destruct (dropwhile_ascii _ A1) as [E2 A2]. rewrite E2.
  split; [reflexivity|]. now rewrite is_ascii_str_rev.
Qed.

Lemma split_from_ascii s cur :
  is_ascii_str s = true -> is_ascii_str cur = true ->
  split_from cur s = split_from (U:=ascii_unicode) cur s
  /\ forallb is_ascii_str (split_from (U:=ascii_unicode) cur s) = true.
Proof.
  revert cur. induction s as [|c s IH]; intros cur Hs Hcur; simpl.
  - destruct cur; [auto|]. split; [reflexivity|].
    cbn [forallb]. now rewrite is_ascii_str_rev, Hcur.
  - simpl in Hs. apply andb_true_iff in Hs as [Hc Hs].
    rewrite (isspace_ascii c Hc). destruct (Ascii7.isspace c).
    + destruct (IH [] Hs eq_refl) as [E A]. destruct cur as [|d cur].
      * auto.
      * rewrite E. split; [reflexivity|].
        cbn [forallb]. now rewrite is_ascii_str_rev, Hcur, A.
    + apply IH; auto. simpl. now rewrite Hc, Hcur.
Qed.

Lemma firstn_ascii n s : is_ascii_str s = true -> is_ascii_str (firstn n s) = true.
Proof.
  revert n. induction s as [|c s IH]; intros [|n] H; simpl; auto.
  simpl in H. apply andb_true_iff in H as [Hc Hs]. now rewrite Hc, IH.
Qed.

Lemma skipn_ascii n s : is_ascii_str s = true -> is_ascii_str (skipn n s) = true.
Proof.
  revert n. induction s as [|c s IH]; intros [|n] H; simpl; auto.
  simpl in H. apply andb_true_iff in H as [Hc Hs]. now apply IH.
Qed.

Lemma render_token_ascii p :
  is_ascii_str p = true ->
  render_token p = render_token (U:=ascii_unicode) p.
Proof.
  intros H. unfold render_token.
  rewrite (isupper_ascii p H).
  rewrite (upper_ascii _ (firstn_ascii 1 p H)).
  rewrite (lower_ascii _ (skipn_ascii 1 p H)). reflexivity.
Qed.

Lemma map_render_ascii toks :
  forallb is_ascii_str toks = true ->
  map render_token toks = map (render_token (U:=ascii_unicode)) toks.
Proof.
  induction toks as [|t toks IH]; simpl; [reflexivity|]. intros H.
  apply andb_true_iff in H as [Ht Hs].
  now rewrite (render_token_ascii t Ht), IH.
Qed.

(** On ASCII text the database does not matter. *)
Lemma titlecase_ascii s :
  is_ascii_str s = true -> _titlecase s = _titlecase (U:=ascii_unicode) s.
Proof.
  intros H. rewrite !titlecase_unfold. unfold titlecase_spec, split.
  destruct (split_from_ascii s [] H eq_refl) as [E A].
  rewrite E. now rewrite map_render_ascii.
Qed.

Lemma fullmatch_ymd_ascii s :
  is_ascii_str s = true ->
  fullmatch_ymd s = fullmatch_ymd (U:=ascii_unicode) s.
Proof.
  intros H. unfold fullmatch_ymd.
  do 11 (destruct s as [|? s]; try reflexivity).
  simpl in H. bool_lia.
  rewrite !isdigit_ascii by assumption. reflexivity.
Qed.

Lemma fullmatch_dmy_ascii sep s :
  is_ascii_str s = true ->
  fullmatch_dmy sep s = fullmatch_dmy (U:=ascii_unicode) sep s.
Proof.
  intros H. unfold fullmatch_dmy.
  do 11 (destruct s as [|? s]; try reflexivity).
  simpl in H. bool_lia.
  rewrite !isdigit_ascii by assumption. reflexivity.
Qed.

Lemma normalize_date_ascii s :
  is_ascii_str s = true ->
  _normalize_date s = _normalize_date (U:=ascii_unicode) s.
Proof.
  intros H. unfold _normalize_date.
  assert (Hs : is_ascii_str (str_or s []) = true) by (now destruct s).
  destruct (strip_ascii _ Hs) as [E A]. rewrite E.
  rewrite (fullmatch_ymd_ascii _ A), !(fullmatch_dmy_ascii _ _ A).
  reflexivity.
Qed.

End AsciiText.

(** ** Title-casing *)


(** C5, as stated, fails: the token CHAR has four characters, so the rule
    for acronyms of at most three does not keep it. *)
Lemma titlecase_CHAR_counterexample :
  _titlecase (U:=ascii_unicode) (py "bio CHAR sample") = py "Bio Char Sample"
  /\ py "Bio Char Sample" <> py "Bio CHAR Sample".
Proof. split; [vm_compute; reflexivity | vm_compute; discriminate]. Qed.

(** C5, amended. Title-casing "bio CHAR sample" yields "Bio Char Sample":
    the all-caps token CHAR has four characters, more than the three the
    acronym rule admits, so it is rendered like any other word; and
    title-casing "wood ash" yields "Wood Ash". *)
Theorem titlecase_examples {U : Unicode} {L : UnicodeLaws U} :
  _titlecase (py "bio CHAR sample") = py "Bio Char Sample"
  /\ length (py "CHAR") = 4%nat
  /\ _titlecase (py "wood ash") = py "Wood Ash".
Proof.
  rewrite (titlecase_ascii (py "bio CHAR sample")) by (vm_compute; reflexivity).
  rewrite (titlecase_ascii (py "wood ash")) by (vm_compute; reflexivity).
  repeat split; vm_compute; reflexivity.
Qed.

Lemma titlecase_examples_witness :
  _titlecase (U:=ascii_unicode) (py "bio CHAR sample") = py "Bio Char Sample"
  /\ length (py "CHAR") = 4%nat
  /\ _titlecase (U:=ascii_unicode) (py "wood ash") = py "Wood Ash".
Proof. exact (@titlecase_examples ascii_unicode ascii_unicode_laws). Defined.

(** ** Date normalization *)

Section Dates.

Context {U : Unicode} {L : UnicodeLaws U}.

Lemma fullmatch_ymd_trimmed s : fullmatch_ymd s = true -> trimmed s.
Proof.
  unfold fullmatch_ymd, trimmed.
  do 11 (destruct s as [|? s]; try discriminate).
  intros H. repeat (apply andb_true_iff in H as [H ?]).
  cbn [rev app]. split; now apply digit_not_space.
Qed.

Lemma normalize_date_ymd s : fullmatch_ymd s = true -> _normalize_date s = s.
Proof.
  intros H. unfold _normalize_date.
  assert (E : str_or s [] = s) by (now destruct s). rewrite E.
  rewrite (strip_trimmed s (fullmatch_ymd_trimmed s H)), H.
  destruct s; [discriminate|reflexivity].
Qed.

Lemma normalize_date_other s :
  strip s <> [] -> fullmatch_ymd (strip s) = false ->
  fullmatch_dmy 47%N (strip s) = None ->
  fullmatch_dmy 45%N (strip s) = None ->
  _normalize_date s = strip s.
Proof.
  intros Hne Hy Hs Hd. unfold _normalize_date.
  assert (E : str_or s [] = s) by (now destruct s). rewrite E.
  rewrite Hy, Hs, Hd. destruct (strip s); [congruence|reflexivity].
Qed.

Lemma normalize_date_blank s : all_space s -> _normalize_date s = [].
Proof.
  intros H. unfold _normalize_date.
  assert (E : str_or s [] = s) by (now destruct s). rewrite E.
  now rewrite (all_space_strip s H).
Qed.

End Dates.

(** C3, as stated, fails: a string in none of the three forms is not always
    returned unchanged, because the text is stripped first. *)
Lemma normalize_date_strips_counterexample :
  _normalize_date (U:=ascii_unicode) (py " March 5") = py "March 5"
  /\ py "March 5" <> py " March 5"
  /\ fullmatch_ymd (U:=ascii_unicode) (py " March 5") = false
  /\ fullmatch_dmy (U:=ascii_unicode) 47%N (py " March 5") = None
  /\ fullmatch_dmy (U:=ascii_unicode) 45%N (py " March 5") = None.
Proof.
  repeat split; try (vm_compute; reflexivity). vm_compute. discriminate.
Qed.

(** C3, amended. Date normalization maps "05/03/2024" and "05-03-2024" to
    "2024-03-05"; an input of the form YYYY-MM-DD is returned unchanged; any
    other input is stripped of leading and trailing whitespace first, and
    when what is left is non-empty and in none of the three forms, that
    stripped text is returned, so an input without surrounding whitespace
    such as "March 5" is returned unchanged; empty or blank input yields the
    empty string. *)
Theorem normalize_date_cases {U : Unicode} {L : UnicodeLaws U} :
  _normalize_date (py "05/03/2024") = py "2024-03-05"
  /\ _normalize_date (py "05-03-2024") = py "2024-03-05"
  /\ (forall s, fullmatch_ymd s = true -> _normalize_date s = s)
  /\ (forall s, strip s <> [] -> fullmatch_ymd (strip s) = false ->
        fullmatch_dmy 47%N (strip s) = None ->
        fullmatch_dmy 45%N (strip s) = None ->
        _normalize_date s = strip s)
  /\ (forall s, trimmed s -> strip s = s)
  /\ _normalize_date (py "March 5") = py "March 5"
  /\ _normalize_date [] = []
  /\ (forall s, all_space s -> _normalize_date s = []).
Proof.
  rewrite (normalize_date_ascii (py "05/03/2024")) by (vm_compute; reflexivity).
  rewrite (normalize_date_ascii (py "05-03-2024")) by (vm_compute; reflexivity).
  rewrite (normalize_date_ascii (py "March 5")) by (vm_compute; reflexivity).
  split; [vm_compute; reflexivity|].
  split; [vm_compute; reflexivity|].
  split; [apply normalize_date_ymd|].
  split; [apply normalize_date_other|].
  split; [apply strip_trimmed|].
  split; [vm_compute; reflexivity|].
  split; [reflexivity|].
  apply normalize_date_blank.
Qed.

Lemma normalize_date_cases_witness :
  _normalize_date (U:=ascii_unicode) (py "05/03/2024") = py "2024-03-05"
  /\ _normalize_date (U:=ascii_unicode) (py "05-03-2024") = py "2024-03-05"
  /\ (forall s, fullmatch_ymd (U:=ascii_unicode) s = true ->
        _normalize_date (U:=ascii_unicode) s = s)
  /\ (forall s, strip (U:=ascii_unicode) s <> [] ->
        fullmatch_ymd (U:=ascii_unicode) (strip (U:=ascii_unicode) s) = false ->
        fullmatch_dmy (U:=ascii_unicode) 47%N (strip (U:=ascii_unicode) s) = None ->
        fullmatch_dmy (U:=ascii_unicode) 45%N (strip (U:=ascii_unicode) s) = None ->
        _normalize_date (U:=ascii_unicode) s = strip (U:=ascii_unicode) s)
  /\ (forall s, trimmed (U:=ascii_unicode) s -> strip (U:=ascii_unicode) s = s)
  /\ _normalize_date (U:=ascii_unicode) (py "March 5") = py "March 5"
  /\ _normalize_date (U:=ascii_unicode) [] = []
  /\ (forall s, all_space (U:=ascii_unicode) s ->
        _normalize_date (U:=ascii_unicode) s = []).
Proof. exact (@normalize_date_cases ascii_unicode ascii_unicode_laws). Defined.

(** ** STRUCTURED payload *)

Module JsonFacts.

Import Json.

(** Characters outside the pattern [ESCAPE] are written literally. *)
Lemma escape_char_plain c :
  (32 <= c)%N -> c <> 34%N -> c <> 92%N -> escape_char c = [c].
Proof.
  intros H1 H2 H3. unfold escape_char.
  apply N.eqb_neq in H2, H3. rewrite H2, H3.
  destruct (c =? 8)%N eqn:E1; [bool_lia|].
  destruct (c =? 12)%N eqn:E2; [bool_lia|].
  destruct (c =? 10)%N eqn:E3; [bool_lia|].
  destruct (c =? 13)%N eqn:E4; [bool_lia|].
  destruct (c =? 9)%N eqn:E5; [bool_lia|].
  destruct (c <? 32)%N eqn:E6; [bool_lia|]. reflexivity.
Qed.

Lemma escape_char_non_ascii c : (128 <= c)%N -> escape_char c = [c].
Proof. intros H. apply escape_char_plain; lia. Qed.

Lemma scan_plain c rest :
  (32 <= c)%N -> c <> 34%N -> c <> 92%N ->
  scan_body (c :: rest) = push c (scan_body rest).
Proof.
  intros H1 H2 H3. simpl.
  apply N.eqb_neq in H2, H3. rewrite H2, H3.
  apply N.ltb_ge in H1. now rewrite H1.
Qed.

(** The control characters, one by one. *)
Lemma scan_control c rest :
  (c < 32)%N ->
  scan_body (escape_char c ++ rest) = push c (scan_body rest).
Proof.
  intros H.
  assert (E : In c (map N.of_nat (seq 0 32))).
  { apply in_map_iff. exists (N.to_nat c). split; [lia|].
    apply in_seq. lia. }
  cbv [seq map] in E. simpl in E.
  repeat (destruct E as [E|E]; [subst c; reflexivity|]). contradiction.
Qed.

Lemma scan_escape c rest :
  scan_body (escape_char c ++ rest) = push c (scan_body rest).
Proof.
  destruct (N.ltb_spec c 32) as [Hlt|Hge]; [now apply scan_control|].
  destruct (N.eq_dec c 34) as [->|H1]; [reflexivity|].
  destruct (N.eq_dec c 92) as [->|H2]; [reflexivity|].
  rewrite escape_char_plain by assumption. now apply scan_plain.
Qed.

Lemma scan_body_encoded s rest :
  scan_body (flat_map escape_char s ++ 34%N :: rest) = Some (s, rest).
Proof.
  induction s as [|c s IH]; simpl.
  - reflexivity.
  - rewrite <- app_assoc, scan_escape, IH. reflexivity.
Qed.

(** Reading an encoded string back gives the string itself. *)
Lemma scanstring_encode s rest :
  scanstring (encode_basestring s ++ rest) = Some (s, rest).
Proof.
  unfold encode_basestring, scanstring. simpl.
  rewrite <- app_assoc. apply scan_body_encoded.
Qed.

End JsonFacts.


(** ** READABLE payload *)


(** ** The handler *)

Section Handler.

Context {U : Unicode} {F : PyFloat} {I : Imaging}.
Local Open Scope Z_scope.

Lemma str_or_nil x : str_or x [] = x.
Proof. now destruct x. Qed.

Lemma truthy_false_iff s : truthy s = false <-> s = [].
Proof. destruct s; simpl; split; congruence. Qed.

Lemma build_payload_biochar_blank p :
  tab_selected_index (form p) = 0 ->
  strip (opt_or (tf_sample_name (form p)) []) = [] ->
  build_payload p
  = ({| form := _titlecase_all_biochar (form p);
        output := snack (py "Nome da amostra é obrigatório para Biochar.")
                        (output p) |}, None).
Proof.
  intros Ht Hs. unfold build_payload. rewrite Ht. cbn [Z.eqb].
  cbn [_titlecase_all_biochar tf_sample_name opt_or].
  rewrite str_or_nil, (strip_titlecase_blank _ Hs). reflexivity.
Qed.

Lemma build_payload_biomass_blank p :
  tab_selected_index (form p) <> 0 ->
  strip (opt_or (tf_bm_name (form p)) []) = []
  \/ strip (opt_or (tf_origin (form p)) []) = [] ->
  build_payload p
  = ({| form := _titlecase_all_biomass (form p);
        output :=
          snack (py "Nome da biomassa e Origem são obrigatórios para Biomassa.")
                (output p) |}, None).
Proof.
  intros Ht Hs. unfold build_payload.
  apply Z.eqb_neq in Ht. rewrite Ht.
  cbn [_titlecase_all_biomass tf_bm_name tf_origin opt_or].
  rewrite !str_or_nil.
  destruct Hs as [Hs|Hs]; rewrite (strip_titlecase_blank _ Hs); cbn.
  - reflexivity.
  - now rewrite orb_true_r.
Qed.

(** Before the renderer runs, the handler has only renamed the file. *)
Lemma build_payload_output p p1 job :
  build_payload p = (p1, Some job) ->
  output p1 = set_png_name (png_name (job_title_left job)) (output p).
Proof.
  unfold build_payload.
  destruct (tab_selected_index (form p) =? 0).
  - destruct (negb (truthy _)); [discriminate|].
    intros H. injection H as <- <-. reflexivity.
  - destruct (negb (truthy _) || negb (truthy _)); [discriminate|].
    intros H. injection H as <- <-. reflexivity.
Qed.

Lemma replace_idem a b s : a <> b -> replace a b (replace a b s) = replace a b s.
Proof.
  intros Hab. unfold replace. rewrite map_map. apply map_ext. intros c.
  destruct (c =? a)%N eqn:E; [|now rewrite E].
  destruct (b =? a)%N eqn:E'; [|reflexivity].
  apply N.eqb_eq in E'. congruence.
Qed.

Lemma replace_not_in a b s : a <> b -> ~ In a (replace a b s).
Proof.
  intros Hab H. unfold replace in H. apply in_map_iff in H as (c & Hc & _).
  destruct (c =? a)%N eqn:E; [congruence|].
  apply N.eqb_neq in E. congruence.
Qed.

End Handler.

(** C2. For a record of either kind whose required field is empty after
    trimming (the sample name on the biochar tab; the biomass name or the
    origin on the biomass tab), the handler shows a notice and returns: no
    payload is built, and the stored image, the preview and the QR content
    stay as they were. *)
Theorem required_field_empty {U : Unicode} {F : PyFloat} {I : Imaging}
    (p : Page) :
  (tab_selected_index (form p) = 0%Z
   /\ strip (opt_or (tf_sample_name (form p)) []) = [])
  \/ (tab_selected_index (form p) <> 0%Z
      /\ (strip (opt_or (tf_bm_name (form p)) []) = []
          \/ strip (opt_or (tf_origin (form p)) []) = [])) ->
  exists f msg,
    build_payload p = ({| form := f; output := snack msg (output p) |}, None)
    /\ generate_preview p
       = ({| form := f; output := snack msg (output p) |}, Returned)
    /\ snack_bar (output (fst (generate_preview p))) = Some (msg, RED)
    /\ current_png_bytes (output (fst (generate_preview p)))
       = current_png_bytes (output p)
    /\ img_preview_src (output (fst (generate_preview p)))
       = img_preview_src (output p)
    /\ qr_content_out (output (fst (generate_preview p)))
       = qr_content_out (output p).
Proof.
  intros [[Ht Hs] | [Ht Hs]].
  - exists (_titlecase_all_biochar (form p)),
           (py "Nome da amostra é obrigatório para Biochar.").
    unfold generate_preview.
    rewrite (build_payload_biochar_blank p Ht Hs). repeat split.
  - exists (_titlecase_all_biomass (form p)),
           (py "Nome da biomassa e Origem são obrigatórios para Biomassa.").
    unfold generate_preview.
    rewrite (build_payload_biomass_blank p Ht Hs). repeat split.
Qed.

Lemma required_field_empty_witness :
  (exists f msg,
     build_payload blank_name_page
     = ({| form := f; output := snack msg (output blank_name_page) |}, None)
     /\ generate_preview blank_name_page
        = ({| form := f; output := snack msg (output blank_name_page) |},
           Returned)
     /\ snack_bar (output (fst (generate_preview blank_name_page)))
        = Some (msg, RED)
     /\ current_png_bytes (output (fst (generate_preview blank_name_page)))
        = current_png_bytes (output blank_name_page)
     /\ img_preview_src (output (fst (generate_preview blank_name_page)))
        = img_preview_src (output blank_name_page)
     /\ qr_content_out (output (fst (generate_preview blank_name_page)))
        = qr_content_out (output blank_name_page))
  /\ snd (generate_preview blank_origin_page) = Returned.
Proof.
  split.
  - apply (required_field_empty blank_name_page).
    left. split; vm_compute; reflexivity.
  - destruct (required_field_empty blank_origin_page) as (f & msg & _ & H & _).
    + right. split; [vm_compute; discriminate|].
      right. vm_compute. reflexivity.
    + rewrite H. reflexivity.
Defined.

(** C9. On the biochar tab, with a sample name that passes the check, a
    temperature or residence-time text that [float] rejects does not stop
    the handler: the payload is built with the value 0.0 in place of the
    unparsable field, no notice is shown, and the handler does not return
    early. *)
Theorem unparsable_number_is_zero {U : Unicode} {F : PyFloat} {I : Imaging}
    (p : Page) :
  let f := _titlecase_all_biochar (form p) in
  let sn := strip (opt_or (tf_sample_name f) []) in
  let bm := strip (opt_or (tf_biomass f) []) in
  let producer := strip (opt_or (tf_producer f) []) in
  let reactor_type := strip (opt_or (tf_reactor f) []) in
  let prod_date := _normalize_date (opt_or (tf_prod_date f) []) in
  let notes := opt_or (tf_notes_bc f) [] in
  let text v := replace 44%N 46%N (opt_or v (py "0")) in
  tab_selected_index (form p) = 0%Z ->
  sn <> [] ->
  float_of_str (text (tf_pyroC (form p))) = None
  \/ float_of_str (text (tf_res_min (form p))) = None ->
  exists pyroC res_min p1 job,
    build_payload p = (p1, Some job)
    /\ (float_of_str (text (tf_pyroC (form p))) = None ->
        pyroC = float_zero)
    /\ (float_of_str (text (tf_res_min (form p))) = None ->
        res_min = float_zero)
    /\ (forall x, float_of_str (text (tf_pyroC (form p))) = Some x ->
        pyroC = x)
    /\ (forall x, float_of_str (text (tf_res_min (form p))) = Some x ->
        res_min = x)
    /\ job_payload job
       = (if str_eqb (opt_or (dd_format (form p)) (py "Informações"))
                     (py "Informações")
          then make_text_biochar sn producer bm reactor_type pyroC res_min
                 (Some prod_date) (Some notes)
          else make_payload_biochar sn producer bm reactor_type pyroC res_min
                 (Some prod_date) (Some notes))
    /\ snack_bar (output p1) = snack_bar (output p)
    /\ snd (generate_preview p) <> Returned.
Proof.
  intros f sn bm producer reactor_type prod_date notes text Ht Hsn _.
  exists (parse_number (tf_pyroC (form p))),
         (parse_number (tf_res_min (form p))).
  assert (Hb : exists p1 job,
             build_payload p = (p1, Some job)
             /\ job_payload job
                = (if str_eqb (opt_or (dd_format (form p)) (py "Informações"))
                              (py "Informações")
                   then make_text_biochar sn producer bm reactor_type
                          (parse_number (tf_pyroC (form p)))
                          (parse_number (tf_res_min (form p)))
                          (Some prod_date) (Some notes)
                   else make_payload_biochar sn producer bm reactor_type
                          (parse_number (tf_pyroC (form p)))
                          (parse_number (tf_res_min (form p)))
                          (Some prod_date) (Some notes))).
  { unfold build_payload. rewrite Ht. cbn [Z.eqb]. fold f. fold sn.
    destruct sn as [|c sn'] eqn:E; [congruence|]. cbn [truthy negb].
    eexists _, _. split; [reflexivity|]. reflexivity. }
  destruct Hb as (p1 & job & Hb & Hjob). exists p1, job.
  split; [exact Hb|].
  unfold parse_number. fold (text (tf_pyroC (form p))).
  fold (text (tf_res_min (form p))).
  split; [now intros ->|]. split; [now intros ->|].
  split; [now intros x ->|]. split; [now intros x ->|].
  split; [exact Hjob|].
  split; [now rewrite (build_payload_output p p1 job Hb)|].
  unfold generate_preview. rewrite Hb.
  destruct (render_label_pil _ _ _ _ _ _); simpl; discriminate.
Qed.

Lemma unparsable_number_is_zero_witness :
  exists pyroC res_min p1 job,
    build_payload bad_number_page = (p1, Some job)
    /\ pyroC = 0%Q /\ res_min = 30%Q
    /\ job_payload job
       = make_text_biochar (py "Lote 7") (py "Ana") (py "Pinus") (py "Forno")
           pyroC res_min (Some []) (Some [])
    /\ snack_bar (output p1) = None
    /\ snd (generate_preview bad_number_page) <> Returned.
Proof.
  destruct (unparsable_number_is_zero bad_number_page)
    as (t & r & p1 & job & Hb & Ht & _ & _ & Hr & Hjob & Hs & Hret).
  - vm_compute. reflexivity.
  - vm_compute. discriminate.
  - left. vm_compute. reflexivity.
  - exists t, r, p1, job.
    split; [exact Hb|].
    split; [apply Ht; vm_compute; reflexivity|].
    split; [apply Hr; vm_compute; reflexivity|].
    split; [exact Hjob|]. split; [exact Hs|exact Hret].
Defined.

(** C10. A temperature or residence time written with a decimal comma is
    read as the number with a decimal point, because every comma is replaced
    by a point before [float] is called: "500,5" is read as whatever
    [float("500.5")] is, and is not replaced by 0.0. *)
Theorem comma_decimal_separator {F : PyFloat} (x : float) :
  float_of_str (py "500.5") = Some x ->
  parse_number (Some (py "500,5")) = x
  /\ replace 44%N 46%N (py "500,5") = py "500.5"
  /\ (forall v, ~ In 44%N (replace 44%N 46%N v))
  /\ (forall v, parse_number (Some v)
                = parse_number (Some (replace 44%N 46%N v))).
Proof.
  intros H. split; [|split; [|split]].
  - unfold parse_number.
    change (replace 44%N 46%N (opt_or (Some (py "500,5")) (py "0")))
      with (py "500.5").
    now rewrite H.
  - reflexivity.
  - intros v. apply replace_not_in. discriminate.
  - intros v. unfold parse_number. destruct v as [|c v]; [reflexivity|].
    assert (E : opt_or (Some (replace 44%N 46%N (c :: v))) (py "0")
                = replace 44%N 46%N (c :: v)) by reflexivity.
    rewrite E. rewrite replace_idem by discriminate. reflexivity.
Qed.

Lemma comma_decimal_separator_witness :
  parse_number (F:=exact_float) (Some (py "500,5")) = (5005 # 10)%Q
  /\ replace 44%N 46%N (py "500,5") = py "500.5"
  /\ (forall v, ~ In 44%N (replace 44%N 46%N v))
  /\ (forall v, parse_number (F:=exact_float) (Some v)
                = parse_number (F:=exact_float)
                    (Some (replace 44%N 46%N v))).
Proof.
  apply (@comma_decimal_separator exact_float (5005 # 10)%Q).
  vm_compute. reflexivity.
Defined.

(** ** Encoder overflow *)

Section Overflow.

Context {U : Unicode} {F : PyFloat} {I : Imaging}.

Lemma render_overflow tl tr payload w box border e :
  qr_make_image payload box border = inl e ->
  render_label_pil tl tr payload w box border = inl e.
Proof. intros H. unfold render_label_pil. now rewrite H. Qed.

End Overflow.




(** ** Scaling and centring of the QR image *)

Lemma Qtrunc_le (q : Q) (n : Z) : (q <= inject_Z n)%Q -> (Qtrunc q <= n)%Z.
Proof.
  destruct q as [a d]. unfold Qle, Qtrunc. simpl. intros H.
  rewrite Z.mul_1_r in H.
  rewrite <- (Z.quot_mul n (Zpos d)) by lia.
  apply Z.quot_le_mono; lia.
Qed.

Lemma Qtrunc_ge (q : Q) (n : Z) : (inject_Z n <= q)%Q -> (n <= Qtrunc q)%Z.
Proof.
  destruct q as [a d]. unfold Qle, Qtrunc. simpl. intros H.
  rewrite Z.mul_1_r in H.
  rewrite <- (Z.quot_mul n (Zpos d)) at 1 by lia.
  apply Z.quot_le_mono; lia.
Qed.

Lemma Exact_ltb_lt (x y : Q) : Exact.ltb x y = true <-> (x < y)%Q.
Proof.
  unfold Exact.ltb. rewrite negb_true_iff. split.
  - intros H. apply Qnot_le_lt. intros Hle.
    apply Qle_bool_iff in Hle. congruence.
  - intros H. destruct (Qle_bool y x) eqn:E; [|reflexivity].
    apply Qle_bool_iff in E. exfalso. now apply (Qlt_not_le x y).
Qed.

#[export] Instance exact_rounded : CorrectlyRounded exact_float.
Proof.
  split; simpl; intros; try reflexivity; try assumption.
  apply Exact_ltb_lt.
Qed.

(** ** Rounding to nearest *)

Module NearestFacts.

Import Nearest.

Lemma pow2_pos k : (0 < pow2 k)%Q.
Proof. apply Qpower_0_lt. reflexivity. Qed.

Lemma pow2_add a b : (pow2 (a + b) == pow2 a * pow2 b)%Q.
Proof. apply Qpower_plus. discriminate. Qed.

Lemma pow2_le a b : (a <= b)%Z -> (pow2 a <= pow2 b)%Q.
Proof. intros H. apply Qpower_le_compat_l; [exact H|discriminate]. Qed.

Lemma pow2_lt_inv a b : (pow2 a < pow2 b)%Q -> (a < b)%Z.
Proof. intros H. apply (Qpower_lt_compat_l_inv 2); [exact H|reflexivity]. Qed.

Lemma pow2_Z k : (0 <= k)%Z -> (pow2 k == inject_Z (2 ^ k))%Q.
Proof. intros H. symmetry. now apply (Zpower_Qpower 2). Qed.

Lemma pow2_cancel a b : (pow2 a * pow2 (b - a) == pow2 b)%Q.
Proof. rewrite <- pow2_add. now replace (a + (b - a))%Z with b by ring. Qed.

(** [ilog2] brackets a positive rational between two powers of two. *)
Lemma ilog2_spec q :
  (0 < q)%Q -> (pow2 (ilog2 q) <= q < pow2 (ilog2 q + 1))%Q.
Proof.
  intros Hq. destruct q as [a d].
  assert (Ha : (0 < a)%Z) by (unfold Qlt in Hq; simpl in Hq; lia).
  unfold ilog2. cbn [Qnum Qden].
  set (la := Z.log2 a). set (ld := Z.log2 (Zpos d)).
  pose proof (Z.log2_spec a Ha) as [Ha1 Ha2]. fold la in Ha1, Ha2.
  pose proof (Z.log2_spec (Zpos d) eq_refl) as [Hd1 Hd2]. fold ld in Hd1, Hd2.
  assert (Hla : (0 <= la)%Z) by apply Z.log2_nonneg.
  assert (Hld : (0 <= ld)%Z) by apply Z.log2_nonneg.
  assert (Hd : (0 < inject_Z (Zpos d))%Q) by reflexivity.
  assert (Eq : (a # d == inject_Z a / inject_Z (Zpos d))%Q)
    by apply Qmake_Qdiv.
  (* 2^(la-ld-1) < a/d < 2^(la-ld+1) *)
  assert (Hlo : (pow2 (la - ld - 1) <= a # d)%Q).
  { rewrite Eq. apply Qle_shift_div_l; [exact Hd|].
    apply Qle_trans with (pow2 (la - ld - 1) * pow2 (ld + 1))%Q.
    - apply Qmult_le_l; [apply pow2_pos|].
      rewrite pow2_Z by lia. rewrite <- Zle_Qle. lia.
    - rewrite <- pow2_add.
      replace (la - ld - 1 + (ld + 1))%Z with la by ring.
      rewrite pow2_Z by lia. now rewrite <- Zle_Qle. }
  assert (Hhi : (a # d < pow2 (la - ld + 1))%Q).
  { rewrite Eq. apply Qlt_shift_div_r; [exact Hd|].
    apply Qlt_le_trans with (pow2 (la - ld + 1) * pow2 ld)%Q.
    - rewrite <- pow2_add.
      replace (la - ld + 1 + ld)%Z with (la + 1)%Z by ring.
      rewrite pow2_Z by lia. now rewrite <- Zlt_Qlt.
    - apply Qmult_le_l; [apply pow2_pos|].
      rewrite pow2_Z by lia. now rewrite <- Zle_Qle. }
  destruct (Qle_bool (pow2 (la - ld)) (a # d)) eqn:E.
  - apply Qle_bool_iff in E. split; assumption.
  - assert (Hlt : (a # d < pow2 (la - ld))%Q).
    { apply Qnot_le_lt. intros H. apply Qle_bool_iff in H. congruence. }
    replace (la - ld - 1 + 1)%Z with (la - ld)%Z by ring.
    split; assumption.
Qed.

Lemma ilog2_mono x y : (0 < x)%Q -> (x <= y)%Q -> (ilog2 x <= ilog2 y)%Z.
Proof.
  intros Hx Hxy.
  assert (Hy : (0 < y)%Q) by (eapply Qlt_le_trans; eauto).
  destruct (ilog2_spec x Hx) as [H1 _]. destruct (ilog2_spec y Hy) as [_ H2].
  assert (H : (pow2 (ilog2 x) < pow2 (ilog2 y + 1))%Q).
  { eapply Qle_lt_trans; [exact H1|]. eapply Qle_lt_trans; eauto. }
  apply pow2_lt_inv in H. lia.
Qed.

Lemma ilog2_unique q e :
  (pow2 e <= q < pow2 (e + 1))%Q -> ilog2 q = e.
Proof.
  intros [H1 H2].
  assert (Hq : (0 < q)%Q) by (eapply Qlt_le_trans; [apply pow2_pos|exact H1]).
  destruct (ilog2_spec q Hq) as [H3 H4].
  assert (A : (pow2 e < pow2 (ilog2 q + 1))%Q) by (eapply Qle_lt_trans; eauto).
  assert (B : (pow2 (ilog2 q) < pow2 (e + 1))%Q) by (eapply Qle_lt_trans; eauto).
  apply pow2_lt_inv in A, B. lia.
Qed.

Lemma rne_bounds x : (Qfloor x <= rne x <= Qfloor x + 1)%Z.
Proof.
  unfold rne. destruct (x - inject_Z (Qfloor x) ?= 1 # 2)%Q; try lia.
  destruct (Z.even (Qfloor x)); lia.
Qed.

#[export] Instance rne_comp : Proper (Qeq ==> eq) rne.
Proof.
  intros x y E. unfold rne.
  assert (Ef : Qfloor x = Qfloor y) by (now apply Qfloor_comp).
  rewrite <- Ef.
  assert (C : (x - inject_Z (Qfloor x) ?= 1 # 2)%Q
              = (y - inject_Z (Qfloor x) ?= 1 # 2)%Q).
  { apply Qcompare_comp; [|reflexivity].
    apply Qplus_comp; [exact E|reflexivity]. }
  now rewrite C.
Qed.

Lemma rne_Z n : rne (inject_Z n) = n.
Proof.
  unfold rne. rewrite Qfloor_Z.
  assert (E : (inject_Z n - inject_Z n ?= 1 # 2)%Q = Lt).
  { apply -> Qlt_alt. lra. }
  now rewrite E.
Qed.

Lemma rne_mono x y : (x <= y)%Q -> (rne x <= rne y)%Z.
Proof.
  intros H. pose proof (Qfloor_resp_le x y H) as Hf.
  pose proof (rne_bounds x) as Bx. pose proof (rne_bounds y) as By.
  destruct (Z.eq_dec (Qfloor x) (Qfloor y)) as [E|NE]; [|lia].
  unfold rne in *. rewrite <- E in *.
  destruct (x - inject_Z (Qfloor x) ?= 1 # 2)%Q eqn:Cx;
    destruct (y - inject_Z (Qfloor x) ?= 1 # 2)%Q eqn:Cy;
    try lia;
    try (destruct (Z.even (Qfloor x)); lia);
    exfalso;
    repeat match goal with
           | H : (_ ?= _)%Q = Eq |- _ => apply Qeq_alt in H
           | H : (_ ?= _)%Q = Lt |- _ => apply Qlt_alt in H
           | H : (_ ?= _)%Q = Gt |- _ => apply Qgt_alt in H
           end; lra.
Qed.

(** A positive number rounds to a number of its own binade, or to the
    power of two that closes it. *)
Lemma round_pos_bounds q :
  (0 < q)%Q ->
  (pow2 (ilog2 q) <= round_pos q <= pow2 (ilog2 q + 1))%Q.
Proof.
  intros Hq. destruct (ilog2_spec q Hq) as [H1 H2].
  unfold round_pos. set (e := ilog2 q) in *.
  set (x := (q * pow2 (52 - e))%Q).
  assert (Hx1 : (pow2 52 <= x)%Q).
  { unfold x. rewrite <- (pow2_cancel e 52).
    apply Qmult_le_r; [apply pow2_pos|exact H1]. }
  assert (Hx2 : (x <= pow2 53)%Q).
  { unfold x. rewrite <- (pow2_cancel (e + 1) 53).
    replace (53 - (e + 1))%Z with (52 - e)%Z by ring.
    apply Qmult_le_r; [apply pow2_pos|]. now apply Qlt_le_weak. }
  assert (Hm1 : (2 ^ 52 <= rne x)%Z).
  { rewrite <- (rne_Z (2 ^ 52)). apply rne_mono.
    now rewrite <- pow2_Z by lia. }
  assert (Hm2 : (rne x <= 2 ^ 53)%Z).
  { rewrite <- (rne_Z (2 ^ 53)). apply rne_mono.
    now rewrite <- pow2_Z by lia. }
  split.
  - rewrite <- (pow2_cancel 52 e).
    apply Qmult_le_r; [apply pow2_pos|].
    rewrite pow2_Z by lia. now rewrite <- Zle_Qle.
  - rewrite <- (pow2_cancel 53 (e + 1)).
    replace (e + 1 - 53)%Z with (e - 52)%Z by ring.
    apply Qmult_le_r; [apply pow2_pos|].
    rewrite pow2_Z by lia. now rewrite <- Zle_Qle.
Qed.

Lemma round_pos_mono x y :
  (0 < x)%Q -> (x <= y)%Q -> (round_pos x <= round_pos y)%Q.
Proof.
  intros Hx Hxy.
  assert (Hy : (0 < y)%Q) by (eapply Qlt_le_trans; eauto).
  pose proof (ilog2_mono x y Hx Hxy) as He.
  destruct (Z.eq_dec (ilog2 x) (ilog2 y)) as [E|NE].
  - unfold round_pos. rewrite E.
    apply Qmult_le_r; [apply pow2_pos|]. rewrite <- Zle_Qle.
    apply rne_mono. apply Qmult_le_r; [apply pow2_pos|exact Hxy].
  - destruct (round_pos_bounds x Hx) as [_ H1].
    destruct (round_pos_bounds y Hy) as [H2 _].
    eapply Qle_trans; [exact H1|]. eapply Qle_trans; [|exact H2].
    apply pow2_le. lia.
Qed.

Lemma round_pos_pos q : (0 < q)%Q -> (0 < round_pos q)%Q.
Proof.
  intros H. eapply Qlt_le_trans; [apply pow2_pos|].
  apply (round_pos_bounds q H).
Qed.

Lemma round_mono x y : (x <= y)%Q -> (round x <= round y)%Q.
Proof.
  intros H. unfold round.
  destruct (x ?= 0)%Q eqn:Cx; destruct (y ?= 0)%Q eqn:Cy;
    repeat match goal with
           | H : (_ ?= _)%Q = Eq |- _ => apply Qeq_alt in H
           | H : (_ ?= _)%Q = Lt |- _ => apply Qlt_alt in H
           | H : (_ ?= _)%Q = Gt |- _ => apply Qgt_alt in H
           end;
    try (exfalso; lra).
  - apply Qle_refl.
  - apply Qlt_le_weak. now apply round_pos_pos.
  - assert (0 < round_pos (- x))%Q by (apply round_pos_pos; lra). lra.
  - assert (round_pos (- y) <= round_pos (- x))%Q
      by (apply round_pos_mono; lra).
    lra.
  - assert (0 < round_pos (- x))%Q by (apply round_pos_pos; lra).
    assert (0 < round_pos y)%Q by (now apply round_pos_pos). lra.
  - now apply round_pos_mono.
Qed.

#[export] Instance round_comp : Proper (Qeq ==> Qeq) round.
Proof.
  intros x y E. apply Qle_antisym; apply round_mono; rewrite E; apply Qle_refl.
Qed.

(** A number with at most 53 significant bits is left alone. *)
Lemma round_pos_exact q :
  (0 < q)%Q ->
  (exists m : Z, q * pow2 (52 - ilog2 q) == inject_Z m)%Q ->
  (round_pos q == q)%Q.
Proof.
  intros Hq [m Hm]. unfold round_pos. rewrite Hm, rne_Z, <- Hm.
  rewrite <- Qmult_assoc, <- pow2_add.
  replace (52 - ilog2 q + (ilog2 q - 52))%Z with 0%Z by ring.
  change (pow2 0) with 1%Q. ring.
Qed.

Lemma round_pos_int n :
  (0 < n <= 2 ^ 53)%Z -> (round_pos (inject_Z n) == inject_Z n)%Q.
Proof.
  intros Hn.
  assert (Hq : (0 < inject_Z n)%Q).
  { change 0%Q with (inject_Z 0). rewrite <- Zlt_Qlt. lia. }
  destruct (ilog2_spec _ Hq) as [H1 H2].
  set (e := ilog2 (inject_Z n)) in *.
  assert (He0 : (0 <= e)%Z).
  { assert (H : (pow2 0 < pow2 (e + 1))%Q).
    { eapply Qle_lt_trans; [|exact H2].
      change (pow2 0) with (inject_Z 1). rewrite <- Zle_Qle. lia. }
    apply pow2_lt_inv in H. lia. }
  assert (He1 : (e <= 53)%Z).
  { assert (H : (pow2 e < pow2 54)%Q).
    { eapply Qle_lt_trans; [exact H1|].
      rewrite (pow2_Z 54) by lia. rewrite <- Zlt_Qlt. lia. }
    apply pow2_lt_inv in H. lia. }
  destruct (Z.eq_dec e 53) as [E53|NE].
  - assert (En : n = (2 ^ 53)%Z).
    { rewrite E53 in H1. rewrite (pow2_Z 53) in H1 by lia.
      rewrite <- Zle_Qle in H1. lia. }
    subst n. vm_compute. reflexivity.
  - apply round_pos_exact; [exact Hq|]. fold e.
    exists (n * 2 ^ (52 - e))%Z.
    rewrite pow2_Z by lia. now rewrite inject_Z_mult.
Qed.

Lemma round_int n :
  (- 2 ^ 53 <= n <= 2 ^ 53)%Z -> (round (inject_Z n) == inject_Z n)%Q.
Proof.
  intros Hn. unfold round.
  destruct (inject_Z n ?= 0)%Q eqn:C.
  - apply Qeq_alt in C. now rewrite C.
  - apply Qlt_alt in C. change 0%Q with (inject_Z 0) in C.
    rewrite <- Zlt_Qlt in C.
    rewrite <- inject_Z_opp, round_pos_int by lia.
    rewrite inject_Z_opp. ring.
  - apply Qgt_alt in C. change 0%Q with (inject_Z 0) in C.
    rewrite <- Zlt_Qlt in C. apply round_pos_int. lia.
Qed.

Lemma round_pred_one : (round pred_one == pred_one)%Q.
Proof. vm_compute. reflexivity. Qed.

End NearestFacts.

#[export] Instance binary64_rounded : CorrectlyRounded binary64_model.
Proof.
  split; simpl; try reflexivity.
  - apply NearestFacts.round_mono.
  - intros n Hn. apply NearestFacts.round_int. exact Hn.
  - intros a b Ha Hb _. apply NearestFacts.round_comp.
    apply Qdiv_comp; now apply NearestFacts.round_int.
  - intros n x Hn _ _. apply NearestFacts.round_comp.
    apply Qmult_comp; [now apply NearestFacts.round_int|reflexivity].
  - intros x y _ _. apply Exact_ltb_lt.
Qed.

Section Geometry.

Context {F : PyFloat} {CR : CorrectlyRounded F}.
Local Open Scope Z_scope.

Lemma rnd_eq (x y : Q) : (x == y)%Q -> (float_rnd x == float_rnd y)%Q.
Proof.
  intros H. apply Qle_antisym; apply rnd_mono; rewrite H; apply Qle_refl.
Qed.

Lemma inject_two53 : (inject_Z two53 == 9007199254740992)%Q.
Proof. reflexivity. Qed.

Section Quotient.

Variables a w : Z.
Hypothesis Ha : int_range a.
Hypothesis Hw : 0 < w <= two53.

Let q : float := float_div (float_of_int a) (float_of_int w).

Lemma w_range : int_range w.
Proof. unfold int_range, two53 in *. lia. Qed.

Lemma quotient_finite : float_finite q = true.
Proof. apply div_finite; [exact Ha | exact w_range | lia]. Qed.

Lemma quotient_val : (float_val q == float_rnd (inject_Z a / inject_Z w))%Q.
Proof. apply div_val; [exact Ha | exact w_range | lia]. Qed.

Lemma inject_w_pos : (0 < inject_Z w)%Q.
Proof. unfold Qlt. simpl. lia. Qed.

Lemma quotient_below : a < w -> (float_val q <= pred_one)%Q.
Proof.
  intros H. rewrite quotient_val, <- rnd_pred_one. apply rnd_mono.
  apply Qle_shift_div_r; [exact inject_w_pos|].
  assert (H1 : (inject_Z a <= inject_Z w - 1)%Q).
  { unfold Qle, Qminus, Qplus. simpl. lia. }
  assert (H2 : (inject_Z w <= 9007199254740992)%Q).
  { unfold Qle. simpl. unfold two53 in Hw. lia. }
  unfold pred_one. lra.
Qed.

Lemma quotient_above : w <= a -> (1 <= float_val q)%Q.
Proof.
  intros H. rewrite quotient_val.
  assert (E : (float_rnd (inject_Z 1) == 1)%Q).
  { apply rnd_int. unfold int_range, two53. lia. }
  rewrite <- E. apply rnd_mono.
  apply Qle_shift_div_l; [exact inject_w_pos|].
  assert (H1 : (inject_Z w <= inject_Z a)%Q) by (now rewrite <- Zle_Qle).
  change (inject_Z 1) with 1%Q. lra.
Qed.

Lemma quotient_bounded : (Qabs (float_val q) <= inject_Z two53)%Q.
Proof.
  assert (Hx : (- inject_Z two53 <= inject_Z a / inject_Z w
                <= inject_Z two53)%Q).
  { pose proof inject_w_pos as Hp.
    assert (H1 : (1 <= inject_Z w)%Q).
    { change 1%Q with (inject_Z 1). rewrite <- Zle_Qle. lia. }
    assert (H2 : (- inject_Z two53 <= inject_Z a <= inject_Z two53)%Q).
    { unfold int_range in Ha. rewrite <- inject_Z_opp, <- !Zle_Qle. lia. }
    rewrite inject_two53 in *. split.
    - apply Qle_shift_div_l; [exact Hp|]. nra.
    - apply Qle_shift_div_r; [exact Hp|]. nra. }
  apply Qabs_Qle_condition. rewrite quotient_val. split.
  - assert (E : (float_rnd (inject_Z (- two53)) == inject_Z (- two53))%Q).
    { apply rnd_int. unfold int_range, two53. lia. }
    change (- inject_Z two53)%Q with (inject_Z (- two53)).
    rewrite <- E. apply rnd_mono. apply Hx.
  - assert (E : (float_rnd (inject_Z two53) == inject_Z two53)%Q).
    { apply rnd_int. unfold int_range, two53. lia. }
    rewrite <- E. apply rnd_mono. apply Hx.
Qed.

(** The factor [min(a / w, 1.0)]. *)
Let s : float := float_min q float_one.

Lemma scale_cases :
  (s = float_one /\ (1 < float_val q)%Q)
  \/ (s = q /\ (float_val q <= 1)%Q).
Proof.
  unfold s, float_min. destruct (float_lt float_one q) eqn:E.
  - left. split; [reflexivity|].
    apply (lt_val _ _ one_finite quotient_finite) in E.
    now rewrite one_val in E.
  - right. split; [reflexivity|].
    apply Qnot_lt_le. intros H. rewrite <- one_val in H.
    apply (lt_val _ _ one_finite quotient_finite) in H. congruence.
Qed.

Lemma scale_finite : float_finite s = true.
Proof.
  destruct scale_cases as [[-> _]|[-> _]];
    [exact one_finite | exact quotient_finite].
Qed.

Lemma scale_le_one : (float_val s <= 1)%Q.
Proof.
  destruct scale_cases as [[-> _]|[-> H]]; [|exact H].
  rewrite one_val. apply Qle_refl.
Qed.

Lemma scale_bounded : (Qabs (float_val s) <= inject_Z two53)%Q.
Proof.
  destruct scale_cases as [[-> _]|[-> _]]; [|exact quotient_bounded].
  rewrite one_val. rewrite inject_two53. apply Qabs_Qle_condition. lra.
Qed.

Lemma scale_not_above_one : float_lt float_one s = false.
Proof.
  destruct (float_lt float_one s) eqn:E; [|reflexivity].
  apply (lt_val _ _ one_finite scale_finite) in E.
  rewrite one_val in E. pose proof scale_le_one. lra.
Qed.

Lemma scale_below_one_iff : float_lt s float_one = true <-> a < w.
Proof.
  rewrite (lt_val _ _ scale_finite one_finite), one_val. split.
  - intros H. destruct (Z.lt_ge_cases a w) as [Hlt|Hge]; [exact Hlt|].
    pose proof (quotient_above Hge) as Hq.
    destruct scale_cases as [[E _]|[E _]]; rewrite E in H.
    + rewrite one_val in H. lra.
    + lra.
  - intros H. pose proof (quotient_below H) as Hq. unfold pred_one in Hq.
    destruct scale_cases as [[_ Habs]|[E _]]; [lra|].
    rewrite E. lra.
Qed.

Lemma scale_one : w <= a -> (float_val s == 1)%Q.
Proof.
  intros H. pose proof (quotient_above H) as Hq.
  destruct scale_cases as [[E _]|[E Hle]]; rewrite E.
  - apply one_val.
  - lra.
Qed.

(** [int(n * s)] for a positive size [n]. *)
Lemma scaled_val n :
  int_range n ->
  scaled n s = Qtrunc (float_val (float_mul (float_of_int n) s))
  /\ (float_val (float_mul (float_of_int n) s)
      == float_rnd (inject_Z n * float_val s))%Q.
Proof.
  intros Hn. split.
  - unfold scaled. apply trunc_val.
    apply mul_finite; [exact Hn | exact scale_finite | exact scale_bounded].
  - apply mul_val; [exact Hn | exact scale_finite | exact scale_bounded].
Qed.

Lemma scaled_le n : 0 < n <= two53 -> scaled n s <= n.
Proof.
  intros Hn.
  assert (Hr : int_range n) by (unfold int_range, two53 in *; lia).
  destruct (scaled_val n Hr) as [-> Hv]. apply Qtrunc_le.
  rewrite Hv. apply Qle_trans with (float_rnd (inject_Z n)).
  - apply rnd_mono.
    assert (Hp : (0 < inject_Z n)%Q).
    { change 0%Q with (inject_Z 0). rewrite <- Zlt_Qlt. lia. }
    pose proof scale_le_one. nra.
  - apply Qle_lteq. right. now apply rnd_int.
Qed.

Lemma scaled_same n : 0 < n <= two53 -> w <= a -> scaled n s = n.
Proof.
  intros Hn Hwa.
  assert (Hr : int_range n) by (unfold int_range, two53 in *; lia).
  destruct (scaled_val n Hr) as [-> Hv].
  assert (E : (float_val (float_mul (float_of_int n) s) == inject_Z n)%Q).
  { rewrite Hv. transitivity (float_rnd (inject_Z n)).
    - apply rnd_eq. rewrite (scale_one Hwa). ring.
    - now apply rnd_int. }
  apply Z.le_antisymm.
  - apply Qtrunc_le. rewrite E. apply Qle_refl.
  - apply Qtrunc_ge. rewrite E. apply Qle_refl.
Qed.

End Quotient.

(** The left and right margins of a pasted image differ by at most one
    pixel. *)
Lemma qr_x_centred (W nw : Z) :
  0 <= (W - (qr_x W nw + nw)) - qr_x W nw <= 1.
Proof.
  unfold qr_x.
  pose proof (Z.div_mod (W - nw) 2). pose proof (Z.mod_pos_bound (W - nw) 2).
  lia.
Qed.

End Geometry.

Section Rendered.

Context {F : PyFloat} {I : Imaging}.
Local Open Scope Z_scope.

(** What a label that was rendered says about the steps before it. *)
Lemma render_label_inv tl tr payload W box border lbl :
  render_label_pil tl tr payload W box border = inr lbl ->
  exists img s,
    qr_make_image payload box border = inr img
    /\ qr_scale W 30 (qr_width img) = inr s
    /\ label_width lbl = W
    /\ label_qr_size lbl
       = (scaled (qr_width img) s, scaled (qr_height img) s)
    /\ fst (label_qr_pos lbl) = qr_x W (scaled (qr_width img) s).
Proof.
  unfold render_label_pil.
  destruct (qr_make_image payload box border) as [e|img]; [discriminate|].
  cbn [bind].
  destruct (_wrap_title_lines _ W 30 8) as [e|[tls th]]; [discriminate|].
  cbn [bind].
  destruct (qr_scale W 30 (qr_width img)) as [e|s] eqn:Hs; [discriminate|].
  cbn [bind].
  match goal with
  | |- context [bind ?m _] => destruct m as [e|r]; [discriminate|]
  end.
  cbn [bind].
  destruct (image_new W _) as [e|[]]; [discriminate|]. cbn [bind].
  destruct (draw_title W 8 _ _ 30 []) as [drawn y].
  intros H. injection H as <-. exists img, s. cbn. repeat split. exact Hs.
Qed.

Lemma qr_scale_inv W pad w s :
  qr_scale W pad w = inr s ->
  w <> 0
  /\ s = float_min (float_div (float_of_int (W - 2 * pad)) (float_of_int w))
           float_one.
Proof.
  unfold qr_scale, truediv. destruct (w =? 0) eqn:E; [discriminate|].
  cbn. intros H. injection H as <-. split; [|reflexivity].
  now apply Z.eqb_neq.
Qed.

End Rendered.



(** ** The model against the kernel's floats *)

(** X1. At the one call of the renderer (canvas width 800, box size 10,
    border 4), for each of the 40 symbol versions, binary64 arithmetic gives the
    resized side [min(740, natural side)]. *)
Lemma call_site_sides :
  forallb
    (fun v => option_Z_eqb (hardware_side 800 (natural_side v))
                           (Some (Z.min 740 (natural_side v))))
    (seq 1 40)
  = true.
Proof. vm_compute. reflexivity. Qed.

(** X2. The rounding model computes the sides the kernel's floats compute, at
    the call of the renderer and on every canvas width from 61 to 120 with
    every natural side from 1 to 60. *)
Lemma model_sides_are_hardware_sides :
  forallb
    (fun v => option_Z_eqb (model_side 800 (natural_side v))
                           (hardware_side 800 (natural_side v)))
    (seq 1 40)
  = true
  /\ forallb
       (fun p => option_Z_eqb (model_side (fst p) (snd p))
                              (hardware_side (fst p) (snd p)))
       (list_prod (map Z.of_nat (seq 61 60)) (map Z.of_nat (seq 1 60)))
     = true.
Proof. split; vm_compute; reflexivity. Qed.

(** An example: the resized side can be one pixel short of the width left
    by the padding: 13 pixels are free on a canvas of 73, and a bitmap of
    side 23 is resized to 12. *)
Lemma resized_side_one_short :
  hardware_side 73 23 = Some 12%Z /\ model_side 73 23 = Some 12%Z.
Proof. split; vm_compute; reflexivity. Qed.

(** ** A run of the handler *)

(** An example: a biomass record "eucalyptus bark" from "farm A", collected
    on 01/02/2023, without notes, in the STRUCTURED format: the payload carries
    the title-cased names, the ISO date and empty notes, and the label is
    800 pixels wide and taller than its QR image. *)
Lemma end_to_end_biomass :
  snd (generate_preview eucalyptus_page) = Shown
  /\ qr_content_out (output (fst (generate_preview eucalyptus_page)))
     = Some (make_payload_biomass (py "Eucalyptus Bark") (py "Farm A")
               (Some (py "2023-02-01")) (Some []))
  /\ current_png_name (output (fst (generate_preview eucalyptus_page)))
     = py "Eucalyptus_Bark_label.png"
  /\ option_map label_width
       (current_png_bytes (output (fst (generate_preview eucalyptus_page))))
     = Some 800%Z
  /\ option_map (fun l => (snd (label_qr_size l) <? label_height l)%Z)
       (current_png_bytes (output (fst (generate_preview eucalyptus_page))))
     = Some true.
Proof. repeat split; vm_compute; reflexivity. Qed.

(** * Further properties *)

(** ** Stripping and dates *)

Section StripFacts.

Context {U : Unicode}.

Lemma dropwhile_suffix p s : exists pre, s = pre ++ dropwhile p s.
Proof.
  induction s as [|c s [pre IH]]; simpl.
  - now exists [].
  - destruct (p c).
    + exists (c :: pre). simpl. now rewrite <- IH.
    + now exists [].
Qed.

Lemma dropwhile_stops p s :
  match dropwhile p s with
  | [] => True
  | c :: _ => p c = false
  end.
Proof.
  induction s as [|c s IH]; simpl; [exact I|].
  destruct (p c) eqn:E; [exact IH|exact E].
Qed.

(** What [strip] returns has no whitespace at either end. *)
Lemma strip_is_trimmed s : trimmed (strip s).
Proof.
  unfold strip, trimmed.
  set (a := dropwhile ch_isspace s).
  set (b := dropwhile ch_isspace (rev a)).
  rewrite rev_involutive. split; [|apply dropwhile_stops].
  destruct (dropwhile_suffix ch_isspace (rev a)) as [pre Hpre]. fold b in Hpre.
  apply (f_equal (@rev char)) in Hpre.
  rewrite rev_involutive, rev_app_distr in Hpre.
  destruct (rev b) as [|c r]; [exact I|].
  pose proof (dropwhile_stops ch_isspace s) as Hs. fold a in Hs.
  rewrite Hpre in Hs. exact Hs.
Qed.

Lemma strip_idempotent s : strip (strip s) = strip s.
Proof. apply strip_trimmed. apply strip_is_trimmed. Qed.

End StripFacts.

Section DateFacts.

Context {U : Unicode} {L : UnicodeLaws U}.

Lemma separator_not_digit sep :
  sep = 47%N \/ sep = 45%N -> ch_isdigit sep = false.
Proof. intros [-> | ->]; now rewrite isdigit_ascii. Qed.

Lemma normalize_date_dmy_digits d1 d2 m1 m2 y1 y2 y3 y4 sep :
  sep = 47%N \/ sep = 45%N ->
  forallb ch_isdigit [d1; d2; m1; m2; y1; y2; y3; y4] = true ->
  _normalize_date [d1; d2; sep; m1; m2; sep; y1; y2; y3; y4]
  = [y1; y2; y3; y4; 45%N; m1; m2; 45%N; d1; d2].
Proof.
  intros Hsep Hd. pose proof (separator_not_digit sep Hsep) as Hnd.
  cbn [forallb] in Hd. repeat (apply andb_true_iff in Hd as [? Hd]).
  unfold _normalize_date. cbn [str_or].
  rewrite strip_trimmed.
  2:{ unfold trimmed. cbn [rev app]. split; now apply digit_not_space. }
  cbn [truthy negb]. unfold fullmatch_ymd, fullmatch_dmy.
  repeat match goal with H : ch_isdigit _ = true |- _ => rewrite H; clear H end.
  rewrite Hnd. cbn [andb].
  destruct Hsep as [-> | ->]; reflexivity.
Qed.

Lemma fullmatch_dmy_gives_ymd sep s dd mm yyyy :
  fullmatch_dmy sep s = Some (dd, mm, yyyy) ->
  fullmatch_ymd (yyyy ++ py "-" ++ mm ++ py "-" ++ dd) = true.
Proof.
  unfold fullmatch_dmy.
  do 11 (destruct s as [|? s]; try discriminate).
  match goal with |- context [if ?b then _ else _] => destruct b eqn:E end;
    [|discriminate].
  intros H. injection H as <- <- <-.
  repeat (apply andb_true_iff in E as [E ?]).
  cbn. repeat match goal with H : ch_isdigit _ = true |- _ => rewrite H end.
  reflexivity.
Qed.

Lemma normalize_date_fixed s :
  _normalize_date (_normalize_date s) = _normalize_date s
  /\ strip (_normalize_date s) = _normalize_date s.
Proof.
  assert (Hy : forall t, fullmatch_ymd t = true ->
                 _normalize_date t = t /\ strip t = t).
  { intros t Ht. split; [now apply normalize_date_ymd|].
    apply strip_trimmed. now apply fullmatch_ymd_trimmed. }
  remember (_normalize_date s) as r eqn:Hr.
  unfold _normalize_date in Hr. rewrite str_or_nil in Hr.
  set (t := strip s) in Hr.
  assert (Hst : strip t = t) by (unfold t; apply strip_idempotent).
  destruct (truthy t) eqn:Et; cbn [negb] in Hr.
  2:{ subst r. split; reflexivity. }
  destruct (fullmatch_ymd t) eqn:Ey; [subst r; now apply Hy|].
  destruct (fullmatch_dmy 47%N t) as [[[dd mm] yyyy]|] eqn:Es.
  { subst r. apply Hy. eapply fullmatch_dmy_gives_ymd; eauto. }
  destruct (fullmatch_dmy 45%N t) as [[[dd mm] yyyy]|] eqn:Ed.
  { subst r. apply Hy. eapply fullmatch_dmy_gives_ymd; eauto. }
  subst r. split; [|exact Hst].
  rewrite normalize_date_other; rewrite Hst; auto.
  intros E. rewrite E in Et. discriminate.
Qed.

End DateFacts.

(** ** Title-casing of ASCII text *)

Ltac ascii_cases :=
  repeat match goal with
         | |- context [if ?b then _ else _] => destruct b eqn:?
         | H : context [if ?b then _ else _] |- _ => destruct b eqn:?
         end;
  repeat match goal with
         | H : _ && _ = false |- _ => apply andb_false_iff in H as [?|?]
         | H : _ || _ = false |- _ => apply orb_false_iff in H as [? ?]
         end;
  bool_lia.

Module AsciiCase.

Import Ascii7.

Lemma upper_ch_idem c : upper_ch (upper_ch c) = upper_ch c.
Proof. unfold upper_ch, islower_ch. ascii_cases. Qed.

Lemma lower_ch_idem c : lower_ch (lower_ch c) = lower_ch c.
Proof. unfold lower_ch, isupper_ch. ascii_cases. Qed.

Lemma upper_ch_space c : isspace (upper_ch c) = isspace c.
Proof.
  unfold upper_ch, islower_ch, isspace.
  destruct ((97 <=? c)%N && (c <=? 122)%N) eqn:E; [|reflexivity].
  bool_lia.
  replace (9 <=? c - 32)%N with true by (symmetry; apply N.leb_le; lia).
  replace (c - 32 <=? 13)%N with false by (symmetry; apply N.leb_gt; lia).
  replace (9 <=? c)%N with true by (symmetry; apply N.leb_le; lia).
  replace (c <=? 13)%N with false by (symmetry; apply N.leb_gt; lia).
  replace (c - 32 <=? 32)%N with false by (symmetry; apply N.leb_gt; lia).
  replace (c <=? 32)%N with false by (symmetry; apply N.leb_gt; lia).
  now rewrite !andb_false_r.
Qed.

Lemma lower_ch_space c : isspace (lower_ch c) = isspace c.
Proof.
  unfold lower_ch, isupper_ch, isspace.
  destruct ((65 <=? c)%N && (c <=? 90)%N) eqn:E; [|reflexivity].
  bool_lia.
  replace (c + 32 <=? 13)%N with false by (symmetry; apply N.leb_gt; lia).
  replace (c <=? 13)%N with false by (symmetry; apply N.leb_gt; lia).
  replace (c + 32 <=? 32)%N with false by (symmetry; apply N.leb_gt; lia).
  replace (c <=? 32)%N with false by (symmetry; apply N.leb_gt; lia).
  now rewrite !andb_false_r.
Qed.

Lemma upper_ch_ascii c : is_ascii c = true -> is_ascii (upper_ch c) = true.
Proof.
  unfold is_ascii, upper_ch, islower_ch. intros H.
  destruct ((97 <=? c)%N && (c <=? 122)%N); [|exact H].
  apply N.ltb_lt in H. apply N.ltb_lt. lia.
Qed.

Lemma lower_ch_ascii c : is_ascii c = true -> is_ascii (lower_ch c) = true.
Proof.
  unfold is_ascii, lower_ch, isupper_ch. intros H.
  destruct ((65 <=? c)%N && (c <=? 90)%N) eqn:E; [|exact H].
  bool_lia. apply N.ltb_lt. lia.
Qed.

End AsciiCase.

Section AsciiTitlecase.

(** Everything here is about the ASCII tables. *)
Local Existing Instance ascii_unicode.

Lemma Tokens_are_tokens s toks : Tokens s toks -> Forall token toks.
Proof.
  induction 1 as [ws Hws | ws t rest toks Hws Ht Hn Hr _ IH];
    constructor; [split|]; assumption.
Qed.

Lemma Tokens_none_blank s : Tokens s [] -> all_space s.
Proof. intros H. inversion H. assumption. Qed.

Lemma no_space_map (g : char -> char) s :
  (forall c, Ascii7.isspace (g c) = Ascii7.isspace c) ->
  no_space s -> no_space (map g s).
Proof.
  intros Hg. unfold no_space. simpl.
  induction s as [|c s IH]; simpl; [auto|].
  intros H. apply andb_true_iff in H as [Hc Hs].
  now rewrite Hg, Hc, IH.
Qed.

Lemma no_space_firstn n s : no_space s -> no_space (firstn n s).
Proof.
  unfold no_space. revert n.
  induction s as [|c s IH]; intros [|n] H; simpl; auto.
  simpl in H. apply andb_true_iff in H as [Hc Hs]. now rewrite Hc, IH.
Qed.

Lemma no_space_skipn n s : no_space s -> no_space (skipn n s).
Proof.
  unfold no_space. revert n.
  induction s as [|c s IH]; intros [|n] H; simpl; auto.
  simpl in H. apply andb_true_iff in H as [Hc Hs]. now apply IH.
Qed.

Lemma render_token_cons c r :
  render_token (c :: r) = c :: r
  \/ render_token (c :: r) = Ascii7.upper_ch c :: Ascii7.lower r.
Proof.
  unfold render_token.
  destruct ((length (c :: r) <=? 3)%nat && str_isupper (c :: r));
    [now left|now right].
Qed.

Lemma render_token_token t : token t -> token (render_token t).
Proof.
  intros [Hne Hns]. destruct t as [|c r]; [congruence|].
  destruct (render_token_cons c r) as [-> | ->]; [now split|].
  split; [discriminate|].
  change (Ascii7.upper_ch c :: Ascii7.lower r)
    with (map Ascii7.upper_ch [c] ++ map Ascii7.lower_ch r).
  apply no_space_app.
  - apply no_space_map; [apply AsciiCase.upper_ch_space|].
    now apply (no_space_firstn 1 (c :: r)).
  - apply no_space_map; [apply AsciiCase.lower_ch_space|].
    now apply (no_space_skipn 1 (c :: r)).
Qed.

Lemma lower_idem r : Ascii7.lower (Ascii7.lower r) = Ascii7.lower r.
Proof.
  unfold Ascii7.lower. rewrite map_map. apply map_ext.
  apply AsciiCase.lower_ch_idem.
Qed.

(** Rendering a rendered token changes nothing. *)
Lemma render_token_idem t : render_token (render_token t) = render_token t.
Proof.
  destruct t as [|c r]; [reflexivity|].
  destruct (render_token_cons c r) as [E | E]; rewrite E.
  - exact E.
  - destruct (render_token_cons (Ascii7.upper_ch c) (Ascii7.lower r))
      as [E' | E']; rewrite E'; [reflexivity|].
    now rewrite AsciiCase.upper_ch_idem, lower_idem.
Qed.

Lemma render_token_ascii_str t :
  is_ascii_str t = true -> is_ascii_str (render_token t) = true.
Proof.
  intros H. destruct t as [|c r]; [reflexivity|].
  destruct (render_token_cons c r) as [-> | ->]; [exact H|].
  simpl in H. apply andb_true_iff in H as [Hc Hr]. simpl.
  rewrite (AsciiCase.upper_ch_ascii c Hc). simpl.
  clear Hc. induction r as [|x r IH]; [reflexivity|].
  simpl in Hr. apply andb_true_iff in Hr as [Hx Hr]. simpl.
  now rewrite (AsciiCase.lower_ch_ascii x Hx), IH.
Qed.

(** Tokens joined by single spaces are found again. *)
Lemma Tokens_join ts : Forall token ts -> Tokens (join [32%N] ts) ts.
Proof.
  induction 1 as [|t ts [Hne Hns] Hts IH].
  - apply Tokens_nil. reflexivity.
  - destruct ts as [|t' ts'].
    + cbn [join]. rewrite <- (app_nil_r t) at 1.
      apply (Tokens_cons (ws:=[]) (t:=t) (rest:=[]));
        auto; try reflexivity; try exact I;
        try (apply Tokens_nil; reflexivity).
    + change (join [32%N] (t :: t' :: ts'))
        with ([] ++ t ++ [32%N] ++ join [32%N] (t' :: ts')).
      apply Tokens_cons; auto; try reflexivity;
        try (apply Tokens_space_cons; [reflexivity|exact IH]).
Qed.

Lemma join_nonempty t ts : t <> [] -> join [32%N] (t :: ts) <> [].
Proof. destruct t; [congruence|]. destruct ts; discriminate. Qed.

Lemma join_trimmed ts : Forall token ts -> trimmed (join [32%N] ts).
Proof.
  intros H. split.
  - destruct H as [|t ts [Hne Hns] _]; [exact I|].
    destruct t as [|c r]; [congruence|].
    unfold no_space in Hns. simpl in Hns.
    apply andb_true_iff in Hns as [Hc _]. apply negb_true_iff in Hc.
    destruct ts; simpl; exact Hc.
  - induction H as [|t ts [Hne Hns] Hts IH]; [exact I|].
    destruct ts as [|t' ts'].
    + cbn [join]. unfold no_space in Hns. rewrite <- forallb_rev in Hns.
      destruct (rev t) as [|c r] eqn:E; [exact I|].
      simpl in Hns. apply andb_true_iff in Hns as [Hc _].
      now apply negb_true_iff in Hc.
    + assert (Hj : join [32%N] (t' :: ts') <> []).
      { inversion Hts as [|? ? [Hne' _] _]. subst.
        now apply join_nonempty. }
      change (join [32%N] (t :: t' :: ts'))
        with (t ++ [32%N] ++ join [32%N] (t' :: ts')).
      set (j := join [32%N] (t' :: ts')) in *.
      rewrite !rev_app_distr.
      destruct (rev j) as [|c r] eqn:E.
      * apply (f_equal (@rev char)) in E.
        rewrite rev_involutive in E. simpl in E. congruence.
      * change (@rev N j) with (@rev char j). rewrite E. exact IH.
Qed.

Lemma split_titlecase s :
  split (_titlecase s) = map render_token (split s).
Proof.
  rewrite titlecase_unfold. unfold titlecase_spec. symmetry.
  apply Tokens_split. apply Tokens_join.
  pose proof (Tokens_are_tokens s (split s) (split_Tokens s)) as H.
  induction H; constructor; auto using render_token_token.
Qed.

Lemma titlecase_idem s : _titlecase (_titlecase s) = _titlecase s.
Proof.
  rewrite (titlecase_unfold (_titlecase s)), split_titlecase.
  rewrite (titlecase_unfold s). unfold titlecase_spec. f_equal.
  rewrite map_map. apply map_ext. apply render_token_idem.
Qed.

Lemma strip_titlecase s : strip (_titlecase s) = _titlecase s.
Proof.
  apply strip_trimmed. rewrite titlecase_unfold. apply join_trimmed.
  pose proof (Tokens_are_tokens s (split s) (split_Tokens s)) as H.
  induction H; constructor; auto using render_token_token.
Qed.

Lemma titlecase_nonblank s : strip s <> [] -> _titlecase s <> [].
Proof.
  intros H. rewrite titlecase_unfold. unfold titlecase_spec.
  pose proof (split_Tokens s) as HT.
  destruct (split s) as [|t ts] eqn:E.
  - exfalso. apply H. apply all_space_strip. now apply Tokens_none_blank.
  - pose proof (Tokens_are_tokens _ _ HT) as HF.
    inversion HF as [|? ? Ht _]. subst. simpl map.
    apply join_nonempty. apply render_token_token in Ht. apply Ht.
Qed.

Lemma titlecase_ascii_str s :
  is_ascii_str s = true -> is_ascii_str (_titlecase s) = true.
Proof.
  intros H. rewrite titlecase_unfold. unfold titlecase_spec, split.
  destruct (split_from_ascii (U:=ascii_unicode) s [] H eq_refl) as [_ A].
  induction (split_from [] s) as [|t ts IH]; [reflexivity|].
  simpl in A. apply andb_true_iff in A as [At Ats].
  pose proof (render_token_ascii_str t At) as Hr.
  destruct ts as [|t' ts'].
  - exact Hr.
  - change (join [32%N] (map render_token (t :: t' :: ts')))
      with (render_token t ++ [32%N]
            ++ join [32%N] (map render_token (t' :: ts'))).
    rewrite !is_ascii_str_app, Hr, (IH Ats). reflexivity.
Qed.

End AsciiTitlecase.



(** X4. Normalising a date twice is normalising it once, and a normalised
    date has no whitespace at either end; so the builders, which normalise
    the date they are given, build the same payload from a date and from
    that date already normalised, as the handler passes it. *)
Theorem normalize_date_idempotent {U : Unicode} {L : UnicodeLaws U}
    {F : PyFloat} (s : str) :
  _normalize_date (_normalize_date s) = _normalize_date s
  /\ strip (_normalize_date s) = _normalize_date s
  /\ (forall sn pr bm rt t r notes,
        make_payload_biochar sn pr bm rt t r (Some (_normalize_date s)) notes
        = make_payload_biochar sn pr bm rt t r (Some s) notes
        /\ make_text_biochar sn pr bm rt t r (Some (_normalize_date s)) notes
           = make_text_biochar sn pr bm rt t r (Some s) notes)
  /\ (forall bn og notes,
        make_payload_biomass bn og (Some (_normalize_date s)) notes
        = make_payload_biomass bn og (Some s) notes
        /\ make_text_biomass bn og (Some (_normalize_date s)) notes
           = make_text_biomass bn og (Some s) notes).
Proof.
  destruct (normalize_date_fixed s) as [H1 H2].
  split; [exact H1|]. split; [exact H2|].
  split; intros; split;
    unfold make_payload_biochar, make_text_biochar, lines_biochar,
           make_payload_biomass, make_text_biomass, lines_biomass;
    cbn [opt_or]; rewrite !str_or_nil, H1; reflexivity.
Qed.

Lemma normalize_date_idempotent_witness :
  _normalize_date (U:=ascii_unicode)
    (_normalize_date (U:=ascii_unicode) (py " 05/03/2024 "))
  = py "2024-03-05".
Proof.
  destruct (@normalize_date_idempotent ascii_unicode ascii_unicode_laws
              exact_float (py " 05/03/2024 ")) as [H _].
  rewrite H. vm_compute. reflexivity.
Defined.

Section TitlecaseTransfer.

Context {U : Unicode} {L : UnicodeLaws U}.

Lemma titlecase_ascii_facts s :
  is_ascii_str s = true ->
  _titlecase (_titlecase s) = _titlecase s
  /\ strip (_titlecase s) = _titlecase s
  /\ split (_titlecase s) = map render_token (split s)
  /\ is_ascii_str (_titlecase s) = true
  /\ (strip s <> [] -> _titlecase s <> []).
Proof.
  intros H.
  pose proof (titlecase_ascii_str s H) as Hr.
  rewrite (titlecase_ascii s H).
  set (r := _titlecase (U:=ascii_unicode) s) in *.
  split; [|split; [|split; [|split]]].
  - rewrite (titlecase_ascii r Hr). apply titlecase_idem.
  - destruct (strip_ascii r Hr) as [-> _]. apply strip_titlecase.
  - unfold split.
    destruct (split_from_ascii r [] Hr eq_refl) as [-> _].
    destruct (split_from_ascii s [] H eq_refl) as [-> A].
    rewrite (map_render_ascii _ A). apply split_titlecase.
  - exact Hr.
  - intros Hs. apply titlecase_nonblank.
    destruct (strip_ascii s H) as [E _]. now rewrite <- E.
Qed.

End TitlecaseTransfer.

(** X5. On ASCII text, title-casing gives a normal form: doing it again
    changes nothing, the result has no whitespace at either end, its tokens
    are the rendered tokens of the input (so every run of whitespace has
    become one space), it is ASCII, and it is empty only when the input is
    blank. *)
Theorem titlecase_ascii_normal_form {U : Unicode} {L : UnicodeLaws U}
    (s : str) :
  is_ascii_str s = true ->
  _titlecase (_titlecase s) = _titlecase s
  /\ strip (_titlecase s) = _titlecase s
  /\ split (_titlecase s) = map render_token (split s)
  /\ is_ascii_str (_titlecase s) = true
  /\ (strip s <> [] -> _titlecase s <> []).
Proof. apply titlecase_ascii_facts. Qed.

Lemma titlecase_ascii_normal_form_witness :
  _titlecase (U:=ascii_unicode)
    (_titlecase (U:=ascii_unicode) (py "  wood   ASH of oak "))
  = py "Wood ASH Of Oak"
  /\ split (U:=ascii_unicode)
       (_titlecase (U:=ascii_unicode) (py "  wood   ASH of oak "))
     = [py "Wood"; py "ASH"; py "Of"; py "Oak"].
Proof.
  destruct (@titlecase_ascii_normal_form ascii_unicode ascii_unicode_laws
              (py "  wood   ASH of oak ")) as (H1 & _ & H3 & _).
  - vm_compute. reflexivity.
  - split.
    + rewrite H1. vm_compute. reflexivity.
    + rewrite H3. vm_compute. reflexivity.
Defined.

(** ** The handler on ASCII fields *)

(** X6. On the biochar tab with ASCII text in the name and biomass fields,
    the handler returns early exactly when the sample name is blank.
    Otherwise the label title, the sample name in the payload and the text
    left in the name field are one and the same title-cased name: the
    stripping and the second title-casing of the handler change nothing. *)
Theorem biochar_name_check_exact {U : Unicode} {L : UnicodeLaws U}
    {F : PyFloat} {I : Imaging} (p : Page) :
  let name := opt_or (tf_sample_name (form p)) [] in
  let bm := opt_or (tf_biomass (form p)) [] in
  let f := _titlecase_all_biochar (form p) in
  tab_selected_index (form p) = 0%Z ->
  is_ascii_str name = true -> is_ascii_str bm = true ->
  (snd (build_payload p) = None <-> strip name = [])
  /\ (strip name <> [] ->
      exists p1 job,
        build_payload p = (p1, Some job)
        /\ tf_sample_name (form p1) = Some (_titlecase name)
        /\ job_title_left job = _titlecase name
        /\ job_title_right job = _titlecase bm
        /\ current_png_name (output p1) = png_name (_titlecase name)
        /\ job_payload job
           = (if str_eqb (opt_or (dd_format (form p)) (py "Informações"))
                         (py "Informações")
              then make_text_biochar (_titlecase name)
                     (strip (opt_or (tf_producer f) [])) (_titlecase bm)
                     (strip (opt_or (tf_reactor f) []))
                     (parse_number (tf_pyroC (form p)))
                     (parse_number (tf_res_min (form p)))
                     (Some (_normalize_date (opt_or (tf_prod_date (form p)) [])))
                     (Some (opt_or (tf_notes_bc (form p)) []))
              else make_payload_biochar (_titlecase name)
                     (strip (opt_or (tf_producer f) [])) (_titlecase bm)
                     (strip (opt_or (tf_reactor f) []))
                     (parse_number (tf_pyroC (form p)))
                     (parse_number (tf_res_min (form p)))
                     (Some (_normalize_date (opt_or (tf_prod_date (form p)) [])))
                     (Some (opt_or (tf_notes_bc (form p)) [])))).
Proof.
  intros name bm f Ht Hn Hb.
  destruct (titlecase_ascii_facts name Hn) as (Hn1 & Hn2 & _ & _ & Hn5).
  destruct (titlecase_ascii_facts bm Hb) as (Hb1 & Hb2 & _).
  assert (Hsome : strip name <> [] ->
            exists p1 job,
              build_payload p = (p1, Some job)
              /\ tf_sample_name (form p1) = Some (_titlecase name)
              /\ job_title_left job = _titlecase name
              /\ job_title_right job = _titlecase bm
              /\ current_png_name (output p1) = png_name (_titlecase name)
              /\ job_payload job
                 = (if str_eqb (opt_or (dd_format (form p)) (py "Informações"))
                               (py "Informações")
                    then make_text_biochar (_titlecase name)
                           (strip (opt_or (tf_producer f) []))
                           (_titlecase bm)
                           (strip (opt_or (tf_reactor f) []))
                           (parse_number (tf_pyroC (form p)))
                           (parse_number (tf_res_min (form p)))
                           (Some (_normalize_date
                                    (opt_or (tf_prod_date (form p)) [])))
                           (Some (opt_or (tf_notes_bc (form p)) []))
                    else make_payload_biochar (_titlecase name)
                           (strip (opt_or (tf_producer f) []))
                           (_titlecase bm)
                           (strip (opt_or (tf_reactor f) []))
                           (parse_number (tf_pyroC (form p)))
                           (parse_number (tf_res_min (form p)))
                           (Some (_normalize_date
                                    (opt_or (tf_prod_date (form p)) [])))
                           (Some (opt_or (tf_notes_bc (form p)) [])))).
  { intros Hs. pose proof (Hn5 Hs) as Hne.
    unfold build_payload. rewrite Ht. cbn [Z.eqb]. fold f.
    assert (E1 : strip (opt_or (tf_sample_name f) []) = _titlecase name).
    { unfold f. cbn [_titlecase_all_biochar tf_sample_name opt_or].
      rewrite str_or_nil. exact Hn2. }
    assert (E2 : strip (opt_or (tf_biomass f) []) = _titlecase bm).
    { unfold f. cbn [_titlecase_all_biochar tf_biomass opt_or].
      rewrite str_or_nil. exact Hb2. }
    rewrite E1, E2, Hn1, Hb1.
    assert (Htr : truthy (_titlecase name) = true).
    { destruct (_titlecase name); [congruence|reflexivity]. }
    rewrite Htr. cbn [negb]. eexists _, _. split; [reflexivity|].
    cbn [form output job_title_left job_title_right job_payload].
    repeat split. }
  split; [|exact Hsome].
  split.
  - intros Hnone.
    destruct (list_eq_dec N.eq_dec (strip name) []) as [E|NE]; [exact E|].
    destruct (Hsome NE) as (p1 & job & Hbp & _).
    rewrite Hbp in Hnone. discriminate.
  - intros Hs. now rewrite (build_payload_biochar_blank p Ht Hs).
Qed.

Lemma biochar_name_check_exact_witness :
  snd (build_payload bad_number_page) <> None
  /\ option_map job_title_left (snd (build_payload bad_number_page))
     = Some (py "Lote 7").
Proof.
  destruct (@biochar_name_check_exact ascii_unicode ascii_unicode_laws
              exact_float reference_imaging bad_number_page)
    as [Hiff Hsome]; try (vm_compute; reflexivity).
  split.
  - intros Hnone. apply Hiff in Hnone. vm_compute in Hnone. discriminate.
  - destruct Hsome as (p1 & job & Hb & _ & Hl & _).
    + vm_compute. discriminate.
    + rewrite Hb. cbn [snd option_map]. rewrite Hl. vm_compute. reflexivity.
Defined.

(** ** The STRUCTURED payload as text *)

Module PayloadText.

Import Json.

Ltac literal_printable :=
  apply Forall_forall; intros ? Hin; vm_compute in Hin;
  unfold printable; intuition lia.

Lemma escape_char_printable c : Forall printable (escape_char c).
Proof.
  destruct (N.ltb_spec c 32) as [Hlt|Hge].
  - assert (E : In c (map N.of_nat (seq 0 32))).
    { apply in_map_iff. exists (N.to_nat c). split; [lia|].
      apply in_seq. lia. }
    cbv [seq map] in E. simpl in E.
    repeat (destruct E as [E|E]; [subst c; literal_printable|]).
    contradiction.
  - destruct (N.eq_dec c 34) as [->|H1]; [literal_printable|].
    destruct (N.eq_dec c 92) as [->|H2]; [literal_printable|].
    rewrite JsonFacts.escape_char_plain by assumption.
    repeat constructor. exact Hge.
Qed.

Lemma encode_basestring_printable s : Forall printable (encode_basestring s).
Proof.
  unfold encode_basestring. apply Forall_app. split.
  - repeat constructor. unfold printable. lia.
  - apply Forall_app. split; [|literal_printable].
    induction s as [|c s IH]; simpl; [constructor|].
    apply Forall_app. split; [apply escape_char_printable|exact IH].
Qed.

Lemma join_printable sep l :
  Forall printable sep -> Forall (Forall printable) l ->
  Forall printable (join sep l).
Proof.
  intros Hsep H. induction H as [|x l Hx Hl IH]; [constructor|].
  destruct l as [|y l']; [exact Hx|].
  change (join sep (x :: y :: l')) with (x ++ sep ++ join sep (y :: l')).
  apply Forall_app. split; [exact Hx|].
  apply Forall_app. split; [exact Hsep|exact IH].
Qed.

Lemma dumps_printable {F : PyFloat} (d : list (str * value)) :
  Forall (fun kv => Forall printable (encode_value (snd kv))) d ->
  Forall printable (dumps d).
Proof.
  intros H. unfold dumps.
  apply Forall_app. split; [literal_printable|].
  apply Forall_app. split; [|literal_printable].
  apply join_printable; [literal_printable|].
  induction H as [|kv d Hkv Hd IH]; simpl; constructor; [|exact IH].
  unfold encode_item. apply Forall_app. split;
    [apply encode_basestring_printable|].
  apply Forall_app. split;
    [literal_printable|exact Hkv].
Qed.

End PayloadText.

Module JsonReadFacts.

Import Json JsonRead.

Lemma skip_ws_quote s rest :
  skip_ws (encode_basestring s ++ rest) = encode_basestring s ++ rest.
Proof. reflexivity. Qed.

Lemma read_member_space s : read_member (32%N :: s) = read_member s.
Proof. reflexivity. Qed.

Lemma read_value_text v rest :
  read_value (encode_basestring v ++ rest) = Some (Text v, rest).
Proof.
  unfold read_value.
  change (encode_basestring v ++ rest)
    with (34%N :: (flat_map escape_char v ++ [34%N]) ++ rest) at 1.
  cbn [N.eqb Pos.eqb].
  now rewrite JsonFacts.scanstring_encode.
Qed.

Lemma take_raw_bare x c rest :
  forallb (fun c => negb (is_delim c)) x = true ->
  is_delim c = true ->
  take_raw (x ++ c :: rest) = (x, c :: rest).
Proof.
  intros Hx Hc. induction x as [|a x IH]; simpl.
  - now rewrite Hc.
  - simpl in Hx. apply andb_true_iff in Hx. destruct Hx as [Ha Hx].
    apply negb_true_iff in Ha. rewrite Ha, (IH Hx). reflexivity.
Qed.

Lemma read_value_raw x c rest :
  bare x -> is_delim c = true ->
  read_value (x ++ c :: rest) = Some (Raw x, c :: rest).
Proof.
  intros (Hne & Hx & Hq) Hc.
  pose proof (take_raw_bare _ _ rest Hx Hc) as E.
  destruct x as [|a x]; [contradiction|].
  simpl in Hq. apply N.eqb_neq in Hq.
  unfold read_value. cbn [app]. rewrite Hq.
  change (a :: x ++ c :: rest) with ((a :: x) ++ c :: rest).
  now rewrite E.
Qed.

Lemma read_member_text k v rest :
  read_member (encode_basestring k ++ py ": " ++ encode_basestring v ++ rest)
  = Some ((k, Text v), skip_ws rest).
Proof.
  unfold read_member.
  rewrite skip_ws_quote, JsonFacts.scanstring_encode.
  change (skip_ws (py ": " ++ encode_basestring v ++ rest))
    with (58%N :: 32%N :: encode_basestring v ++ rest).
  cbv beta iota.
  change (skip_ws (32%N :: encode_basestring v ++ rest))
    with (encode_basestring v ++ rest).
  now rewrite read_value_text.
Qed.

Lemma read_member_raw k x c rest :
  bare x -> is_delim c = true ->
  read_member (encode_basestring k ++ py ": " ++ x ++ c :: rest)
  = Some ((k, Raw x), skip_ws (c :: rest)).
Proof.
  intros Hx Hc. unfold read_member.
  rewrite skip_ws_quote, JsonFacts.scanstring_encode.
  change (skip_ws (py ": " ++ x ++ c :: rest))
    with (58%N :: 32%N :: x ++ c :: rest).
  cbv beta iota.
  assert (E : skip_ws (32%N :: x ++ c :: rest) = x ++ c :: rest).
  { destruct Hx as (Hne & Hx & _).
    destruct x as [|a x]; [contradiction|].
    simpl in Hx. apply andb_true_iff in Hx. destruct Hx as [Ha _].
    apply negb_true_iff in Ha. unfold is_delim in Ha.
    apply orb_false_iff in Ha. destruct Ha as [Ha _].
    apply orb_false_iff in Ha. destruct Ha as [Ha _].
    change (skip_ws (32%N :: (a :: x) ++ c :: rest))
      with (if is_ws a then skip_ws (x ++ c :: rest)
            else a :: x ++ c :: rest).
    now rewrite Ha. }
  rewrite E, (read_value_raw _ _ rest Hx Hc). reflexivity.
Qed.

Lemma read_members_space n s : read_members n (32%N :: s) = read_members n s.
Proof. destruct n; reflexivity. Qed.

Lemma members_text_more n k v rest :
  read_members (S n)
    (encode_basestring k ++ py ": " ++ encode_basestring v ++ py ", " ++ rest)
  = match read_members n rest with
    | Some ms => Some ((k, Text v) :: ms)
    | None => None
    end.
Proof.
  cbn [read_members]. rewrite read_member_text.
  change (skip_ws (py ", " ++ rest)) with (44%N :: 32%N :: rest).
  cbn [N.eqb Pos.eqb]. now rewrite read_members_space.
Qed.

Lemma members_raw_more n k x rest :
  bare x ->
  read_members (S n) (encode_basestring k ++ py ": " ++ x ++ py ", " ++ rest)
  = match read_members n rest with
    | Some ms => Some ((k, Raw x) :: ms)
    | None => None
    end.
Proof.
  intros Hx. cbn [read_members].
  change (py ", " ++ rest) with (44%N :: 32%N :: rest).
  pose proof (read_member_raw k x 44%N (32%N :: rest) Hx eq_refl) as E.
  unfold char in E |- *. rewrite E.
  change (skip_ws (44%N :: 32%N :: rest)) with (44%N :: 32%N :: rest).
  cbn [N.eqb Pos.eqb]. now rewrite read_members_space.
Qed.

Lemma members_text_last n k v :
  read_members (S n)
    (encode_basestring k ++ py ": " ++ encode_basestring v ++ py "}")
  = Some [(k, Text v)].
Proof. cbn [read_members]. now rewrite read_member_text. Qed.

(** More fuel does not change a result. *)
Lemma read_members_fuel n s ms :
  read_members n s = Some ms ->
  forall n', (n <= n')%nat -> read_members n' s = Some ms.
Proof.
  revert s ms. induction n as [|n IH]; intros s ms H n' Hn; [discriminate|].
  destruct n' as [|n']; [lia|].
  cbn [read_members] in *.
  destruct (read_member s) as [[m [|c rest]]|]; try discriminate.
  destruct (c =? 125)%N; [exact H|].
  destruct (c =? 44)%N; [|discriminate].
  destruct (read_members n rest) as [ms'|] eqn:E; [|discriminate].
  rewrite (IH _ _ E n') by lia. exact H.
Qed.

Lemma loads_object_members k x n ms :
  read_members n (encode_basestring k ++ x) = Some ms ->
  (n <= length (py "{" ++ encode_basestring k ++ x))%nat ->
  loads_object (py "{" ++ encode_basestring k ++ x) = Some ms.
Proof.
  intros H Hn. unfold loads_object.
  change (skip_ws (py "{" ++ encode_basestring k ++ x))
    with (123%N :: encode_basestring k ++ x).
  cbn [N.eqb Pos.eqb]. rewrite skip_ws_quote.
  change (encode_basestring k ++ x)
    with (34%N :: (flat_map escape_char k ++ [34%N]) ++ x) at 1.
  cbv iota. exact (read_members_fuel _ _ _ H _ Hn).
Qed.

End JsonReadFacts.

Section PayloadFacts.

Context {U : Unicode} {F : PyFloat}.

Import JsonRead.

Lemma biomass_reads_back (bn og : str) (date notes : option str) :
  loads_object (make_payload_biomass bn og date notes)
  = Some [ (py "kind", Text (py "biomass"));
           (py "schema", Text SCHEMA);
           (py "biomass_name", Text bn);
           (py "origin", Text og);
           (py "collection_date", Text (_normalize_date (opt_or date [])));
           (py "notes", Text (opt_or notes [])) ].
Proof.
  unfold make_payload_biomass, Json.dumps, Json.encode_item.
  cbn [map join fst snd Json.encode_value].
  rewrite <- !app_assoc.
  apply (JsonReadFacts.loads_object_members _ _ 6).
  - rewrite !JsonReadFacts.members_text_more.
    now rewrite JsonReadFacts.members_text_last.
  - rewrite !length_app.
    change (length (py ", ")) with 2%nat. lia.
Qed.

Lemma biochar_reads_back (sn pr bm rt : str) (t r : float)
    (date notes : option str) :
  bare (float_json t) -> bare (float_json r) ->
  loads_object (make_payload_biochar sn pr bm rt t r date notes)
  = Some [ (py "kind", Text (py "biochar"));
           (py "schema", Text SCHEMA);
           (py "sample_name", Text sn);
           (py "producer", Text pr);
           (py "biomass", Text bm);
           (py "reactor_type", Text rt);
           (py "pyro_temp_C", Raw (float_json t));
           (py "residence_time_min", Raw (float_json r));
           (py "production_date", Text (_normalize_date (opt_or date [])));
           (py "notes", Text (opt_or notes [])) ].
Proof.
  intros Ht Hr.
  unfold make_payload_biochar, Json.dumps, Json.encode_item.
  cbn [map join fst snd Json.encode_value].
  rewrite <- !app_assoc.
  apply (JsonReadFacts.loads_object_members _ _ 10).
  - rewrite !JsonReadFacts.members_text_more.
    rewrite (JsonReadFacts.members_raw_more _ _ _ _ Ht).
    rewrite (JsonReadFacts.members_raw_more _ _ _ _ Hr).
    rewrite !JsonReadFacts.members_text_more.
    now rewrite JsonReadFacts.members_text_last.
  - rewrite !length_app.
    change (length (py ", ")) with 2%nat. lia.
Qed.

End PayloadFacts.

(** X7. The STRUCTURED payload is one line: it holds no control character,
    hence no line break, whatever the fields contain (the encoder escapes
    them), the two numbers being written without one. *)
Theorem structured_payload_one_line {U : Unicode} {F : PyFloat}
    (sn pr bm rt : str) (t r : float) (bn og : str)
    (date notes : option str) :
  Forall printable (float_json t) ->
  Forall printable (float_json r) ->
  let biochar := make_payload_biochar sn pr bm rt t r date notes in
  let biomass := make_payload_biomass bn og date notes in
  Forall printable biochar /\ Forall printable biomass
  /\ ~ In 10%N biochar /\ ~ In 10%N biomass.
Proof.
  intros Ht Hr biochar biomass.
  assert (Hc : Forall printable biochar).
  { apply PayloadText.dumps_printable.
    repeat (apply Forall_cons;
            [first [apply PayloadText.encode_basestring_printable
                   |assumption]|]).
    constructor. }
  assert (Hm : Forall printable biomass).
  { apply PayloadText.dumps_printable.
    repeat (apply Forall_cons;
            [apply PayloadText.encode_basestring_printable|]).
    constructor. }
  repeat split; try assumption.
  - intros Hin. rewrite Forall_forall in Hc. apply Hc in Hin.
    unfold printable in Hin. lia.
  - intros Hin. rewrite Forall_forall in Hm. apply Hm in Hin.
    unfold printable in Hin. lia.
Qed.

Lemma structured_payload_one_line_witness :
  Forall printable
    (make_payload_biochar (U:=ascii_unicode) (F:=exact_float)
       (py "Lot" ++ 10%N :: py "7") (py "Ana") (py "Oak") (py "Kiln") (1001 # 2)%Q 30%Q
       (Some (py "05/03/2024")) None).
Proof.
  apply (structured_payload_one_line (U:=ascii_unicode) (F:=exact_float)
           (py "Lot" ++ 10%N :: py "7") (py "Ana") (py "Oak") (py "Kiln") (1001 # 2)%Q 30%Q
           (py "Oak") (py "Farm") (Some (py "05/03/2024")) None).
  - apply Forall_forall. intros c Hc. vm_compute in Hc.
    unfold printable. intuition lia.
  - apply Forall_forall. intros c Hc. vm_compute in Hc.
    unfold printable. intuition lia.
Defined.

(** X8. Round trip of the STRUCTURED payload: reading the text back as a
    JSON object gives the members in the order written, each string field
    as it was passed in (the date normalised, absent notes as the empty
    string) and each number as the text the encoder wrote.  So a biochar
    payload is never a biomass payload, and two biomass payloads are equal
    only if the names, the origins, the normalised dates and the notes
    are. *)
Theorem structured_payload_reads_back {U : Unicode} {F : PyFloat}
    (sn pr bm rt : str) (t r : float) (bn og : str)
    (date notes : option str) :
  JsonRead.bare (float_json t) ->
  JsonRead.bare (float_json r) ->
  JsonRead.loads_object (make_payload_biochar sn pr bm rt t r date notes)
  = Some [ (py "kind", JsonRead.Text (py "biochar"));
           (py "schema", JsonRead.Text (py "arrakis.lab.qrlabel.v2"));
           (py "sample_name", JsonRead.Text sn);
           (py "producer", JsonRead.Text pr);
           (py "biomass", JsonRead.Text bm);
           (py "reactor_type", JsonRead.Text rt);
           (py "pyro_temp_C", JsonRead.Raw (float_json t));
           (py "residence_time_min", JsonRead.Raw (float_json r));
           (py "production_date",
             JsonRead.Text (_normalize_date (opt_or date [])));
           (py "notes", JsonRead.Text (opt_or notes [])) ]
  /\ JsonRead.loads_object (make_payload_biomass bn og date notes)
     = Some [ (py "kind", JsonRead.Text (py "biomass"));
              (py "schema", JsonRead.Text (py "arrakis.lab.qrlabel.v2"));
              (py "biomass_name", JsonRead.Text bn);
              (py "origin", JsonRead.Text og);
              (py "collection_date",
                JsonRead.Text (_normalize_date (opt_or date [])));
              (py "notes", JsonRead.Text (opt_or notes [])) ]
  /\ (forall bn' og' date' notes',
        make_payload_biochar sn pr bm rt t r date notes
        <> make_payload_biomass bn' og' date' notes')
  /\ (forall bn' og' date' notes',
        make_payload_biomass bn og date notes
        = make_payload_biomass bn' og' date' notes' ->
        bn = bn' /\ og = og'
        /\ _normalize_date (opt_or date []) = _normalize_date (opt_or date' [])
        /\ opt_or notes [] = opt_or notes' []).
Proof.
  intros Ht Hr. split; [|split; [|split]].
  - exact (biochar_reads_back sn pr bm rt t r date notes Ht Hr).
  - exact (biomass_reads_back bn og date notes).
  - intros bn' og' date' notes' E.
    apply (f_equal JsonRead.loads_object) in E.
    rewrite (biochar_reads_back sn pr bm rt t r date notes Ht Hr) in E.
    rewrite biomass_reads_back in E.
    apply (f_equal (option_map (@length _))) in E. discriminate E.
  - intros bn' og' date' notes' E.
    apply (f_equal JsonRead.loads_object) in E.
    rewrite !biomass_reads_back in E.
    injection E as E1 E2 E3 E4. auto.
Qed.

Lemma structured_payload_reads_back_witness :
  JsonRead.loads_object
    (make_payload_biomass (U:=ascii_unicode) (py "Oak [bark]")
       (py "Farm, A") (Some (py "05/03/2024")) None)
  = Some [ (py "kind", JsonRead.Text (py "biomass"));
           (py "schema", JsonRead.Text (py "arrakis.lab.qrlabel.v2"));
           (py "biomass_name", JsonRead.Text (py "Oak [bark]"));
           (py "origin", JsonRead.Text (py "Farm, A"));
           (py "collection_date", JsonRead.Text (py "2024-03-05"));
           (py "notes", JsonRead.Text []) ].
Proof.
  refine (eq_trans
    (proj1 (proj2
      (structured_payload_reads_back (U:=ascii_unicode) (F:=exact_float)
         (py "Lot 7") (py "Ana") (py "Oak") (py "Kiln")
         (1001 # 2)%Q 30%Q (py "Oak [bark]") (py "Farm, A")
         (Some (py "05/03/2024")) None _ _))) _).
  - repeat split; [discriminate|discriminate].
  - repeat split; [discriminate|discriminate].
  - vm_compute. reflexivity.
Defined.

(** ** Layout of the label *)

Section Layout.

Context {F : PyFloat} {I : Imaging}.
Local Open Scope Z_scope.

Lemma fold_add_acc l : forall acc,
  fold_left Z.add l acc = acc + fold_left Z.add l 0.
Proof.
  induction l as [|a l IH]; intros acc; simpl; [lia|].
  rewrite (IH (acc + a)), (IH a). lia.
Qed.

Lemma sum_cons a l : sum (a :: l) = a + sum l.
Proof. unfold sum. simpl. apply fold_add_acc. Qed.

Lemma stacked_lines W gap ls : forall y,
  map snd (stacked W gap y ls) = ls.
Proof.
  induction ls as [|l ls IH]; intros y; simpl; [reflexivity|].
  now rewrite IH.
Qed.

Lemma stacked_nth W gap ls : forall k y0 x y line,
  nth_error (stacked W gap y0 ls) k = Some (x, y, line) ->
  x = (W - bbox_w (textbbox line)) / 2
  /\ y = y0 + sum (map (fun l => bbox_h (textbbox l)) (firstn k ls))
         + gap * Z.of_nat k.
Proof.
  induction ls as [|l ls IH]; intros k y0 x y line H.
  - destruct k; discriminate.
  - destruct k as [|k]; simpl in H.
    + injection H as <- <- <-. split; [reflexivity|].
      simpl. unfold sum. simpl. lia.
    + apply IH in H. destruct H as [Hx Hy]. split; [exact Hx|].
      cbn [firstn map]. rewrite sum_cons. lia.
Qed.

(** The title loop draws the lines as [stacked] places them; the running
    [y] ends under the last line, without a gap after it. *)
Lemma draw_title_stacked W gap n ls : forall k y drawn,
  n = (k + length ls)%nat ->
  draw_title W gap n (combine (seq k (length ls)) ls) y drawn
  = (rev drawn ++ stacked W gap y ls,
     match ls with
     | [] => y
     | _ => y + sum (map (fun l => bbox_h (textbbox l)) ls)
            + gap * (Z.of_nat (length ls) - 1)
     end).
Proof.
  induction ls as [|l ls IH]; intros k y drawn Hn.
  - simpl. now rewrite app_nil_r.
  - cbn [length seq combine draw_title].
    rewrite (IH (S k)) by (simpl in Hn; lia).
    cbn [rev stacked]. rewrite <- app_assoc. cbn [app].
    assert (Hy : y + bbox_h (textbbox l)
                 + (if Z.of_nat k <? Z.of_nat n - 1 then gap else 0)
                 = y + bbox_h (textbbox l)
                   + (match ls with [] => 0 | _ => gap end)).
    { simpl in Hn. destruct ls as [|l' ls'].
      - destruct (Z.ltb_spec (Z.of_nat k) (Z.of_nat n - 1)) as [H|H];
          [simpl in Hn; lia|reflexivity].
      - destruct (Z.ltb_spec (Z.of_nat k) (Z.of_nat n - 1)) as [H|H];
          [reflexivity|simpl in Hn; lia]. }
    rewrite Hy. destruct ls as [|l' ls'].
    + cbn [stacked map length]. f_equal. unfold sum. simpl. lia.
    + f_equal. cbn [map]. rewrite !sum_cons. cbn [length].
      rewrite !Nat2Z.inj_succ. lia.
Qed.

Lemma wrap_title_inv title W pad gap lines title_h :
  _wrap_title_lines title W pad gap = inr (lines, title_h) ->
  title_h = sum (map (fun l => bbox_h (textbbox l)) lines)
            + gap * (Z.of_nat (length lines) - 1)
  /\ (bbox_x1 (textbbox title) <= W - 2 * pad -> lines = [title]).
Proof.
  unfold _wrap_title_lines.
  destruct (image_new W 100) as [e|[]]; [discriminate|]. cbn [bind].
  destruct (W - 2 * pad <? bbox_x1 (textbbox title)) eqn:Hw.
  - destruct (truediv _ _) as [e|q]; [discriminate|]. cbn [bind ret].
    destruct (image_new W 200) as [e|[]]; [discriminate|]. cbn [bind ret].
    intros H. injection H as <- <-. rewrite length_map. split; [reflexivity|].
    apply Z.ltb_lt in Hw. lia.
  - cbn [bind ret].
    destruct (image_new W 200) as [e|[]]; [discriminate|]. cbn [bind ret].
    intros H. injection H as <- <-. split; reflexivity.
Qed.

End Layout.

(** X9. Layout of a rendered label.  The title (left and right part joined
    by a bar, or the left part alone when the right one is empty) is drawn
    as the lines [_wrap_title_lines] returns, in their order, each line
    centred horizontally and the k-th one at height 30 plus the heights of
    the lines above it plus 8 pixels for each of them.  The canvas is as
    tall as padding, title, padding, QR image and padding together.  With
    at least one line the QR image is pasted 30 pixels under the title and
    30 pixels remain under it; when wrapping leaves no line at all the title
    height is counted as -8 and the image is pasted at 60.  A title that
    fits within the padded width is never wrapped. *)
Theorem label_layout {F : PyFloat} {I : Imaging}
    (tl tr payload : str) (W box border : Z) (lbl : Label) :
  render_label_pil tl tr payload W box border = inr lbl ->
  let title := if truthy tr then tl ++ py " | " ++ tr else tl in
  let line_h := fun l : str => bbox_h (textbbox l) in
  exists lines title_h,
    _wrap_title_lines title W 30 8 = inr (lines, title_h)
    /\ (title_h = sum (map line_h lines)
                  + 8 * (Z.of_nat (length lines) - 1))%Z
    /\ map snd (label_text lbl) = lines
    /\ (forall k x y line,
          nth_error (label_text lbl) k = Some (x, y, line) ->
          x = ((W - bbox_w (textbbox line)) / 2)%Z
          /\ y = (30 + sum (map line_h (firstn k lines))
                  + 8 * Z.of_nat k)%Z)
    /\ (label_height lbl
        = 30 + title_h + 30 + snd (label_qr_size lbl) + 30)%Z
    /\ (lines <> [] ->
        snd (label_qr_pos lbl) = (30 + title_h + 30)%Z
        /\ label_height lbl
           = (snd (label_qr_pos lbl) + snd (label_qr_size lbl) + 30)%Z)
    /\ (lines = [] ->
        title_h = (-8)%Z /\ snd (label_qr_pos lbl) = 60%Z)
    /\ ((bbox_x1 (textbbox title) <= W - 60)%Z -> lines = [title]).
Proof.
  intros H title line_h. unfold render_label_pil in H.
  destruct (qr_make_image payload box border) as [e|img]; [discriminate|].
  cbn [bind] in H. fold title in H.
  destruct (_wrap_title_lines title W 30 8) as [e|[lines th]] eqn:Hw;
    [discriminate|].
  cbn [bind] in H.
  destruct (qr_scale W 30 (qr_width img)) as [e|s]; [discriminate|].
  cbn [bind] in H.
  match type of H with
  | context [bind ?m _] => destruct m as [e|r]; [discriminate|]
  end.
  cbn [bind] in H.
  destruct (image_new W _) as [e|[]]; [discriminate|]. cbn [bind] in H.
  unfold enumerate in H.
  rewrite (draw_title_stacked W 8 (length lines) lines 0 30 []) in H
    by reflexivity.
  cbn [rev app] in H.
  pose proof (f_equal (fun r => match r with inr x => x | inl _ => lbl end)
                H) as E.
  cbv beta iota zeta delta [ret] in E. clear H. subst lbl.
  destruct (wrap_title_inv _ _ _ _ _ _ Hw) as [Hth Hfit].
  exists lines, th.
  unfold label_text, label_height, label_qr_size, label_qr_pos, snd.
  split; [reflexivity|]. split; [exact Hth|].
  split; [apply stacked_lines|].
  split; [intros k x y line Hk; exact (stacked_nth _ _ _ _ _ _ _ _ Hk)|].
  split; [reflexivity|].
  split; [|split].
  - intros Hne. destruct lines as [|l ls]; [contradiction|].
    subst th. cbv iota. split; lia.
  - intros ->. simpl in Hth. unfold sum in Hth. simpl in Hth.
    split; [lia|reflexivity].
  - intros Hle. apply Hfit. lia.
Qed.

Lemma label_layout_witness :
  match render_label_pil (F:=exact_float) (I:=reference_imaging)
          (py "Eucalyptus Bark Sample") (py "Farm Of The North")
          (py "ola") 800 10 4 with
  | inr lbl =>
      map snd (label_text lbl)
      = [py "Eucalyptus Bark Sample | Far"; py "m Of The North"]
      /\ map fst (label_text lbl) = [(36, 30); (218, 78)]%Z
      /\ snd (label_qr_pos lbl) = 148%Z
  | inl _ => False
  end.
Proof.
  destruct (render_label_pil (F:=exact_float) (I:=reference_imaging)
              (py "Eucalyptus Bark Sample") (py "Farm Of The North")
              (py "ola") 800 10 4) as [e|lbl] eqn:E.
  - apply (f_equal returned) in E. vm_compute in E. discriminate.
  - destruct (label_layout _ _ _ _ _ _ lbl E)
      as (lines & th & Hw & Hth & Hl & Hpos & _ & Hqr & _).
    vm_compute in Hw. injection Hw as <- <-.
    split; [exact Hl|]. split.
    + pose proof (Hpos 0%nat) as H0. pose proof (Hpos 1%nat) as H1.
      destruct (label_text lbl) as [|[[x0 y0] l0] [|[[x1 y1] l1] [|? ?]]];
        try discriminate Hl.
      injection Hl as -> ->.
      destruct (H0 _ _ _ eq_refl) as [-> ->].
      destruct (H1 _ _ _ eq_refl) as [-> ->].
      vm_compute. reflexivity.
    + destruct Hqr as [-> _]; [discriminate|reflexivity].
Defined.

(** ** The handlers *)

Section HandlerFacts.

Context {U : Unicode} {F : PyFloat} {I : Imaging}.
Local Open Scope Z_scope.

Lemma join_cons_nonempty sep (x : str) rest :
  x <> [] -> join sep (x :: rest) <> [].
Proof. destruct x; [congruence|]. destruct rest; discriminate. Qed.

Lemma literal_app_nonempty (lit s : str) : lit <> [] -> lit ++ s <> [].
Proof. destruct lit; [congruence|discriminate]. Qed.

Lemma make_text_biochar_nonempty sn pr bm rt t r d n :
  make_text_biochar sn pr bm rt t r d n <> [].
Proof.
  unfold make_text_biochar, lines_biochar. cbv zeta.
  destruct (truthy _); destruct (opt_truthy _); cbn [app];
    apply join_cons_nonempty; apply literal_app_nonempty;
    vm_compute; discriminate.
Qed.

Lemma make_text_biomass_nonempty bn og d n :
  make_text_biomass bn og d n <> [].
Proof.
  unfold make_text_biomass, lines_biomass. cbv zeta.
  destruct (truthy _); destruct (opt_truthy _); cbn [app];
    apply join_cons_nonempty; apply literal_app_nonempty;
    vm_compute; discriminate.
Qed.

Lemma dumps_nonempty d : Json.dumps d <> [].
Proof.
  unfold Json.dumps. apply literal_app_nonempty. vm_compute. discriminate.
Qed.

(** What the first part of the handler does to the page. *)
Lemma build_payload_cases p p1 r :
  build_payload p = (p1, r) ->
  form p1 = (if tab_selected_index (form p) =? 0
             then _titlecase_all_biochar (form p)
             else _titlecase_all_biomass (form p))
  /\ match r with
     | None => exists msg, output p1 = snack msg (output p)
     | Some job =>
         output p1 = set_png_name (png_name (job_title_left job)) (output p)
         /\ job_payload job <> []
     end.
Proof.
  unfold build_payload.
  destruct (tab_selected_index (form p) =? 0).
  - destruct (negb (truthy _)).
    + intros H. injection H as <- <-. split; [reflexivity|]. eexists.
      reflexivity.
    + intros H. injection H as <- <-. split; [reflexivity|].
      split; [reflexivity|]. cbn [job_payload].
      destruct (str_eqb _ _);
        [apply make_text_biochar_nonempty|apply dumps_nonempty].
  - destruct (negb (truthy _) || negb (truthy _)).
    + intros H. injection H as <- <-. split; [reflexivity|]. eexists.
      reflexivity.
    + intros H. injection H as <- <-. split; [reflexivity|].
      split; [reflexivity|]. cbn [job_payload].
      destruct (str_eqb _ _);
        [apply make_text_biomass_nonempty|apply dumps_nonempty].
Qed.

(** The three ways [generate_preview] ends. *)
Lemma generate_preview_cases p p' out :
  generate_preview p = (p', out) ->
  match out with
  | Returned =>
      build_payload p = (p', None)
  | Raised e =>
      exists job,
        build_payload p = (p', Some job)
        /\ render_label_pil (job_title_left job) (job_title_right job)
             (job_payload job) 800 10 4 = inl e
  | Shown =>
      exists p1 job lbl,
        build_payload p = (p1, Some job)
        /\ render_label_pil (job_title_left job) (job_title_right job)
             (job_payload job) 800 10 4 = inr lbl
        /\ p' = {| form := form p1;
                   output := show_label (form p1) lbl (job_payload job)
                               (output p1) |}
  end.
Proof.
  unfold generate_preview.
  destruct (build_payload p) as [p1 [job|]] eqn:Hb.
  - destruct (render_label_pil _ _ _ 800 10 4) as [e|lbl] eqn:Hr.
    + intros H. injection H as <- <-. exists job. now split.
    + intros H. injection H as <- <-. exists p1, job, lbl. now repeat split.
  - intros H. injection H as <- <-. reflexivity.
Qed.

(** A stored label and a non-empty QR content after the handler: present
    when it ran to the end, as before otherwise. *)
Lemma generate_preview_stored p p' out :
  generate_preview p = (p', out) ->
  match out with
  | Shown =>
      (exists lbl, current_png_bytes (output p') = Some lbl)
      /\ (exists payload, qr_content_out (output p') = Some payload
                          /\ payload <> [])
  | _ =>
      current_png_bytes (output p') = current_png_bytes (output p)
      /\ qr_content_out (output p') = qr_content_out (output p)
  end.
Proof.
  intros H. pose proof (generate_preview_cases _ _ _ H) as Hc.
  destruct out as [| |e].
  - destruct Hc as (p1 & job & lbl & Hb & _ & ->).
    apply build_payload_cases in Hb. destruct Hb as (_ & _ & Hne).
    split; [exists lbl; reflexivity|].
    exists (job_payload job). split; [reflexivity|exact Hne].
  - apply build_payload_cases in Hc. destruct Hc as (_ & msg & ->).
    split; reflexivity.
  - destruct Hc as (job & Hb & _).
    apply build_payload_cases in Hb. destruct Hb as (_ & -> & _).
    split; reflexivity.
Qed.

End HandlerFacts.

Section Restart.

Context {U : Unicode} {L : UnicodeLaws U} {F : PyFloat} {I : Imaging}.
Local Open Scope Z_scope.

Lemma titlecase_all_idem f :
  ascii_names f = true -> titlecase_all (titlecase_all f) = titlecase_all f.
Proof.
  unfold ascii_names, titlecase_all.
  destruct (tab_selected_index f =? 0) eqn:Ht; intros H.
  - cbn [_titlecase_all_biochar tab_selected_index]. rewrite Ht.
    apply andb_true_iff in H as [H Hd]. apply andb_true_iff in H as [H Hc].
    apply andb_true_iff in H as [Ha Hb].
    unfold _titlecase_all_biochar at 1.
    cbn [_titlecase_all_biochar tab_selected_index dd_format tf_sample_name
         tf_biomass tf_producer tf_reactor tf_prod_date tf_pyroC tf_res_min
         tf_notes_bc tf_bm_name tf_origin tf_coll_date tf_notes_bm
         zoom_slider opt_or].
    rewrite !str_or_nil.
    destruct (titlecase_ascii_facts _ Ha) as [-> _].
    destruct (titlecase_ascii_facts _ Hb) as [-> _].
    destruct (titlecase_ascii_facts _ Hc) as [-> _].
    destruct (titlecase_ascii_facts _ Hd) as [-> _].
    reflexivity.
  - cbn [_titlecase_all_biomass tab_selected_index]. rewrite Ht.
    apply andb_true_iff in H as [Ha Hb].
    unfold _titlecase_all_biomass at 1.
    cbn [_titlecase_all_biomass tab_selected_index dd_format tf_sample_name
         tf_biomass tf_producer tf_reactor tf_prod_date tf_pyroC tf_res_min
         tf_notes_bc tf_bm_name tf_origin tf_coll_date tf_notes_bm
         zoom_slider opt_or].
    rewrite !str_or_nil.
    destruct (titlecase_ascii_facts _ Ha) as [-> _].
    destruct (titlecase_ascii_facts _ Hb) as [-> _].
    reflexivity.
Qed.

(** The first part of the handler run again on the form it left. *)
Lemma build_payload_restart p p1 r :
  build_payload p = (p1, r) ->
  ascii_names (form p) = true ->
  exists msg,
    output p1 = after r msg (output p)
    /\ forall o,
         build_payload {| form := form p1; output := o |}
         = ({| form := form p1; output := after r msg o |}, r).
Proof.
  intros Hb Ha. pose proof (titlecase_all_idem _ Ha) as Hi.
  unfold titlecase_all in Hi. unfold build_payload in Hb.
  destruct (tab_selected_index (form p) =? 0) eqn:Ht.
  - cbn [_titlecase_all_biochar tab_selected_index] in Hi. rewrite Ht in Hi.
    destruct (negb (truthy (strip (opt_or (tf_sample_name
               (_titlecase_all_biochar (form p))) [])))) eqn:Hc;
      injection Hb as <- <-;
      exists (py "Nome da amostra é obrigatório para Biochar.");
      (split; [reflexivity|]); intros o;
      unfold build_payload; cbn [form output];
      change (tab_selected_index (_titlecase_all_biochar (form p)))
        with (tab_selected_index (form p));
      change (dd_format (_titlecase_all_biochar (form p)))
        with (dd_format (form p));
      rewrite Ht, Hi, Hc; reflexivity.
  - cbn [_titlecase_all_biomass tab_selected_index] in Hi. rewrite Ht in Hi.
    destruct (negb (truthy (strip (opt_or (tf_bm_name
                (_titlecase_all_biomass (form p))) [])))
              || negb (truthy (strip (opt_or (tf_origin
                   (_titlecase_all_biomass (form p))) [])))) eqn:Hc;
      injection Hb as <- <-;
      exists (py "Nome da biomassa e Origem são obrigatórios para Biomassa.");
      (split; [reflexivity|]); intros o;
      unfold build_payload; cbn [form output];
      change (tab_selected_index (_titlecase_all_biomass (form p)))
        with (tab_selected_index (form p));
      change (dd_format (_titlecase_all_biomass (form p)))
        with (dd_format (form p));
      rewrite Ht, Hi, Hc; reflexivity.
Qed.

End Restart.

(** X10. What the handler leaves alone.  Whatever the form holds and however
    the handler ends, it never changes the selected tab, the format, the
    dates, the numbers, the notes or the zoom, nor any field of the tab that
    is not open; the name fields of the open tab are replaced by their
    title-cased text, also when the handler stops at a blank required field
    or rendering fails.  The dates and the numbers are normalised in the
    payload only, never in the form. *)
Theorem generate_preview_frame {U : Unicode} {F : PyFloat} {I : Imaging}
    (p : Page) :
  let f := form p in
  let f' := form (fst (generate_preview p)) in
  let tc := fun x : option str => Some (_titlecase (opt_or x [])) in
  tab_selected_index f' = tab_selected_index f
  /\ dd_format f' = dd_format f
  /\ tf_prod_date f' = tf_prod_date f
  /\ tf_pyroC f' = tf_pyroC f
  /\ tf_res_min f' = tf_res_min f
  /\ tf_notes_bc f' = tf_notes_bc f
  /\ tf_coll_date f' = tf_coll_date f
  /\ tf_notes_bm f' = tf_notes_bm f
  /\ zoom_slider f' = zoom_slider f
  /\ (tab_selected_index f = 0%Z ->
      tf_sample_name f' = tc (tf_sample_name f)
      /\ tf_biomass f' = tc (tf_biomass f)
      /\ tf_producer f' = tc (tf_producer f)
      /\ tf_reactor f' = tc (tf_reactor f)
      /\ tf_bm_name f' = tf_bm_name f
      /\ tf_origin f' = tf_origin f)
  /\ (tab_selected_index f <> 0%Z ->
      tf_bm_name f' = tc (tf_bm_name f)
      /\ tf_origin f' = tc (tf_origin f)
      /\ tf_sample_name f' = tf_sample_name f
      /\ tf_biomass f' = tf_biomass f
      /\ tf_producer f' = tf_producer f
      /\ tf_reactor f' = tf_reactor f).
Proof.
  intros f f' tc.
  assert (E : f' = if (tab_selected_index f =? 0)%Z
                   then _titlecase_all_biochar f
                   else _titlecase_all_biomass f).
  { unfold f'. destruct (generate_preview p) as [p' out] eqn:Hg.
    pose proof (generate_preview_cases _ _ _ Hg) as Hc. cbn [fst].
    destruct out as [| |e].
    - destruct Hc as (p1 & job & lbl & Hb & _ & ->).
      apply build_payload_cases in Hb. exact (proj1 Hb).
    - apply build_payload_cases in Hc. exact (proj1 Hc).
    - destruct Hc as (job & Hb & _).
      apply build_payload_cases in Hb. exact (proj1 Hb). }
  rewrite E. clear E f'.
  destruct (tab_selected_index f =? 0)%Z eqn:Ht.
  - apply Z.eqb_eq in Ht. repeat split; try reflexivity; congruence.
  - apply Z.eqb_neq in Ht. repeat split; try reflexivity; congruence.
Qed.

(** X11. Pressing the button twice: on a form whose name fields on the open
    tab hold ASCII text, running the handler again on the page it left ends
    the same way and leaves the same page (the same notice, or the same
    label, preview, QR content and file name).  The second run title-cases
    and strips text that is already title-cased and stripped. *)
Theorem generate_preview_idempotent {U : Unicode} {L : UnicodeLaws U}
    {F : PyFloat} {I : Imaging} (p : Page) :
  ascii_names (form p) = true ->
  generate_preview (fst (generate_preview p)) = generate_preview p.
Proof.
  intros Ha. destruct (build_payload p) as [p1 r] eqn:Hb.
  destruct (build_payload_restart _ _ _ Hb Ha) as (msg & Ho & Hagain).
  unfold generate_preview at 2 3. rewrite Hb.
  destruct p1 as [f1 o1]. cbn [form output] in Ho, Hagain. subst o1.
  destruct r as [job|].
  - destruct (render_label_pil _ _ _ 800%Z 10%Z 4%Z) as [e|lbl] eqn:Hr.
    + cbn [fst]. unfold generate_preview. rewrite Hagain, Hr. reflexivity.
    + cbn [fst form output]. unfold generate_preview.
      rewrite Hagain, Hr. reflexivity.
  - cbn [fst]. unfold generate_preview. rewrite Hagain. reflexivity.
Qed.

Lemma generate_preview_idempotent_witness :
  generate_preview (U:=ascii_unicode) (F:=exact_float)
    (I:=reference_imaging) (fst (generate_preview eucalyptus_page))
  = generate_preview eucalyptus_page.
Proof.
  apply (generate_preview_idempotent (L:=ascii_unicode_laws)).
  vm_compute. reflexivity.
Defined.

(** What a run that reached its end left on the page. *)
Lemma shown_page {U : Unicode} {F : PyFloat} {I : Imaging}
    (p p' : Page) :
  generate_preview p = (p', Shown) ->
  exists job lbl,
    snd (build_payload p) = Some job
    /\ render_label_pil (job_title_left job) (job_title_right job)
         (job_payload job) 800 10 4 = inr lbl
    /\ current_png_bytes (output p') = Some lbl
    /\ img_preview_src (output p') = Some lbl
    /\ label_width lbl = 800%Z
    /\ qr_content_out (output p') = Some (job_payload job)
    /\ job_payload job <> []
    /\ current_png_name (output p')
       = replace 32%N 95%N (job_title_left job) ++ py "_label.png"
    /\ ~ In 32%N (replace 32%N 95%N (job_title_left job))
    /\ snack_bar (output p') = snack_bar (output p).
Proof.
  intros H. apply generate_preview_cases in H.
  destruct H as (p1 & job & lbl & Hb & Hr & ->).
  exists job, lbl. rewrite Hb.
  destruct (build_payload_cases _ _ _ Hb) as (_ & Ho & Hne).
  destruct (render_label_inv _ _ _ _ _ _ _ Hr) as (_ & _ & _ & _ & Hw & _).
  cbn [snd output show_label current_png_bytes img_preview_src
       qr_content_out current_png_name snack_bar].
  rewrite Ho. cbn [set_png_name current_png_name snack_bar].
  repeat split; try assumption.
  apply replace_not_in. discriminate.
Qed.

(** X12. A run of the handler that reaches its end: the label it stores is
    the one rendered from the payload and the two title parts, 800 pixels
    wide; the preview shows that same label; the QR content box holds the
    payload, which is never empty; the file name is the left title with
    underscores for spaces and the suffix [_label.png]; a notice shown
    before stays. *)
Theorem generate_preview_shown {U : Unicode} {F : PyFloat} {I : Imaging}
    (p p' : Page) :
  generate_preview p = (p', Shown) ->
  exists job lbl,
    snd (build_payload p) = Some job
    /\ render_label_pil (job_title_left job) (job_title_right job)
         (job_payload job) 800 10 4 = inr lbl
    /\ current_png_bytes (output p') = Some lbl
    /\ img_preview_src (output p') = Some lbl
    /\ label_width lbl = 800%Z
    /\ qr_content_out (output p') = Some (job_payload job)
    /\ job_payload job <> []
    /\ current_png_name (output p')
       = replace 32%N 95%N (job_title_left job) ++ py "_label.png"
    /\ ~ In 32%N (replace 32%N 95%N (job_title_left job))
    /\ snack_bar (output p') = snack_bar (output p).
Proof. exact (shown_page p p'). Qed.

Lemma generate_preview_shown_witness :
  option_map job_title_left (snd (build_payload eucalyptus_page))
  = Some (py "Eucalyptus Bark")
  /\ snd (generate_preview eucalyptus_page) = Shown.
Proof.
  destruct (generate_preview eucalyptus_page) as [p' out] eqn:Hg.
  assert (Ho : out = Shown).
  { apply (f_equal snd) in Hg. cbn [snd] in Hg. rewrite <- Hg.
    vm_compute. reflexivity. }
  subst out.
  destruct (generate_preview_shown _ _ Hg) as (job & lbl & Hb & _).
  split; [|reflexivity].
  vm_compute. reflexivity.
Defined.

(** ** Saving and copying *)

Section DeskFacts.

Context {U : Unicode} {F : PyFloat} {I : Imaging} {S : FileSystem}.

Lemma has_png_stored p p' out :
  generate_preview p = (p', out) ->
  has_png p = false ->
  has_png p' = match out with Shown => true | _ => false end.
Proof.
  intros Hg Hp. pose proof (generate_preview_stored _ _ _ Hg) as Hs.
  unfold has_png in *. destruct out as [| |e].
  - destruct Hs as [[lbl ->] _]. reflexivity.
  - destruct Hs as [-> _]. exact Hp.
  - destruct Hs as [-> _]. exact Hp.
Qed.

Lemma has_content_stored p p' out :
  generate_preview p = (p', out) ->
  has_content p = false ->
  has_content p' = match out with Shown => true | _ => false end.
Proof.
  intros Hg Hp. pose proof (generate_preview_stored _ _ _ Hg) as Hs.
  unfold has_content in *. destruct out as [| |e].
  - destruct Hs as [_ (payload & -> & Hne)]. simpl.
    destruct payload; [congruence|reflexivity].
  - destruct Hs as [_ ->]. exact Hp.
  - destruct Hs as [_ ->]. exact Hp.
Qed.

Lemma save_png_fresh d p' out :
  has_png (desk_page d) = false ->
  generate_preview (desk_page d) = (p', out) ->
  save_png d
  = match out with
    | Shown => (open_save_dialog (with_page d p'), Completed)
    | Returned => (with_page d p', Stopped)
    | Raised e => (with_page d p', Failed e)
    end.
Proof.
  intros Hp Hg. unfold save_png. rewrite Hp, Hg.
  rewrite (has_png_stored _ _ _ Hg Hp). destruct out; reflexivity.
Qed.

Lemma copy_fresh d p' out :
  has_content (desk_page d) = false ->
  generate_preview (desk_page d) = (p', out) ->
  copy_qr_content d
  = match out with
    | Shown => (copy_out (with_page d p'), Completed)
    | Returned => (with_page d p', Stopped)
    | Raised e => (with_page d p', Failed e)
    end.
Proof.
  intros Hp Hg. unfold copy_qr_content. rewrite Hp, Hg.
  rewrite (has_content_stored _ _ _ Hg Hp). destruct out; reflexivity.
Qed.

End DeskFacts.

(** X13. Saving.  [save_png] opens the save dialog exactly when a label is
    stored once it has run, offering the stored file name, and installs the
    handler of the dialog's result then.  With a label already stored it does
    not look at the form: the page stays as it is, so the label saved is the
    one generated last, whatever has been typed since.  With none stored it
    runs [generate_preview] once and ends as that does: it stops without a
    dialog when a required field is blank, and an exception of the renderer
    leaves it.  It never touches the clipboard or the files. *)
Theorem save_png_dialog {U : Unicode} {F : PyFloat} {I : Imaging}
    {S : FileSystem} (d : Desk) :
  let d' := fst (save_png d) in
  let out := snd (save_png d) in
  (out = Completed <-> has_png (desk_page d') = true)
  /\ (out = Completed ->
      save_dialog d' = Some (current_png_name (output (desk_page d')))
      /\ on_result_set d' = true)
  /\ (out <> Completed ->
      save_dialog d' = save_dialog d
      /\ on_result_set d' = on_result_set d)
  /\ (has_png (desk_page d) = true ->
      desk_page d' = desk_page d /\ out = Completed)
  /\ (has_png (desk_page d) = false ->
      desk_page d' = fst (generate_preview (desk_page d))
      /\ out = match snd (generate_preview (desk_page d)) with
               | Shown => Completed
               | Returned => Stopped
               | Raised e => Failed e
               end)
  /\ clipboard d' = clipboard d
  /\ disk d' = disk d.
Proof.
  intros d' out. subst d' out.
  destruct (has_png (desk_page d)) eqn:Hp.
  - unfold save_png. rewrite Hp. cbn [fst snd open_save_dialog desk_page
      save_dialog on_result_set clipboard disk].
    rewrite Hp. repeat split; congruence.
  - destruct (generate_preview (desk_page d)) as [p' o] eqn:Hg.
    rewrite (save_png_fresh d p' o Hp Hg).
    pose proof (has_png_stored _ _ _ Hg Hp) as Hs.
    destruct o as [| |e];
      cbn [fst snd open_save_dialog with_page desk_page save_dialog
           on_result_set clipboard disk];
      rewrite Hs; repeat split; congruence.
Qed.



(** X15. A failed rendering renames the stored label.  When the renderer
    raises, the handler has already set the file name for the new record,
    while the stored image, the preview and the QR content are those of the
    record before.  So with a label stored from before, [save_png] then
    offers the new record's file name for the old record's image, without a
    notice. *)
Theorem failed_render_renames_old_label {U : Unicode} {F : PyFloat}
    {I : Imaging} {S : FileSystem} (d : Desk) (p1 : Page) (e : exn) :
  generate_preview (desk_page d) = (p1, Raised e) ->
  has_png (desk_page d) = true ->
  exists job,
    snd (build_payload (desk_page d)) = Some job
    /\ current_png_name (output p1) = png_name (job_title_left job)
    /\ current_png_bytes (output p1)
       = current_png_bytes (output (desk_page d))
    /\ img_preview_src (output p1) = img_preview_src (output (desk_page d))
    /\ qr_content_out (output p1) = qr_content_out (output (desk_page d))
    /\ snack_bar (output p1) = snack_bar (output (desk_page d))
    /\ save_png (with_page d p1)
       = (open_save_dialog (with_page d p1), Completed)
    /\ save_dialog (fst (save_png (with_page d p1)))
       = Some (png_name (job_title_left job)).
Proof.
  intros Hg Hp. pose proof (generate_preview_cases _ _ _ Hg) as (job & Hb & _).
  exists job. rewrite Hb.
  destruct (build_payload_cases _ _ _ Hb) as (_ & Ho & _).
  assert (Hp1 : has_png p1 = true).
  { unfold has_png in *. now rewrite Ho. }
  unfold save_png. cbn [with_page desk_page]. rewrite Hp1.
  cbn [fst open_save_dialog save_dialog desk_page with_page].
  rewrite Ho. repeat split.
Qed.

(** X16. Copying.  [copy_qr_content] puts text on the clipboard exactly when
    the QR content box is not empty once it has run, and then it is the text
    of that box, with an amber notice.  A box that already holds text is
    copied as it is, without looking at the form.  With an empty box the
    handler runs [generate_preview] once: when that reaches its end the
    clipboard holds the payload of the form; when it stops at a blank
    required field or raises, the clipboard is left alone.  The save dialog
    and the files are never touched. *)
Theorem copy_qr_content_clipboard {U : Unicode} {F : PyFloat} {I : Imaging}
    {S : FileSystem} (d : Desk) :
  let d' := fst (copy_qr_content d) in
  let out := snd (copy_qr_content d) in
  (out = Completed <-> has_content (desk_page d') = true)
  /\ (out = Completed ->
      clipboard d' = qr_content_out (output (desk_page d'))
      /\ snack_bar (output (desk_page d'))
         = Some (py "Conteúdo copiado.", AMBER))
  /\ (out <> Completed -> clipboard d' = clipboard d)
  /\ (has_content (desk_page d) = true ->
      out = Completed
      /\ form (desk_page d') = form (desk_page d)
      /\ clipboard d' = qr_content_out (output (desk_page d)))
  /\ (has_content (desk_page d) = false ->
      out = match snd (generate_preview (desk_page d)) with
            | Shown => Completed
            | Returned => Stopped
            | Raised e => Failed e
            end
      /\ (out = Completed ->
          exists job,
            snd (build_payload (desk_page d)) = Some job
            /\ clipboard d' = Some (job_payload job)))
  /\ save_dialog d' = save_dialog d
  /\ on_result_set d' = on_result_set d
  /\ disk d' = disk d.
Proof.
  intros d' out. subst d' out.
  destruct (has_content (desk_page d)) eqn:Hp.
  - unfold copy_qr_content. rewrite Hp.
    cbn [fst snd copy_out desk_page clipboard save_dialog on_result_set disk
         output form snack_as snack_bar qr_content_out snack_color].
    unfold has_content in *.
    cbn [output snack_as qr_content_out]. rewrite Hp.
    repeat split; congruence.
  - destruct (generate_preview (desk_page d)) as [p' o] eqn:Hg.
    rewrite (copy_fresh d p' o Hp Hg).
    pose proof (has_content_stored _ _ _ Hg Hp) as Hs.
    destruct o as [| |e];
      cbn [fst snd copy_out with_page desk_page clipboard save_dialog
           on_result_set disk output form snack_as snack_bar qr_content_out
           snack_color];
      unfold has_content in *; cbn [output snack_as qr_content_out];
      rewrite Hs; repeat split; try congruence.
    intros _.
    destruct (shown_page _ _ Hg)
      as (job & lbl & Hb & _ & _ & _ & _ & Hq & _).
    exists job. split; [exact Hb|exact Hq].
Qed.

Lemma failed_render_renames_old_label_witness :
  let p1 := fst (generate_preview (desk_page stale_desk)) in
  current_png_name (output p1) = py "Lote_7_label.png"
  /\ current_png_bytes (output p1) = Some old_label
  /\ save_dialog (fst (save_png (with_page stale_desk p1)))
     = Some (py "Lote_7_label.png").
Proof.
  intros p1.
  assert (Hg : generate_preview (desk_page stale_desk)
               = (p1, Raised DataOverflowError)).
  { unfold p1.
    destruct (generate_preview (desk_page stale_desk)) as [q o] eqn:E.
    apply (f_equal snd) in E. cbn [snd fst] in *.
    assert (Ho : snd (generate_preview (desk_page stale_desk))
                 = Raised DataOverflowError) by (vm_compute; reflexivity).
    congruence. }
  destruct (failed_render_renames_old_label stale_desk p1 _ Hg eq_refl)
    as (job & Hb & Hn & Hbytes & _ & _ & _ & _ & Hd).
  assert (E : option_map job_title_left
                (snd (build_payload (desk_page stale_desk)))
              = Some (py "Lote 7")) by (vm_compute; reflexivity).
  rewrite Hb in E. injection E as Ej.
  rewrite Hn, Hbytes, Hd, Ej.
  repeat split; vm_compute; reflexivity.
Defined.

(** ** Zoom *)

(** X17. The preview side.  With the slider at a finite value between 0.5
    and 1.5 (its range), under correctly rounded arithmetic the preview is a
    square of side [int(420 * factor)], between 210 and 630 pixels, and 420
    at factor 1; [on_zoom_change] changes nothing but that size, and a run of
    [generate_preview] that reaches its end sets the same size. *)
Theorem zoom_preview_side {U : Unicode} {F : PyFloat}
    {R : CorrectlyRounded F} {I : Imaging} (p : Page) (z : float) :
  zoom_slider (form p) = Some z ->
  float_finite z = true ->
  (1 # 2 <= float_val z <= 3 # 2)%Q ->
  exists side,
    img_preview_size (output (on_zoom_change p)) = (side, side)
    /\ (210 <= side <= 630)%Z
    /\ ((float_val z == 1)%Q -> side = 420%Z)
    /\ form (on_zoom_change p) = form p
    /\ current_png_bytes (output (on_zoom_change p))
       = current_png_bytes (output p)
    /\ current_png_name (output (on_zoom_change p))
       = current_png_name (output p)
    /\ img_preview_src (output (on_zoom_change p))
       = img_preview_src (output p)
    /\ qr_content_out (output (on_zoom_change p))
       = qr_content_out (output p)
    /\ snack_bar (output (on_zoom_change p)) = snack_bar (output p)
    /\ (forall q, generate_preview p = (q, Shown) ->
                  img_preview_size (output q) = (side, side)).
Proof.
  intros Hz Hfin [Hlo Hhi].
  set (factor := zoom_factor (form p)).
  assert (Hf : float_finite factor = true
               /\ (1 # 2 <= float_val factor <= 3 # 2)%Q
               /\ ((float_val z == 1)%Q -> (float_val factor == 1)%Q)).
  { unfold factor, zoom_factor. rewrite Hz. destruct (float_bool z).
    - split; [exact Hfin|]. split; [split; assumption|].
      intros H; exact H.
    - split; [apply one_finite|]. pose proof one_val as H1.
      split; [rewrite H1; split; discriminate|intros _; exact H1]. }
  destruct Hf as (Hff & [Hfl Hfh] & Hf1).
  assert (H420 : int_range 420) by (unfold int_range, two53; lia).
  assert (Habs : (Qabs (float_val factor) <= inject_Z two53)%Q).
  { apply Qabs_Qle_condition. rewrite inject_two53. split; lra. }
  pose proof (@mul_finite _ _ 420%Z factor H420 Hff Habs) as Hmf.
  pose proof (@mul_val _ _ 420%Z factor H420 Hff Habs) as Hmv.
  pose proof (@trunc_val _ _ _ Hmf) as Ht.
  exists (float_trunc (float_mul (float_of_int 420) factor)).
  split; [reflexivity|]. split; [|split].
  - rewrite Ht. split.
    + apply Qtrunc_ge. rewrite Hmv.
      apply Qle_trans with (float_rnd (inject_Z 210)).
      * apply Qle_lteq. right. symmetry. apply rnd_int.
        unfold int_range, two53. lia.
      * apply rnd_mono. change (inject_Z 210) with 210%Q.
        change (inject_Z 420) with 420%Q. lra.
    + apply Qtrunc_le. rewrite Hmv.
      apply Qle_trans with (float_rnd (inject_Z 630)).
      * apply rnd_mono. change (inject_Z 630) with 630%Q.
        change (inject_Z 420) with 420%Q. lra.
      * apply Qle_lteq. right. apply rnd_int.
        unfold int_range, two53. lia.
  - intros H1. specialize (Hf1 H1). rewrite Ht.
    assert (E : (float_val (float_mul (float_of_int 420) factor)
                 == inject_Z 420)%Q).
    { rewrite Hmv. apply Qeq_trans with (float_rnd (inject_Z 420)).
      - apply rnd_eq. change (inject_Z 420) with 420%Q. lra.
      - apply rnd_int. exact H420. }
    apply Z.le_antisymm;
      [apply Qtrunc_le|apply Qtrunc_ge]; rewrite E; apply Qle_refl.
  - repeat split.
    intros q Hq. apply generate_preview_cases in Hq.
    destruct Hq as (p1 & job & lbl & Hb & _ & ->).
    apply build_payload_cases in Hb. destruct Hb as (Hform & _).
    cbn [output show_label img_preview_size].
    assert (Ez : zoom_factor (form p1) = factor).
    { unfold factor, zoom_factor. rewrite Hform.
      destruct (tab_selected_index (form p) =? 0)%Z; reflexivity. }
    now rewrite Ez.
Qed.

Lemma zoom_preview_side_witness :
  img_preview_size (output (on_zoom_change eucalyptus_page))
  = (420, 420)%Z.
Proof.
  destruct (zoom_preview_side (R:=exact_rounded) eucalyptus_page 1%Q)
    as (side & Hs & _ & H1 & _).
  - reflexivity.
  - reflexivity.
  - split; discriminate.
  - rewrite Hs, H1; reflexivity.
Defined.

(** ** Theme *)

(** X18. The theme button.  After any number of clicks the theme is dark
    exactly when that number is odd, and the button follows it: an amber
    circle with the sun icon in the light theme, a cyan circle with the
    moon icon in the dark one (the source comment above the function says
    the opposite colours).  Two clicks restore the theme. *)
Theorem theme_after_clicks (bg : circle_color) (ic : theme_icon) (n : nat) :
  let t := clicks n (initial_theme bg ic) in
  is_dark t = Nat.odd n
  /\ page_theme_mode t = (if Nat.odd n then DARK else LIGHT)
  /\ circle_bg t = (if Nat.odd n then CYAN_400 else AMBER_400)
  /\ icon t = (if Nat.odd n then NIGHTLIGHT_ROUND else WB_SUNNY)
  /\ toggle_theme (toggle_theme t) = t.
Proof.
  induction n as [|n IH].
  - repeat split.
  - cbv zeta in *. cbn [clicks].
    destruct IH as (Hd & Hm & Hc & Hi & _).
    rewrite Nat.odd_succ, <- Nat.negb_odd.
    destruct (clicks n (initial_theme bg ic)) as [dk md cb icn].
    cbn [is_dark page_theme_mode circle_bg icon] in Hd, Hm, Hc, Hi.
    subst dk md cb icn.
    destruct (Nat.odd n); repeat split.
Qed.
